(** * go-xdom: an XML DOM read from a byte buffer

    A shallow embedding of [xdom.go] (package [xdom], the variant built on
    package [go-span]) and the properties of its tokenizer, kind classifier,
    attribute reader, element reader and document reader.

    Conventions of the embedding:
    - a Go [[]byte] ([Text]) and a Go [string] are lists of bytes ([ascii]);
    - a Go [int] is a [Z]; [uint8] and [uint32] are [Z] with the wrap-around
      written out;
    - indexing and slicing outside the bounds are run-time panics ([Panic]);
    - a Go result pair [(n, er)] is the pair [(n, er)] with [er : option error],
      [None] being [nil]. *)

From Stdlib Require Import ZArith List Ascii String Bool Lia.
Import ListNotations.
Open Scope Z_scope.

(** ** Bytes, texts and Go run-time outcomes *)

Abbreviation byte := ascii.
Definition Text := list byte.
Definition TextList := list Text.

(** A byte string literal. *)
Definition bytes (s : string) : Text := list_ascii_of_string s.

(** The byte 0x22, the double quote. *)
Definition dquote : byte := ascii_of_nat 34.
(** The byte 0x27, the single quote. *)
Definition squote : byte := ascii_of_nat 39.

Definition byte_val (b : byte) : Z := Z.of_N (N_of_ascii b).
Definition byte_eqb (a b : byte) : bool := Ascii.eqb a b.
Definition between (lo ch hi : byte) : bool :=
  (byte_val lo <=? byte_val ch) && (byte_val ch <=? byte_val hi).

(** [len(t)] *)
Definition len (t : Text) : Z := Z.of_nat (List.length t).

(** The outcome of running Go code: a value, a run-time panic, or (for the
    loops and the recursion of the model only) exhausted fuel. *)
Inductive go (A : Type) : Type :=
| Val (a : A)
| Panic
| Fuel.
Arguments Val {A} a.
Arguments Panic {A}.
Arguments Fuel {A}.

Definition bind {A B : Type} (m : go A) (k : A -> go B) : go B :=
  match m with
  | Val a => k a
  | Panic => Panic
  | Fuel => Fuel
  end.

Notation "x <- m ;; k" := (bind m (fun x => k))
  (at level 61, m at next level, right associativity).

(** [t[i]]: panics outside [0 <= i < len(t)]. *)
Definition index (t : Text) (i : Z) : go byte :=
  if (i <? 0) || (len t <=? i) then Panic
  else match nth_error t (Z.to_nat i) with
       | Some b => Val b
       | None => Panic
       end.

(** [t[lo:hi]]: panics outside [0 <= lo <= hi <= len(t)] (the capacity of a
    slice is taken to be its length). *)
Definition slice (t : Text) (lo hi : Z) : go Text :=
  if (lo <? 0) || (hi <? lo) || (len t <? hi) then Panic
  else Val (firstn (Z.to_nat (hi - lo)) (skipn (Z.to_nat lo) t)).

(** The byte at [i] where the caller has established the bounds; [None]
    outside. *)
Definition byte_at (t : Text) (i : Z) : option byte :=
  if i <? 0 then None else nth_error t (Z.to_nat i).

(** ** The span operators of the earlier variant

    The earlier variant of [xdom.go] (no import of package span) defines the
    character classes and the span operators itself; the current variant
    calls the same operators through package [span]. *)

Module prior.

(** [type cc func (byte)(bool)] *)
Definition cc := byte -> bool.

(** [func at (ch byte) (bool)] *)
Definition at_ : cc := fun ch =>
  if between "a" ch "z" then true
  else if between "A" ch "Z" then true
  else if between "0" ch "9" then true
  else if byte_eqb "_" ch || byte_eqb "-" ch || byte_eqb "+" ch
          || byte_eqb "." ch || byte_eqb "=" ch || byte_eqb ":" ch then true
  else if byte_eqb "/" ch || byte_eqb squote ch || byte_eqb dquote ch then true
  else if byte_eqb "?" ch || byte_eqb "%" ch || byte_eqb "!" ch
          || byte_eqb "#" ch || byte_eqb "$" ch then true
  else if byte_eqb "(" ch || byte_eqb ")" ch || byte_eqb "[" ch
          || byte_eqb "]" ch || byte_eqb "*" ch then true
  else false.

(** [func id (ch byte) (bool)] *)
Definition id : cc := fun ch =>
  if between "a" ch "z" then true
  else if between "A" ch "Z" then true
  else if between "0" ch "9" then true
  else if byte_eqb "_" ch || byte_eqb "-" ch || byte_eqb "+" ch
          || byte_eqb "." ch || byte_eqb ":" ch then true
  else false.

(** [func ws (ch byte) (bool)] *)
Definition ws : cc := fun ch =>
  byte_eqb (ascii_of_nat 13) ch || byte_eqb (ascii_of_nat 10) ch
  || byte_eqb (ascii_of_nat 9) ch || byte_eqb " " ch.

(** The bytes [src[ofs:len]] that a loop [for ; ofs < len; ofs++] visits
    ([len] is [len(src)] at every call site, and [ofs] is not negative). *)
Definition window (src : Text) (ofs len : Z) : Text :=
  firstn (Z.to_nat (len - ofs)) (skipn (Z.to_nat ofs) src).

(** The loop of [class]: [spx] is the index of the last byte accepted. *)
Fixpoint class_loop (rest : Text) (ofs : Z) (clop : cc) (spx : Z) : Z :=
  match rest with
  | [] => spx
  | ch :: rest' =>
      if clop ch then class_loop rest' (ofs + 1) clop ofs else spx
  end.

(** [func (this Text) class (ofs, len int, clop cc) (spx int)] *)
Definition class (this : Text) (ofs len : Z) (clop : cc) : Z :=
  class_loop (window this ofs len) ofs clop (-1).

(** The index of the first byte equal to [ch] among [rest], which starts
    at index [ofs]. *)
Fixpoint find (rest : Text) (ofs : Z) (ch : byte) : option Z :=
  match rest with
  | [] => None
  | c :: rest' => if byte_eqb ch c then Some ofs else find rest' (ofs + 1) ch
  end.

(** [func (this Text) scan(ofs, len int, ch byte) (spx int)]: the index of
    the first [ch] at or after [ofs], and [ofs] itself when there is
    none. *)
Definition scan (this : Text) (ofs len : Z) (ch : byte) : Z :=
  match find (window this ofs len) ofs ch with
  | Some i => i
  | None => ofs
  end.

(** [func (this Text) read(x int) (int)]: the last index of the span that
    starts at [x]. *)
Definition read (this : Text) (x : Z) : Z :=
  let z := len this in
  if x <? z then
    let y := z - 1 in
    if x <? y then
      match byte_at this x with
      | Some b =>
          if byte_eqb "<" b then scan this x z ">"
          else scan this x z "<" - 1
      | None => -1
      end
    else -1
  else -1.

End prior.

(** ** Package span

    [xdom.go] imports [github.com/syntelos/go-span], which is not part of this
    repository.  Its operators are modelled from the specification of the span
    classifier, and agree with the operators of the earlier variant where
    that variant has one. *)

Module span.

Definition CC := byte -> bool.

(** Modelled from the spec: [span.WS] is missing; the whitespace class
    {space, tab, CR, LF}. *)
Definition WS : CC := prior.ws.

(** Modelled from the spec: [span.XI] is missing; the identifier class
    {alnum, [_-+.:]}. *)
Definition XI : CC := prior.id.

(** Modelled from the spec: [span.XA] is missing; the attribute token class,
    alnum and a punctuation superset including the quotes. *)
Definition XA : CC := prior.at_.

(** Modelled from the spec: [span.Class] is missing; [classRun], the index
    of the last byte of the run of [clop] bytes that starts at [ofs], and
    the sentinel -1 when the byte at [ofs] is not in the class. *)
Definition Class (src : Text) (ofs len : Z) (clop : CC) : Z :=
  prior.class src ofs len clop.

(** Modelled from the spec: [span.First] is missing; [firstOf], the forward
    single byte search from [ofs], with the sentinel of [scanTo]. *)
Definition First (src : Text) (ofs len : Z) (ch : byte) : Z :=
  prior.scan src ofs len ch.

(** The index of the last byte equal to [ch] among [rev_prefix], the bytes
    read backwards from index [ofs]. *)
Fixpoint find_back (rev_prefix : Text) (ofs : Z) (ch : byte) : option Z :=
  match rev_prefix with
  | [] => None
  | c :: rest' =>
      if byte_eqb ch c then Some ofs else find_back rest' (ofs - 1) ch
  end.

(** Modelled from the spec: [span.Last] is missing; [lastOf], the backward
    single byte search from [ofs] (below [len]) down to the start of the
    text, and -1 when there is none. *)
Definition Last (src : Text) (ofs len : Z) (ch : byte) : Z :=
  if (ofs <? 0) || (len <=? ofs) then -1
  else
    match find_back (rev (firstn (Z.to_nat (ofs + 1)) src)) ofs ch with
    | Some i => i
    | None => -1
    end.

(** Modelled from the spec: [span.Forward] is missing; [forwardBalanced].
    On an [open] byte it is the index of the next [close] byte after [ofs]
    (the matching quote when both are the same quote, the [>] of a code
    span), and [ofs] when there is none; on any other byte it is the index
    before the next [open] byte (a text span).  With [<] and [>] this is
    [Text.read] of the earlier variant, which the tokenizer called in the
    same place. *)
Definition Forward (src : Text) (ofs len : Z) (open close : byte) : Z :=
  if (0 <=? ofs) && (ofs <? len - 1) then
    match byte_at src ofs with
    | Some b =>
        if byte_eqb open b then
          match prior.find (prior.window src (ofs + 1) len) (ofs + 1) close with
          | Some i => i
          | None => ofs
          end
        else prior.scan src ofs len open - 1
    | None => -1
    end
  else -1.

(** Modelled from the spec: [span.Cat] is missing; the concatenation of two
    byte strings. *)
Definition Cat (a b : Text) : Text := a ++ b.

End span.

(** ** Kinds *)

(** [type Kind uint8] *)
Definition Kind := Z.

Definition KindUndefined   : Kind := 0.
Definition KindCode        : Kind := 0x80. (* 0b10000000 *)
Definition KindDocument    : Kind := 0x81. (* 0b10000001 *)
Definition KindAttribute   : Kind := 0x82. (* 0b10000010 *)
Definition KindDeclaration : Kind := 0x84. (* 0b10000100 *)
Definition KindInstruction : Kind := 0x85. (* 0b10000101 *)
Definition KindOpen        : Kind := 0x88. (* 0b10001000 *)
Definition KindSolitary    : Kind := 0x89. (* 0b10001001 *)
Definition KindClose       : Kind := 0x8a. (* 0b10001010 *)
Definition KindText        : Kind := 0x10. (* 0b00010000 *)
Definition KindData        : Kind := 0x11. (* 0b00010001 *)

Definition Kind_eqb (a b : Kind) : bool := Z.eqb a b.

Definition IsCode (this : Kind) : bool := Kind_eqb KindCode (Z.land this KindCode).
Definition IsText (this : Kind) : bool := Kind_eqb KindText (Z.land this KindText).
Definition IsHead (this : Kind) : bool :=
  Kind_eqb KindDeclaration (Z.land this KindDeclaration).
Definition IsBody (this : Kind) : bool := Kind_eqb KindOpen (Z.land this KindOpen).
Definition IsOpen (this : Kind) : bool := Kind_eqb KindOpen this.

(** ** The data model *)

(** The error values that [xdom.go] makes: three in [Attribute.Read], and the
    wrapper of [Element.Read] around an error of the tokenizer. *)
Inductive error : Type :=
| AttributeQuoteMissing (content : Text)  (* "Attribute quote missing in '%s'." *)
| AttributeSyntax (content : Text)        (* "Attribute syntax of content '%s'." *)
| AttributeEmpty                          (* "Attribute empty." *)
| Parsing (text : Text) (er : error).     (* "Parsing '%s': %w" *)

Record Attribute : Type := mkAttribute
  { a_content : Text;
    a_name : Text;
    a_value : Text }.

(** [Node] is the interface; its implementations are [Document], [Element],
    [Attribute], [Text] and [TextList].  The parent of an [Element] is a
    [Node] or [nil]. *)
Inductive Node : Type :=
| NodeDocument (d : Document)
| NodeElement (e : Element)
| NodeAttribute (a : Attribute)
| NodeText (t : Text)
| NodeTextList (l : TextList)
with Document : Type :=
| mkDocument (source : string) (content : Text) (children : list Node)
with Element : Type :=
| mkElement (parent : option Node) (content : Text) (name : Text)
            (attributes : list Attribute) (children : list Node).

Definition d_source (d : Document) : string :=
  match d with mkDocument s _ _ => s end.
Definition d_content (d : Document) : Text :=
  match d with mkDocument _ c _ => c end.
Definition d_children (d : Document) : list Node :=
  match d with mkDocument _ _ ch => ch end.

Definition e_parent (e : Element) : option Node :=
  match e with mkElement p _ _ _ _ => p end.
Definition e_content (e : Element) : Text :=
  match e with mkElement _ c _ _ _ => c end.
Definition e_name (e : Element) : Text :=
  match e with mkElement _ _ n _ _ => n end.
Definition e_attributes (e : Element) : list Attribute :=
  match e with mkElement _ _ _ a _ => a end.
Definition e_children (e : Element) : list Node :=
  match e with mkElement _ _ _ _ ch => ch end.

(** The zero values [var doc Document], [var el Element], [var at Attribute]. *)
Definition Document_zero : Document := mkDocument EmptyString [] [].
Definition Element_zero : Element := mkElement None [] [] [] [].
Definition Attribute_zero : Attribute := mkAttribute [] [] [].

(** ** Text.KindOf *)

(** [c == t[i]] for an index inside the bounds. *)
Definition is_byte (t : Text) (i : Z) (c : byte) : bool :=
  match byte_at t i with
  | Some b => byte_eqb c b
  | None => false
  end.

(** [func (this Text) KindOf() (Kind)] *)
Definition Text_KindOf (this : Text) : Kind :=
  let x := 0 in
  let z := len this in
  if x <? z then
    let y := z - 1 in
    if x <? y then
      if is_byte this x "<" && is_byte this y ">" then
        let x := x + 1 in
        let y := y - 1 in
        if x <? y then
          if is_byte this x "?" then KindInstruction
          else if is_byte this x "!" then
            let x := x + 1 in
            if x <? y then
              if is_byte this x "[" then KindData else KindDeclaration
            else KindUndefined
          else if is_byte this x "/" then KindClose
          else if is_byte this y "/" then KindSolitary
          else KindOpen
        else KindUndefined
      else
        let w := span.Class this x z span.WS in
        if w =? y then KindUndefined else KindText
    else KindUndefined
  else KindUndefined.

(** [func (this TextList) Content() (Text)] *)
Definition TextList_Content (this : TextList) : Text := List.concat this.

(** [func (this TextList) KindOf() (Kind)] *)
Definition TextList_KindOf (this : TextList) : Kind :=
  Text_KindOf (TextList_Content this).

(** [func (this Element) KindOf() (Kind)] *)
Definition Element_KindOf (this : Element) : Kind :=
  if negb (len (e_content this) =? 0) then Text_KindOf (e_content this)
  else KindUndefined.

(** [KindOf] through the interface. *)
Definition Node_KindOf (n : Node) : Kind :=
  match n with
  | NodeDocument _ => KindDocument
  | NodeElement e => Element_KindOf e
  | NodeAttribute _ => KindAttribute
  | NodeText t => Text_KindOf t
  | NodeTextList l => TextList_KindOf l
  end.

(** [Content] through the interface. *)
Definition Node_Content (n : Node) : Text :=
  match n with
  | NodeDocument d => d_content d
  | NodeElement e => e_content e
  | NodeAttribute a => a_content a
  | NodeText t => t
  | NodeTextList l => TextList_Content l
  end.

(** ** Element.Depth *)

(** [uint8] wrap-around. *)
Definition uint8 (n : Z) : Z := n mod 256.
(** [uint32] wrap-around. *)
Definition uint32 (n : Z) : Z := n mod 4294967296.

(** The loop [for nil != p] of [Element.Depth], entered with [p] not nil.
    The type assertion [p.(Element)] panics on a node of kind Open that is
    not an [Element]. *)
Fixpoint Depth_loop (p : Node) (c : Z) : go Z :=
  if Kind_eqb KindOpen (Node_KindOf p) then
    let c := uint8 (c + 1) in
    match p with
    | NodeElement e =>
        match e_parent e with
        | Some p' => Depth_loop p' c
        | None => Val c
        end
    | _ => Panic
    end
  else Val (uint8 (c + 1)).

(** [func (this Element) Depth() (uint8)] *)
Definition Element_Depth (this : Element) : go Z :=
  match e_parent this with
  | Some p => Depth_loop p 1
  | None => Val 1
  end.

(** ** Children and attributes by index *)

(** [s[i]] on a slice of nodes or attributes: panics outside the bounds. *)
Definition index_of {A : Type} (s : list A) (i : Z) : go A :=
  if (i <? 0) || (Z.of_nat (List.length s) <=? i) then Panic
  else match nth_error s (Z.to_nat i) with
       | Some a => Val a
       | None => Panic
       end.

(** [func (this Document) CountChildren() (index uint32)] *)
Definition Document_CountChildren (this : Document) : Z :=
  uint32 (Z.of_nat (List.length (d_children this))).

(** [func (this Document) GetChild(index uint32) (Node)]; [None] is [nil]. *)
Definition Document_GetChild (this : Document) (index : Z) : go (option Node) :=
  if index <? Document_CountChildren this then
    n <- index_of (d_children this) index ;; Val (Some n)
  else Val None.

(** [func (this Element) CountChildren() (index uint32)] *)
Definition Element_CountChildren (this : Element) : Z :=
  uint32 (Z.of_nat (List.length (e_children this))).

(** [func (this Element) GetChild(index uint32) (ch Node)] *)
Definition Element_GetChild (this : Element) (index : Z) : go (option Node) :=
  if index <? Element_CountChildren this then
    n <- index_of (e_children this) index ;; Val (Some n)
  else Val None.

(** [func (this Element) CountAttributes() (index uint32)] *)
Definition Element_CountAttributes (this : Element) : Z :=
  uint32 (Z.of_nat (List.length (e_attributes this))).

(** [func (this Element) GetAttribute(index uint32) (at Attribute)] *)
Definition Element_GetAttribute (this : Element) (index : Z) : go Attribute :=
  if index <? Element_CountAttributes this then
    index_of (e_attributes this) index
  else Val Attribute_zero.

(** ** The tokenizer: TextList.Read *)

Section Tokenizer.

(** The scanner of the loop: [forward content x z] is the index [last] of
    the last byte of the span that starts at [x].  The current variant
    calls [span.Forward(content,x,z,'<','>')], the earlier variant called
    [this.content.read(x)]. *)
Variable forward : Text -> Z -> Z -> Z.

(** One iteration of [for x < z] in [TextList.Read]: the list and the
    cursor after it. *)
Definition TextList_Read_step (this : TextList) (content : Text) (x z : Z)
  : go (TextList * Z) :=
  let first := x in
  let last := forward content x z in
  if first <? last then
    let begin := first in
    let end_ := last + 1 in
    text <- slice content begin end_ ;;
    let this :=
      if negb (Kind_eqb KindUndefined (Text_KindOf text))
      then this ++ [text] else this in
    Val (this, end_)
  else Val (this, x + 1).

(** The loop [for x < z] of [TextList.Read]. *)
Fixpoint TextList_Read_loop (fuel : nat) (this : TextList) (content : Text)
         (x z : Z) : go TextList :=
  if x <? z then
    match fuel with
    | O => Fuel
    | S fuel' =>
        r <- TextList_Read_step this content x z ;;
        TextList_Read_loop fuel' (fst r) content (snd r) z
    end
  else Val this.

(** [TextList.Read] over a scanner; one unit of fuel for each byte. *)
Definition TextList_Read_with (this : TextList) (url : string) (content : Text)
  : go (TextList * option error) :=
  let z := len content in
  l <- TextList_Read_loop (Z.to_nat z) this content 0 z ;;
  Val (l, None).

End Tokenizer.

(** [span.Forward(content,x,z,'<','>')] *)
Definition forward_span (content : Text) (x z : Z) : Z :=
  span.Forward content x z "<" ">".

(** [this.content.read(x)] of the earlier variant. *)
Definition forward_read (content : Text) (x z : Z) : Z :=
  prior.read content x.

(** [func (this TextList) Read (url string, content Text) (n Node, er error)] *)
Definition TextList_Read (this : TextList) (url : string) (content : Text)
  : go (TextList * option error) :=
  TextList_Read_with forward_span this url content.

(** ** Attribute.Read *)

Definition byte_of_Z (v : Z) : byte := ascii_of_N (Z.to_N v).

(** [string(b)] for a byte [b]: the UTF-8 encoding of the code point [b]. *)
Definition string_of_byte (b : byte) : Text :=
  let v := byte_val b in
  if v <? 128 then [b]
  else [byte_of_Z (Z.lor 0xC0 (Z.shiftr v 6));
        byte_of_Z (Z.lor 0x80 (Z.land v 0x3F))].

(** [func (this Attribute) Read(url string, content Text) (n Node, er error)] *)
Definition Attribute_Read (this : Attribute) (url : string) (content : Text)
  : go (Attribute * option error) :=
  let this := mkAttribute content (a_name this) (a_value this) in
  let x := 0 in
  let z := len content in
  if x <? z then
    let y := z - 1 in
    if is_byte content x dquote then
      if is_byte content x dquote && is_byte content y dquote then
        Val (mkAttribute content (a_name this) content, None)
      else Val (this, Some (AttributeQuoteMissing content))
    else
      let y := span.Class content x z span.XI in
      if 0 <? y then
        let y := y + 1 in
        if y <? z then
          if is_byte content y "=" then
            name <- slice content x y ;;
            b <- index content (y + 1) ;;
            Val (mkAttribute content name (string_of_byte b), None)
          else Val (this, Some (AttributeSyntax content))
        else Val (mkAttribute content content (a_value this), None)
      else Val (mkAttribute content (a_name this) content, None)
  else Val (this, Some AttributeEmpty).

(** ** Element.Read *)

(** [func (this Text) identifier(ofs int) (string)] *)
Definition Text_identifier (this : Text) (ofs : Z) : go Text :=
  let x := ofs in
  let z := len this in
  let y := span.Class this x z span.XI in
  if (x <=? y) && (y <=? z) then slice this x (y + 1) else Val this.

(** How one iteration of the attribute loop of [Element.Read] ends. *)
Inductive flow : Type :=
| Next (this : Element) (x : Z)      (* the next iteration *)
| Break (this : Element) (x : Z)     (* break *)
| Return (this : Element) (er : error).  (* return this, er *)

(** The block repeated in every branch of the attribute loop: read the
    attribute [content[x:y+1]] and append it. *)
Definition Element_Read_at (this : Element) (url : string) (x y : Z) : go flow :=
  let at_be := x in
  let at_en := y + 1 in
  atx <- slice (e_content this) at_be at_en ;;
  r <- Attribute_Read Attribute_zero url atx ;;
  match r with
  | (_, Some er) => Val (Return this er)
  | (at_, None) =>
      Val (Next (mkElement (e_parent this) (e_content this) (e_name this)
                           (e_attributes this ++ [at_]) (e_children this))
                at_en)
  end.

(** One iteration of [for x < z] in the attribute part of [Element.Read]. *)
Definition Element_Read_attribute (this : Element) (url : string) (x z : Z)
  : go flow :=
  let content := e_content this in
  let w := span.Class content x z span.WS in
  if 0 <? w then
    let x := w + 1 in
    cx <- index content x ;;
    if byte_eqb dquote cx then
      let y := span.Forward content x z dquote dquote in
      if 0 <? y then Element_Read_at this url x y else Val (Break this x)
    else if byte_eqb squote cx then
      let y := span.Forward content x z squote squote in
      if 0 <? y then Element_Read_at this url x y else Val (Break this x)
    else
      let y := span.Class content x z span.XI in
      if 0 <? y then
        cy <- index content y ;;
        if byte_eqb "=" cy then
          let y := y + 1 in
          cy <- index content y ;;
          if byte_eqb dquote cy then
            let y := span.Forward content y z dquote dquote in
            if 0 <? y then Element_Read_at this url x y else Val (Break this x)
          else if byte_eqb squote cy then
            let y := span.Forward content y z squote squote in
            if 0 <? y then Element_Read_at this url x y else Val (Break this x)
          else
            let y := span.Class content y z span.XA in
            if 0 <? y then Element_Read_at this url x y else Val (Break this x)
        else Element_Read_at this url x y
      else Val (Break this x)
  else Val (Break this x).

(** The loop [for x < z] of the attribute part of [Element.Read]; it ends in
    [Break] or [Return]. *)
Fixpoint Element_Read_attributes (fuel : nat) (this : Element) (url : string)
         (x z : Z) : go flow :=
  if x <? z then
    match fuel with
    | O => Fuel
    | S fuel' =>
        r <- Element_Read_attribute this url x z ;;
        match r with
        | Next this x => Element_Read_attributes fuel' this url x z
        | _ => Val r
        end
    end
  else Val (Break this x).

(** [this.children = append(this.children,el)] *)
Definition Element_append (this : Element) (n : Node) : Element :=
  mkElement (e_parent this) (e_content this) (e_name this) (e_attributes this)
            (e_children this ++ [n]).

(** The state of the loop over the tokens of an element body. *)
Record siblings : Type := mkSiblings
  { s_this : Element;   (* this *)
    s_stack : Z;        (* stack *)
    s_body : Text }.    (* body *)

(** The loop [for _, text = range list] of [Element.Read], over the reader
    [Read] of a child element ([el.Read] on a zero [Element]).  It runs to
    the end of the list, or returns early with the error of a child. *)
Fixpoint Element_Read_siblings
         (Read : string -> Text -> go (Element * option error))
         (url : string) (list : TextList) (stack : Z) (body : Text)
         (this : Element) : go (siblings * option error) :=
  match list with
  | [] => Val (mkSiblings this stack body, None)
  | text :: list' =>
      let kind := Text_KindOf text in
      if Kind_eqb kind KindOpen then
        let body := span.Cat body text in
        let stack := stack + 1 in
        Element_Read_siblings Read url list' stack body this
      else if Kind_eqb kind KindSolitary then
        if 0 =? stack then
          r <- Read url text ;;
          match r with
          | (_, Some er) => Val (mkSiblings this stack body, Some er)
          | (el, None) =>
              Element_Read_siblings Read url list' stack body
                                    (Element_append this (NodeElement el))
          end
        else
          let body := span.Cat body text in
          Element_Read_siblings Read url list' stack body this
      else if Kind_eqb kind KindClose then
        let body := span.Cat body text in
        let stack := stack - 1 in
        if 0 =? stack then
          r <- Read url body ;;
          match r with
          | (_, Some er) => Val (mkSiblings this stack body, Some er)
          | (el, None) =>
              Element_Read_siblings Read url list' stack []
                                    (Element_append this (NodeElement el))
          end
        else Element_Read_siblings Read url list' stack body this
      else if Kind_eqb kind KindText || Kind_eqb kind KindData then
        let body := span.Cat body text in
        Element_Read_siblings Read url list' stack body this
      else Element_Read_siblings Read url list' stack body this
  end.

(** The offset of the name by kind: the first [switch kind] of
    [Element.Read]. *)
Definition name_offset (kind : Kind) : Z :=
  if Kind_eqb kind KindDeclaration then 2
  else if Kind_eqb kind KindInstruction then 2
  else if Kind_eqb kind KindOpen then 1
  else if Kind_eqb kind KindSolitary then 1
  else if Kind_eqb kind KindClose then 2
  else 0.

(** The kinds of the second [switch kind]: those that carry attributes. *)
Definition has_attributes (kind : Kind) : bool :=
  Kind_eqb kind KindDeclaration || Kind_eqb kind KindInstruction
  || Kind_eqb kind KindOpen || Kind_eqb kind KindSolitary.

(** The body of an Open element, [content[w:y]]: from the first [>] at or
    after [x] to the last [<]; [None] when a guard fails. *)
Definition Element_Read_body (content : Text) (x z : Z) : go (option Text) :=
  let w := span.First content x z ">" in
  if (x <? w) && (w <? z) then
    let y := span.Last content (z - 1) z "<" in
    if (x <? y) && (y <? z) then
      text <- slice content w y ;; Val (Some text)
    else Val None
  else Val None.

(** [this.content = content] *)
Definition Element_with_content (this : Element) (content : Text) : Element :=
  mkElement (e_parent this) content (e_name this) (e_attributes this)
            (e_children this).

(** [this.name = name] *)
Definition Element_with_name (this : Element) (name : Text) : Element :=
  mkElement (e_parent this) (e_content this) name (e_attributes this)
            (e_children this).

(** The first part of [Element.Read], "Element attributes", on [this] with
    its content set and [kind] its kind: the name and the attributes, and
    the offset [x] where the attribute loop ends. *)
Definition Element_Read_head (this : Element) (url : string) (kind : Kind)
  : go flow :=
  let z := len (e_content this) in
  let x := name_offset kind in
  name <- Text_identifier (e_content this) x ;;
  let this := Element_with_name this name in
  if has_attributes kind
  then Element_Read_attributes (Z.to_nat z) this url (x + len name) z
  else Val (Break this x).

(** The second part of [Element.Read], "Element content", over the reader
    [Read] of a child element. *)
Definition Element_Read_content
           (Read : string -> Text -> go (Element * option error))
           (this : Element) (url : string) (kind : Kind) (content : Text)
           (x : Z) : go (Element * option error) :=
  let z := len content in
  if Kind_eqb KindOpen kind then
    b <- Element_Read_body content x z ;;
    match b with
    | Some text =>
        t <- TextList_Read [] url text ;;
        match t with
        | (_, Some er) => Val (this, Some (Parsing text er))
        | (list, None) =>
            s <- Element_Read_siblings Read url list 0 [] this ;;
            Val (s_this (fst s), snd s)
        end
    | None => Val (this, None)
    end
  else Val (this, None).

(** [func (this Element) Read(url string, content Text) (n Node, er error)];
    one unit of fuel for each level of nesting. *)
Fixpoint Element_Read_fuel (fuel : nat) (this : Element) (url : string)
         (content : Text) {struct fuel} : go (Element * option error) :=
  match fuel with
  | O => Fuel
  | S fuel' =>
      let this := Element_with_content this content in
      let kind := Element_KindOf this in
      r <- Element_Read_head this url kind ;;
      match r with
      | Return this er => Val (this, Some er)
      | Next this x | Break this x =>
          Element_Read_content (Element_Read_fuel fuel' Element_zero)
                               this url kind content x
      end
  end.

(** [Element.Read]: the nesting is below the length of the content. *)
Definition Element_Read (this : Element) (url : string) (content : Text)
  : go (Element * option error) :=
  Element_Read_fuel (S (List.length content)) this url content.

(** ** Document.Read *)

(** [this.children = append(this.children,n)] *)
Definition Document_append (this : Document) (n : Node) : Document :=
  mkDocument (d_source this) (d_content this) (d_children this ++ [n]).

(** The loop [for _, text = range source] of [Document.Read]: the document
    and the body collected, or the early return with the error of a head
    element. *)
Fixpoint Document_Read_source
         (Read : string -> Text -> go (Element * option error))
         (url : string) (source : TextList) (body : Text) (this : Document)
  : go (Document * Text * option error) :=
  match source with
  | [] => Val (this, body, None)
  | text :: source' =>
      let kind := Text_KindOf text in
      if IsCode kind then
        if IsBody kind then
          Document_Read_source Read url source' (span.Cat body text) this
        else
          r <- Read url text ;;
          match r with
          | (_, Some er) => Val (this, body, Some er)
          | (el, None) =>
              Document_Read_source Read url source' body
                                   (Document_append this (NodeElement el))
          end
      else if IsText kind then
        if 0 =? len body then
          Document_Read_source Read url source' body
                               (Document_append this (NodeText text))
        else Document_Read_source Read url source' (span.Cat body text) this
      else Document_Read_source Read url source' body this
  end.

(** [func (this Document) Read (url string, content Text) (n Node, er error)] *)
Definition Document_Read (this : Document) (url : string) (content : Text)
  : go (Document * option error) :=
  let this := mkDocument url content (d_children this) in
  t <- TextList_Read [] url content ;;
  s <- match t with
       | (source, None) =>
           Document_Read_source (Element_Read Element_zero) url source [] this
       | (_, Some _) => Val (this, [], None)
       end ;;
  match s with
  | (this, _, Some er) => Val (this, Some er)
  | (this, body, None) =>
      r <- Element_Read Element_zero url body ;;
      match r with
      | (_, Some er) => Val (this, Some er)
      | (el, None) => Val (Document_append this (NodeElement el), None)
      end
  end.

(** ** Inputs and notions of the statements *)

(** An element with two attributes and two children, and a document that
    holds it. *)
Definition sample_element : Element :=
  mkElement None (bytes "<g id k><t/><u/></g>") (bytes "g")
            [mkAttribute (bytes "id") (bytes "id") [];
             mkAttribute (bytes "k") [] (bytes "k")]
            [NodeElement (mkElement None (bytes "<t/>") (bytes "t") [] []);
             NodeElement (mkElement None (bytes "<u/>") (bytes "u") [] [])].

Definition sample_document : Document :=
  mkDocument "file:sample" (bytes "<g id k><t/><u/></g>")
             [NodeElement sample_element].

(** Scenario A: the buffer [<a x="1"><b/>text</a>]. *)
Definition scenario_A : Text :=
  bytes "<a x=" ++ [dquote] ++ bytes "1" ++ [dquote] ++ bytes "><b/>text</a>".

(** What [Document.Read] makes of the elements of scenario A. *)
Definition scenario_A_b : Element :=
  mkElement None (bytes "<b/>") (bytes "b") [] [].

Definition scenario_A_a : Element :=
  mkElement None scenario_A (bytes "a")
            [mkAttribute (bytes "x") [] (bytes "x")]
            [NodeElement scenario_A_b].

(** Scenario C: the buffer [<a><b></a>]. *)
Definition scenario_C : Text := bytes "<a><b></a>".

(** A result with the nodes [pre] in front of the children of the document. *)
Definition Document_prepend (pre : list Node) (r : Document * option error)
  : Document * option error :=
  (mkDocument (d_source (fst r)) (d_content (fst r))
              (pre ++ d_children (fst r)), snd r).

Definition go_map {A B : Type} (f : A -> B) (m : go A) : go B :=
  match m with
  | Val a => Val (f a)
  | Panic => Panic
  | Fuel => Fuel
  end.

(** The Open element [<aa>] under the parent [p]. *)
Definition open_under (p : option Node) : Element :=
  mkElement p (bytes "<aa>") (bytes "aa") [] [].

(** A chain of [n + 1] Open elements, each the parent of the next. *)
Fixpoint open_chain (n : nat) : Element :=
  match n with
  | O => open_under None
  | S k => open_under (Some (NodeElement (open_chain k)))
  end.

(** The length of the longest prefix of [t] in the class [clop]. *)
Fixpoint run (clop : byte -> bool) (t : Text) : nat :=
  match t with
  | [] => O
  | ch :: t' => if clop ch then S (run clop t') else O
  end.

(** The nesting depth counter of a token stream: one up on every Open
    token, one down on every Close token. *)
Fixpoint depth_counter (list : TextList) : Z :=
  match list with
  | [] => 0
  | text :: list' =>
      let kind := Text_KindOf text in
      (if Kind_eqb kind KindOpen then 1
       else if Kind_eqb kind KindClose then -1
       else 0) + depth_counter list'
  end.



(** The span [<aa x=1><bb></aa>]: the tag [bb] is never closed. *)
Definition unbalanced_body : Text := bytes "<aa x=1><bb></aa>".

(** The span [<aa x=1><bb><c/></bb><d/></aa>]: properly nested tags. *)
Definition nested_body : Text := bytes "<aa x=1><bb><c/></bb><d/></aa>".

(** What a part of [Element.Read] keeps of [this]. *)
Definition keeps (this this' : Element) : Prop :=
  e_parent this' = e_parent this
  /\ e_content this' = e_content this
  /\ e_children this' = e_children this.

(** What the flow of the attribute loop keeps of [this]. *)
Definition flow_keeps (this : Element) (r : flow) : Prop :=
  match r with
  | Next this' _ | Break this' _ | Return this' _ => keeps this this'
  end.

(** A reader of child elements that returns its input as the content. *)
Definition reads_content (Read : string -> Text -> go (Element * option error))
  : Prop :=
  forall (u : string) (c : Text) (el : Element) (er : option error),
    Read u c = Val (el, er) -> e_content el = c.

(** How the flow of one iteration of the attribute loop moves the cursor
    [x] in a content of length [z]: forward and inside the content on
    [Next]; no iteration returns an error. *)
Definition flow_advances (x z : Z) (r : flow) : Prop :=
  match r with
  | Next _ x' => x < x' <= z
  | Break _ _ => True
  | Return _ _ => False
  end.

(** The flow at the end of the attribute loop: a [Break]. *)
Definition flow_breaks (r : flow) : Prop :=
  match r with
  | Break _ _ => True
  | Next _ _ | Return _ _ => False
  end.

(** ** String *)

(** The byte 0x0A, the line feed. *)
Definition newline : byte := ascii_of_nat 10.

(** The loop "Clamp to line" of [Text.String] and [TextList.String], over
    the bytes [rest] from index [x] on: the value of [y] after it. *)
Fixpoint String_clamp (rest : Text) (x y : Z) : Z :=
  match rest with
  | [] => y
  | ch :: rest' =>
      if byte_eqb newline ch then x
      else if 20 =? x then 20
      else String_clamp rest' (x + 1) y
  end.

(** [func (this Text) String() (string)] *)
Definition Text_String (this : Text) : go Text :=
  let x := 0 in
  let z := len this in
  if x <? z then
    let y := String_clamp this x z in
    if 20 <? y then slice this 0 20
    else if y <? z then slice this 0 y
    else Val this
  else Val [].

(** [func (this TextList) String() (string)] *)
Definition TextList_String (this : TextList) : go Text :=
  let content := TextList_Content this in
  let x := 0 in
  let z := len content in
  if x <? z then
    let y := String_clamp content x z in
    if 20 <? y then slice content 0 20
    else if y <? z then slice content 0 y
    else Val content
  else Val content.

(** [func (this Document) String() (string)] *)
Definition Document_String (this : Document) : go Text :=
  Text_String (d_content this).

(** [func (this Attribute) String() (string)] *)
Definition Attribute_String (this : Attribute) : Text :=
  match a_name this with
  | _ :: _ => a_name this
  | [] =>
      match a_value this with
      | _ :: _ => a_value this
      | [] => []
      end
  end.

(** The longest prefix of [t] of at most [n] bytes that holds no line
    feed. *)
Fixpoint line_prefix (n : nat) (t : Text) : Text :=
  match n, t with
  | S n', ch :: t' =>
      if byte_eqb newline ch then [] else ch :: line_prefix n' t'
  | _, _ => []
  end.

(** The kinds that [Text.KindOf] returns. *)
Definition token_kinds : list Kind :=
  [KindUndefined; KindInstruction; KindData; KindDeclaration; KindClose;
   KindSolitary; KindOpen; KindText].

(** [this'] is [this] with attributes appended. *)
Definition adds_attributes (this this' : Element) : Prop :=
  e_parent this' = e_parent this
  /\ e_content this' = e_content this
  /\ e_name this' = e_name this
  /\ e_children this' = e_children this
  /\ exists new : list Attribute,
      e_attributes this' = e_attributes this ++ new.

(** The element that a flow of the attribute loop carries. *)
Definition flow_element (r : flow) : Element :=
  match r with
  | Next this _ | Break this _ | Return this _ => this
  end.

(** The offset that a flow of the attribute loop carries. *)
Definition flow_offset (r : flow) : Z :=
  match r with
  | Next _ x | Break _ x => x
  | Return _ _ => 0
  end.

(** The span [<aa x=1><bb><c/></bb><d/></aa>] read as an Element, and the
    span [<p>one<b/>two</p>], an Open tag without attributes. *)
Definition nested_element : Element :=
  mkElement None nested_body (bytes "aa")
            [mkAttribute (bytes "x") [] (bytes "x")]
            [NodeElement (mkElement None (bytes "<bb><c/></bb>") (bytes "bb") [] []);
             NodeElement (mkElement None (bytes "<d/>") (bytes "d") [] [])].

Definition plain_body : Text := bytes "<p>one<b/>two</p>".

(** The Elements of the tree under a node, the node itself included, in
    document order. *)
Fixpoint elements (n : Node) : list Element :=
  match n with
  | NodeDocument (mkDocument _ _ children) => flat_map elements children
  | NodeElement (mkElement parent content name attributes children) =>
      mkElement parent content name attributes children
      :: flat_map elements children
  | NodeAttribute _ | NodeText _ | NodeTextList _ => []
  end.

(** A token of the document head: code that is not of a body kind. *)
Definition is_head_token (text : Text) : bool :=
  IsCode (Text_KindOf text) && negb (IsBody (Text_KindOf text)).

(** A token stream in which every head token (Declaration, Instruction)
    comes before the first token of a body kind (Open, Solitary, Close). *)
Fixpoint prolog_first (source : TextList) : bool :=
  match source with
  | [] => true
  | text :: source' =>
      if IsCode (Text_KindOf text) && IsBody (Text_KindOf text)
      then forallb (fun t => negb (is_head_token t)) source'
      else prolog_first source'
  end.

(** The buffer [<?xml version="1.0"?><root/>] of scenario B. *)
Definition scenario_B : Text :=
  bytes "<?xml version=" ++ [dquote] ++ bytes "1.0" ++ [dquote]
        ++ bytes "?><root/>".

(** The span [content[b:e]] of a pair of offsets [(b, e)]. *)
Definition span_of (content : Text) (p : Z * Z) : Text :=
  firstn (Z.to_nat (snd p - fst p)) (skipn (Z.to_nat (fst p)) content).

(** Offsets of spans in the order of the text, from [x] to [z]: a span
    starts at or after the end of the one before it, has two bytes or more
    and ends at or before [z]. *)
Fixpoint in_order (x z : Z) (offs : list (Z * Z)) : bool :=
  match offs with
  | [] => true
  | (b, e) :: offs' =>
      (x <=? b) && (b + 1 <? e) && (e <=? z) && in_order e z offs'
  end.

(** The tokens of a buffer, and the document read from it on a zero
    Document. *)
Definition tokens_of (content : Text) : TextList :=
  match TextList_Read [] "u" content with
  | Val (l, _) => l
  | _ => []
  end.

Definition document_of (content : Text) : Document :=
  match Document_Read Document_zero "u" content with
  | Val (d, _) => d
  | _ => Document_zero
  end.

(** No byte [ch] in the text. *)
Definition free_of (ch : byte) (t : Text) : bool :=
  forallb (fun c => negb (byte_eqb ch c)) t.

(** A code span of the scanner: [<] first, [>] last, and no [>] before
    the last byte. *)
Definition code_span (content : Text) (p : Z * Z) : bool :=
  is_byte content (fst p) "<" && is_byte content (snd p - 1) ">"
  && free_of ">" (span_of content (fst p, snd p - 1)).

(** A text span of the scanner: no [<] in it, and [<] right after it. *)
Definition text_span (content : Text) (p : Z * Z) : bool :=
  free_of "<" (span_of content p) && is_byte content (snd p) "<".

(** [func (this Kind) String() (string)] *)
Definition Kind_String (this : Kind) : string :=
  if Kind_eqb this KindDeclaration then "<DECL>"
  else if Kind_eqb this KindInstruction then "<INSTR>"
  else if Kind_eqb this KindDocument then "<DOC>"
  else if Kind_eqb this KindOpen then "<OPEN>"
  else if Kind_eqb this KindSolitary then "<SOL>"
  else if Kind_eqb this KindClose then "<CLOSE>"
  else if Kind_eqb this KindText then "<TEXT>"
  else if Kind_eqb this KindData then "<DATA>"
  else "<UNKN>".

(** The loop [for ix, at := range this.attributes] of [Element.String]
    over the builder [str]. *)
Fixpoint Element_String_loop (ix : Z) (attributes : list Attribute)
         (str : Text) : Text :=
  match attributes with
  | [] => str
  | at_ :: attributes' =>
      let str := if negb (0 =? ix) then str ++ [" "%char] else str in
      Element_String_loop (ix + 1) attributes' (str ++ a_name at_)
  end.

(** [func (this Element) String() (string)] *)
Definition Element_String (this : Element) : Text :=
  Element_String_loop 0 (e_attributes this) (e_name this ++ [" "%char]).

(** The texts of a list with [sep] between them. *)
Fixpoint join (sep : Text) (l : list Text) : Text :=
  match l with
  | [] => []
  | a :: l' =>
      match l' with
      | [] => a
      | _ :: _ => a ++ sep ++ join sep l'
      end
  end.

(** A child that [Document.Read] appends before the body: an Element of
    a Declaration or an Instruction, or a Text of kind Text or Data. *)
Definition prolog_node (n : Node) : bool :=
  match n with
  | NodeElement e =>
      Kind_eqb KindDeclaration (Element_KindOf e)
      || Kind_eqb KindInstruction (Element_KindOf e)
  | NodeText t =>
      Kind_eqb KindText (Text_KindOf t) || Kind_eqb KindData (Text_KindOf t)
  | _ => false
  end.

(** * Properties *)

Lemma Val_inj {A : Type} (a b : A) : Val a = Val b -> a = b.
Proof. intros H. inversion H. reflexivity. Qed.

(** ** Lookup by index *)

Lemma uint32_le (n : Z) : 0 <= n -> 0 <= uint32 n <= n.
Proof.
  intros Hn. unfold uint32. split.
  - apply Z.mod_pos_bound. lia.
  - apply Z.mod_le; lia.
Qed.

Lemma index_of_below {A : Type} (s : list A) (i : Z) :
  0 <= i < Z.of_nat (List.length s) ->
  exists a, nth_error s (Z.to_nat i) = Some a /\ index_of s i = Val a.
Proof.
  intros [H0 H1]. unfold index_of.
  destruct (i <? 0) eqn:E0; [apply Z.ltb_lt in E0; lia |].
  destruct (Z.of_nat (List.length s) <=? i) eqn:E1; [apply Z.leb_le in E1; lia |].
  simpl. destruct (nth_error s (Z.to_nat i)) as [a |] eqn:En.
  - exists a. split; reflexivity.
  - apply nth_error_None in En. lia.
Qed.

Section Lookup.

Variable A : Type.
Variable s : list A.
Variable index : Z.
Hypothesis index_uint32 : 0 <= index < 4294967296.

Let count := uint32 (Z.of_nat (List.length s)).

(** Below the count the index is inside the slice. *)
Lemma below_count_in_bounds :
  index < count -> 0 <= index < Z.of_nat (List.length s).
Proof.
  intros H. pose proof (uint32_le (Z.of_nat (List.length s)) (Nat2Z.is_nonneg _)).
  subst count. lia.
Qed.

End Lookup.

(** C10. Lookup by index never panics: for a [uint32] index at or above
    [CountChildren()], [GetChild] of a Document and of an Element is [nil],
    and at or above [CountAttributes()], [GetAttribute] is the zero
    Attribute; below the count they are the node, and the attribute, stored
    at that position. *)
Theorem C10_lookup_by_index_is_total :
  forall (d : Document) (e : Element) (index : Z),
    0 <= index < 4294967296 ->
    (Document_CountChildren d <= index -> Document_GetChild d index = Val None)
    /\ (index < Document_CountChildren d ->
        exists n, nth_error (d_children d) (Z.to_nat index) = Some n
                  /\ Document_GetChild d index = Val (Some n))
    /\ (Element_CountChildren e <= index -> Element_GetChild e index = Val None)
    /\ (index < Element_CountChildren e ->
        exists n, nth_error (e_children e) (Z.to_nat index) = Some n
                  /\ Element_GetChild e index = Val (Some n))
    /\ (Element_CountAttributes e <= index ->
        Element_GetAttribute e index = Val Attribute_zero)
    /\ (index < Element_CountAttributes e ->
        exists a, nth_error (e_attributes e) (Z.to_nat index) = Some a
                  /\ Element_GetAttribute e index = Val a).
Proof.
  intros d e index Hi.
  unfold Document_GetChild, Element_GetChild, Element_GetAttribute.
  repeat split.
  - intros H. apply Z.ltb_ge in H. rewrite H. reflexivity.
  - intros H. pose proof (below_count_in_bounds _ (d_children d) index Hi H) as Hb.
    apply Z.ltb_lt in H. rewrite H.
    destruct (index_of_below (d_children d) index Hb) as (n & Hn & Hv).
    exists n. rewrite Hv. split; [assumption | reflexivity].
  - intros H. apply Z.ltb_ge in H. rewrite H. reflexivity.
  - intros H. pose proof (below_count_in_bounds _ (e_children e) index Hi H) as Hb.
    apply Z.ltb_lt in H. rewrite H.
    destruct (index_of_below (e_children e) index Hb) as (n & Hn & Hv).
    exists n. rewrite Hv. split; [assumption | reflexivity].
  - intros H. apply Z.ltb_ge in H. rewrite H. reflexivity.
  - intros H. pose proof (below_count_in_bounds _ (e_attributes e) index Hi H) as Hb.
    apply Z.ltb_lt in H. rewrite H.
    destruct (index_of_below (e_attributes e) index Hb) as (a & Hn & Hv).
    exists a. split; assumption.
Qed.

Lemma C10_lookup_witness :
  Document_GetChild sample_document 1 = Val None
  /\ Element_GetChild sample_element 1
     = Val (Some (NodeElement (mkElement None (bytes "<u/>") (bytes "u") [] []))).
Proof.
  destruct (C10_lookup_by_index_is_total sample_document sample_element 1)
    as (Hd & _ & _ & He & _).
  - lia.
  - split.
    + apply Hd. vm_compute. discriminate.
    + destruct He as (n & Hn & Hv).
      * vm_compute. reflexivity.
      * rewrite Hv. vm_compute in Hn. inversion Hn. reflexivity.
Defined.

(** ** The empty buffer *)

(** C3, as the code has it. On an empty buffer [Document.Read] returns a
    nil error and a document: the tokenizer returns no token and no error,
    and the document gets one child, the Element read from the empty body
    (empty content, kind Undefined, no name, no attributes, no children). *)
Theorem C3_empty_buffer_reads_an_empty_element :
  forall (this : Document) (url : string),
    Document_Read this url []
    = Val (mkDocument url [] (d_children this ++ [NodeElement Element_zero]),
           None)
    /\ Element_KindOf Element_zero = KindUndefined.
Proof.
  intros this url. split; reflexivity.
Qed.

(** C3 fails as stated: the error of [Document.Read] on the zero-length
    buffer is nil, and a document tree is returned. *)
Lemma C3_empty_buffer_counterexample :
  exists d : Document,
    Document_Read Document_zero EmptyString [] = Val (d, None)
    /\ d_children d = [NodeElement Element_zero].
Proof.
  eexists. split; reflexivity.
Qed.

(** ** Scenario A *)

(** C1, at the buffer of scenario A. [Document.Read] returns one child, the
    Element [a]; its one attribute has the empty name and the value [x], and
    its only child is the Element [b]: the bytes [text] do not become a
    child. *)
Theorem C1_scenario_A_reads :
  forall url : string,
    Document_Read Document_zero url scenario_A
    = Val (mkDocument url scenario_A [NodeElement scenario_A_a], None)
    /\ e_attributes scenario_A_a = [mkAttribute (bytes "x") [] (bytes "x")]
    /\ e_children scenario_A_a = [NodeElement scenario_A_b]
    /\ Element_KindOf scenario_A_b = KindSolitary.
Proof.
  intros url. split; [vm_compute; reflexivity | repeat split].
Qed.

(** ** The receiver of Document.Read *)

Lemma Document_Read_source_prepend
      (Read : string -> Text -> go (Element * option error))
      (url : string) (source : TextList) :
  forall (body : Text) (s : string) (c : Text) (pre ch : list Node),
    Document_Read_source Read url source body (mkDocument s c (pre ++ ch))
    = go_map (fun r => (mkDocument s c (pre ++ d_children (fst (fst r))),
                        snd (fst r), snd r))
             (Document_Read_source Read url source body (mkDocument s c ch)).
Proof.
  induction source as [| text source IH]; intros body s c pre ch.
  - reflexivity.
  - cbn [Document_Read_source]. destruct (IsCode (Text_KindOf text)).
    + destruct (IsBody (Text_KindOf text)).
      * apply IH.
      * destruct (Read url text) as [[el [er |]] | |]; cbn [bind go_map];
          try reflexivity.
        unfold Document_append. cbn [d_source d_content d_children].
        rewrite <- app_assoc. apply IH.
    + destruct (IsText (Text_KindOf text)).
      * destruct (0 =? len body).
        -- unfold Document_append. cbn [d_source d_content d_children].
           rewrite <- app_assoc. apply IH.
        -- apply IH.
      * apply IH.
Qed.

Lemma Document_Read_source_fields
      (Read : string -> Text -> go (Element * option error))
      (url : string) (source : TextList) :
  forall (body : Text) (this : Document) (d : Document) (b : Text)
         (er : option error),
    Document_Read_source Read url source body this = Val (d, b, er) ->
    d_source d = d_source this /\ d_content d = d_content this.
Proof.
  induction source as [| text source IH]; intros body this d b er H.
  - cbn [Document_Read_source] in H. inversion H. subst. split; reflexivity.
  - cbn [Document_Read_source] in H. destruct (IsCode (Text_KindOf text)).
    + destruct (IsBody (Text_KindOf text)).
      * apply (IH _ _ _ _ _ H).
      * destruct (Read url text) as [[el [e |]] | |]; cbn [bind] in H;
          try discriminate.
        -- inversion H. subst. split; reflexivity.
        -- apply IH in H. destruct this. exact H.
    + destruct (IsText (Text_KindOf text)).
      * destruct (0 =? len body).
        -- apply IH in H. destruct this. exact H.
        -- apply (IH _ _ _ _ _ H).
      * apply (IH _ _ _ _ _ H).
Qed.

(** C9, as the code has it. [Document.Read] is a function of its receiver,
    the source string and the buffer; of the receiver only the children
    count, and they stay in front of the nodes read: two runs on the same
    source string and buffer return equal results when the receivers hold
    the same children, as two zero Documents do. *)
Theorem C9_read_depends_on_receiver_children :
  forall (d1 d2 : Document) (url : string) (content : Text),
    (d_children d1 = d_children d2 ->
     Document_Read d1 url content = Document_Read d2 url content)
    /\ Document_Read d1 url content
       = go_map (Document_prepend (d_children d1))
                (Document_Read Document_zero url content).
Proof.
  intros [s1 c1 ch1] [s2 c2 ch2] url content. split.
  - cbn [d_children]. intros ->. reflexivity.
  - unfold Document_Read. cbn [d_children].
    destruct (TextList_Read [] url content) as [[source [er |]] | |];
      cbn [bind go_map]; try reflexivity.
    cbn [d_children Document_zero].
    pose proof (Document_Read_source_prepend (Element_Read Element_zero)
                    url source [] url content ch1 []) as P.
    rewrite app_nil_r in P. rewrite P. clear P.
    destruct (Document_Read_source (Element_Read Element_zero) url source []
                                   (mkDocument url content []))
      as [[[d b] [e |]] | |] eqn:E; cbn [bind go_map fst snd];
      try reflexivity.
      * apply Document_Read_source_fields in E. destruct E as [E1 E2].
        cbn [d_source d_content] in E1, E2. unfold Document_prepend.
        cbn [fst snd]. rewrite E1, E2. reflexivity.
      * apply Document_Read_source_fields in E. destruct E as [E1 E2].
        cbn [d_source d_content] in E1, E2.
        destruct (Element_Read Element_zero url b) as [[el [e |]] | |];
          cbn [bind go_map]; try reflexivity.
        -- unfold Document_prepend. cbn [fst snd]. rewrite E1, E2.
           reflexivity.
        -- unfold Document_prepend, Document_append.
           cbn [fst snd d_source d_content d_children].
           rewrite E1, E2, app_assoc. reflexivity.
Qed.

Lemma C9_receiver_witness :
  Document_Read (mkDocument "file:one" (bytes "<p/>") []) "u" scenario_A
  = Document_Read Document_zero "u" scenario_A.
Proof.
  exact (proj1 (C9_read_depends_on_receiver_children
                  (mkDocument "file:one" (bytes "<p/>") []) Document_zero "u"
                  scenario_A) eq_refl).
Defined.

(** C9 fails as stated: a second run of [Document.Read] on the same source
    string and buffer, on the document that the first run returned, returns
    a different document (the children are there twice). *)
Lemma C9_second_run_counterexample :
  exists d1 d2 : Document,
    Document_Read Document_zero "u" scenario_A = Val (d1, None)
    /\ Document_Read d1 "u" scenario_A = Val (d2, None)
    /\ d_children d1 = [NodeElement scenario_A_a]
    /\ d_children d2 = [NodeElement scenario_A_a; NodeElement scenario_A_a]
    /\ d1 <> d2.
Proof.
  eexists. eexists.
  split; [vm_compute; reflexivity |].
  split; [vm_compute; reflexivity |].
  split; [reflexivity |].
  split; [reflexivity |].
  discriminate.
Qed.

(** ** Depth *)

Lemma uint8_add_l (a b : Z) : uint8 (uint8 a + b) = uint8 (a + b).
Proof. unfold uint8. apply Z.add_mod_idemp_l. lia. Qed.

Lemma uint8_add_r (a b : Z) : uint8 (a + uint8 b) = uint8 (a + b).
Proof. unfold uint8. apply Z.add_mod_idemp_r. lia. Qed.

(** The loop of [Depth] adds to its counter a number that depends on the
    chain of parents only. *)
Lemma Depth_loop_counter :
  forall (p : Node) (c : Z),
    Depth_loop p c = go_map (fun k => uint8 (c + k)) (Depth_loop p 0).
Proof.
  fix IH 1. intros p c.
  destruct p as [d | e | a | t | l];
    try (cbn [Depth_loop];
         match goal with
         | |- context [Kind_eqb KindOpen ?k] => destruct (Kind_eqb KindOpen k)
         end; reflexivity).
  destruct e as [parent content name attributes children].
  cbn [Depth_loop e_parent].
  destruct (Kind_eqb KindOpen
              (Node_KindOf (NodeElement
                 (mkElement parent content name attributes children)))).
  - destruct parent as [p' |].
    + rewrite (IH p' (uint8 (c + 1))). rewrite (IH p' (uint8 (0 + 1))).
      destruct (Depth_loop p' 0) as [k | |]; cbn [go_map]; try reflexivity.
      f_equal. rewrite uint8_add_r, !uint8_add_l.
      change (uint8 (0 + 1)) with 1. f_equal. lia.
    + reflexivity.
  - reflexivity.
Qed.

(** C7, as the code has it. For an Element [e] whose parent [p] is an
    Element of kind Open, [Depth(e)] is [Depth(p) + 1] in [uint8]
    arithmetic: it is [Depth(p) + 1] when [Depth(p)] is below 255, and
    wraps to 0 at 255. *)
Theorem C7_depth_of_child :
  forall (e p : Element) (dp : Z),
    e_parent e = Some (NodeElement p) ->
    Element_KindOf p = KindOpen ->
    Element_Depth p = Val dp ->
    Element_Depth e = Val (uint8 (dp + 1))
    /\ (dp < 255 -> Element_Depth e = Val (dp + 1)).
Proof.
  intros e p dp He Hk Hp.
  assert (Hd : Element_Depth e = Val (uint8 (dp + 1))).
  { unfold Element_Depth in *. rewrite He.
    destruct p as [parent content name attributes children].
    cbn [Depth_loop e_parent Node_KindOf] in *. rewrite Hk.
    cbn [Kind_eqb Z.eqb KindOpen Pos.eqb].
    destruct parent as [p' |].
    - rewrite Depth_loop_counter in Hp. rewrite Depth_loop_counter.
      destruct (Depth_loop p' 0) as [k | |]; cbn [go_map] in *;
        try discriminate.
      apply Val_inj in Hp. subst dp. f_equal. rewrite !uint8_add_l.
      f_equal. lia.
    - inversion Hp. reflexivity. }
  split; [exact Hd |].
  intros Hlt. rewrite Hd. f_equal.
  assert (0 <= dp).
  { unfold Element_Depth in Hp. destruct (e_parent p) as [q |].
    - rewrite Depth_loop_counter in Hp.
      destruct (Depth_loop q 0); cbn [go_map] in Hp; try discriminate.
      apply Val_inj in Hp. subst dp. unfold uint8. apply Z.mod_pos_bound.
      lia.
    - apply Val_inj in Hp. lia. }
  unfold uint8. apply Z.mod_small. lia.
Qed.

Lemma C7_depth_witness :
  Element_Depth (open_chain 2) = Val 3.
Proof.
  destruct (C7_depth_of_child (open_chain 2) (open_chain 1) 2) as [_ H].
  - reflexivity.
  - reflexivity.
  - reflexivity.
  - apply H. lia.
Defined.

(** C7 fails as stated: under a chain of 255 Open elements, [Depth] of the
    parent is 255 and [Depth] of the child is 0, not 256. *)
Lemma C7_depth_wraps_counterexample :
  e_parent (open_chain 255) = Some (NodeElement (open_chain 254))
  /\ Element_KindOf (open_chain 254) = KindOpen
  /\ Element_Depth (open_chain 254) = Val 255
  /\ Element_Depth (open_chain 255) = Val 0
  /\ Val 0 <> Val (255 + 1).
Proof.
  repeat split; try (vm_compute; reflexivity).
  discriminate.
Qed.

(** ** The span operators *)

Lemma len_nonneg (t : Text) : 0 <= len t.
Proof. unfold len. lia. Qed.

Lemma window_length (src : Text) (ofs len : Z) :
  Z.of_nat (List.length (prior.window src ofs len)) <= Z.max 0 (len - ofs).
Proof.
  unfold prior.window. rewrite length_firstn. lia.
Qed.

Lemma find_bounds (ch : byte) :
  forall (rest : Text) (ofs i : Z),
    prior.find rest ofs ch = Some i ->
    ofs <= i < ofs + Z.of_nat (List.length rest).
Proof.
  induction rest as [| c rest IH]; intros ofs i H; cbn [prior.find] in H.
  - discriminate.
  - destruct (byte_eqb ch c).
    + injection H as <-. cbn [List.length]. lia.
    + apply IH in H. cbn [List.length]. lia.
Qed.

Lemma scan_bounds (this : Text) (ofs len : Z) (ch : byte) :
  ofs <= prior.scan this ofs len ch < Z.max (ofs + 1) len.
Proof.
  unfold prior.scan.
  destruct (prior.find (prior.window this ofs len) ofs ch) as [i |] eqn:E.
  - apply find_bounds in E. pose proof (window_length this ofs len). lia.
  - lia.
Qed.

(** [span.Forward] stays below [len]. *)
Lemma Forward_below (src : Text) (ofs len : Z) (open close : byte) :
  0 <= len -> span.Forward src ofs len open close < len.
Proof.
  intros Hl. unfold span.Forward.
  destruct ((0 <=? ofs) && (ofs <? len - 1)) eqn:G; [| lia].
  apply andb_prop in G. destruct G as [G0 G1].
  apply Z.leb_le in G0. apply Z.ltb_lt in G1.
  destruct (byte_at src ofs) as [b |]; [| lia].
  destruct (byte_eqb open b).
  - destruct (prior.find (prior.window src (ofs + 1) len) (ofs + 1) close)
      as [i |] eqn:E; [| lia].
    apply find_bounds in E.
    pose proof (window_length src (ofs + 1) len). lia.
  - pose proof (scan_bounds src ofs len open). lia.
Qed.

(** [Text.read] stays below the length. *)
Lemma read_below (this : Text) (x : Z) : prior.read this x < len this.
Proof.
  pose proof (len_nonneg this) as Hl. unfold prior.read.
  destruct (x <? len this) eqn:G0; [| lia].
  destruct (x <? len this - 1) eqn:G1; [| lia].
  apply Z.ltb_lt in G0, G1.
  destruct (byte_at this x) as [b |]; [| lia].
  destruct (byte_eqb "<" b).
  - pose proof (scan_bounds this x (len this) ">"). lia.
  - pose proof (scan_bounds this x (len this) "<"). lia.
Qed.

(** On a cursor that is not negative, the scanner of the current variant is
    the scanner of the earlier one. *)
Lemma forward_span_is_read (content : Text) (x : Z) :
  0 <= x -> forward_span content x (len content) = forward_read content x (len content).
Proof.
  intros Hx. unfold forward_span, forward_read, span.Forward, prior.read.
  destruct (x <? len content - 1) eqn:G1.
  - apply Z.ltb_lt in G1.
    assert (G0 : (x <? len content) = true) by (apply Z.ltb_lt; lia).
    assert (Gx : (0 <=? x) = true) by (apply Z.leb_le; lia).
    rewrite G0, Gx. cbn [andb].
    destruct (byte_at content x) as [b |] eqn:Eb; [| reflexivity].
    destruct (byte_eqb "<" b) eqn:Elt; [| reflexivity].
    unfold prior.scan, prior.window.
    assert (Hw : firstn (Z.to_nat (len content - x)) (skipn (Z.to_nat x) content)
                 = b :: firstn (Z.to_nat (len content - (x + 1)))
                               (skipn (Z.to_nat (x + 1)) content)).
    { unfold byte_at in Eb. destruct (x <? 0) eqn:E0; [discriminate |].
      replace (Z.to_nat (x + 1)) with (S (Z.to_nat x)) by lia.
      replace (Z.to_nat (len content - x))
        with (S (Z.to_nat (len content - (x + 1)))) by lia.
      clear - Eb. revert Eb. generalize (Z.to_nat x) as n.
      generalize (Z.to_nat (len content - (x + 1))) as m.
      intros m n. revert content. induction n as [| n IH]; intros content Eb.
      - destruct content; [discriminate |]. injection Eb as ->. reflexivity.
      - destruct content; [discriminate |]. cbn [nth_error] in Eb.
        cbn [skipn]. apply IH. exact Eb. }
    rewrite Hw. cbn [prior.find].
    assert (Hgt : byte_eqb ">" b = false).
    { unfold byte_eqb in *. apply Ascii.eqb_eq in Elt. subst b. reflexivity. }
    rewrite Hgt. reflexivity.
  - rewrite andb_false_r.
    destruct (x <? len content); reflexivity.
Qed.

(** ** The tokenizer terminates *)

Lemma slice_in_bounds (t : Text) (lo hi : Z) :
  0 <= lo <= hi -> hi <= len t -> exists r, slice t lo hi = Val r.
Proof.
  intros [H0 H1] H2. unfold slice.
  destruct (lo <? 0) eqn:E0; [apply Z.ltb_lt in E0; lia |].
  destruct (hi <? lo) eqn:E1; [apply Z.ltb_lt in E1; lia |].
  destruct (len t <? hi) eqn:E2; [apply Z.ltb_lt in E2; lia |].
  cbn [orb]. eexists. reflexivity.
Qed.

Lemma slice_not_fuel (t : Text) (lo hi : Z) : slice t lo hi <> Fuel.
Proof.
  unfold slice.
  destruct ((lo <? 0) || (hi <? lo) || (len t <? hi)); discriminate.
Qed.

Section TokenizerTermination.

Variable forward : Text -> Z -> Z -> Z.

Lemma step_not_fuel (this : TextList) (content : Text) (x z : Z) :
  TextList_Read_step forward this content x z <> Fuel.
Proof.
  unfold TextList_Read_step.
  destruct (x <? forward content x z); [| discriminate].
  pose proof (slice_not_fuel content x (forward content x z + 1)) as H.
  destruct (slice content x (forward content x z + 1)); cbn [bind];
    [discriminate | discriminate | contradiction].
Qed.

(** The cursor after one iteration: past the span, or one byte on. *)
Lemma step_cursor (this : TextList) (content : Text) (x z : Z)
      (l : TextList) (x' : Z) :
  TextList_Read_step forward this content x z = Val (l, x') ->
  x < x'
  /\ x' = (if x <? forward content x z then forward content x z + 1
           else x + 1).
Proof.
  unfold TextList_Read_step. intros H.
  destruct (x <? forward content x z) eqn:E.
  - apply Z.ltb_lt in E.
    destruct (slice content x (forward content x z + 1)) as [text | |];
      cbn [bind] in H; try discriminate.
    apply Val_inj in H. injection H as _ <-. lia.
  - apply Val_inj in H. injection H as _ <-. lia.
Qed.

(** With one unit of fuel for each byte from the cursor to the end the
    loop does not run out of fuel. *)
Lemma loop_has_fuel (content : Text) (z : Z) :
  forall (fuel : nat) (this : TextList) (x : Z),
    z - x <= Z.of_nat fuel ->
    TextList_Read_loop forward fuel this content x z <> Fuel.
Proof.
  induction fuel as [| fuel IH]; intros this x Hf.
  - cbn [TextList_Read_loop].
    destruct (x <? z) eqn:E; [apply Z.ltb_lt in E; lia | discriminate].
  - cbn [TextList_Read_loop]. destruct (x <? z) eqn:E; [| discriminate].
    destruct (TextList_Read_step forward this content x z)
      as [[l x'] | |] eqn:Es; cbn [bind fst snd]; try discriminate.
    + apply step_cursor in Es. apply IH. lia.
    + exfalso. exact (step_not_fuel this content x z Es).
Qed.

Hypothesis forward_below :
  forall (content : Text) (x : Z), forward content x (len content) < len content.

(** A scanner that stays below the length never makes the step panic. *)
Lemma step_returns (this : TextList) (content : Text) (x : Z) :
  0 <= x < len content ->
  exists l x',
    TextList_Read_step forward this content x (len content) = Val (l, x')
    /\ x < x' <= len content.
Proof.
  intros Hx. pose proof (forward_below content x) as Hb.
  destruct (TextList_Read_step forward this content x (len content))
    as [[l x'] | |] eqn:Es.
  - exists l, x'. split; [reflexivity |].
    apply step_cursor in Es. destruct Es as [Hlt ->].
    destruct (x <? forward content x (len content)); lia.
  - exfalso. unfold TextList_Read_step in Es.
    destruct (x <? forward content x (len content)) eqn:E; [| discriminate].
    apply Z.ltb_lt in E.
    destruct (slice_in_bounds content x (forward content x (len content) + 1))
      as [r Hr]; [lia | lia |].
    rewrite Hr in Es. discriminate.
  - exfalso. exact (step_not_fuel this content x (len content) Es).
Qed.

Lemma loop_returns (content : Text) :
  forall (fuel : nat) (this : TextList) (x : Z),
    0 <= x -> len content - x <= Z.of_nat fuel ->
    exists l, TextList_Read_loop forward fuel this content x (len content) = Val l.
Proof.
  induction fuel as [| fuel IH]; intros this x H0 Hf.
  - cbn [TextList_Read_loop].
    destruct (x <? len content) eqn:E; [apply Z.ltb_lt in E; lia |].
    exists this. reflexivity.
  - cbn [TextList_Read_loop].
    destruct (x <? len content) eqn:E;
      [apply Z.ltb_lt in E | exists this; reflexivity].
    destruct (step_returns this content x) as (l & x' & Hs & Hx'); [lia |].
    rewrite Hs. cbn [bind fst snd]. apply IH; lia.
Qed.

Lemma Read_with_returns (this : TextList) (url : string) (content : Text) :
  exists l, TextList_Read_with forward this url content = Val (l, None).
Proof.
  unfold TextList_Read_with.
  destruct (loop_returns content (Z.to_nat (len content)) this 0) as [l Hl].
  - lia.
  - pose proof (len_nonneg content). lia.
  - exists l. rewrite Hl. reflexivity.
Qed.

End TokenizerTermination.

(** C8. The tokenizer terminates on every buffer: [TextList.Read] returns a
    list and a nil error, with the scanner of the current variant and with
    [Text.read]; and in every iteration the cursor moves forward and stays
    inside the buffer, past the span when one is formed ([first < last]) and
    by one byte otherwise. *)
Theorem C8_tokenizer_terminates :
  forall (this : TextList) (url : string) (content : Text),
    (exists l, TextList_Read this url content = Val (l, None))
    /\ (exists l, TextList_Read_with forward_read this url content = Val (l, None))
    /\ (forall (acc : TextList) (x : Z),
           0 <= x < len content ->
           exists l x',
             TextList_Read_step forward_span acc content x (len content)
             = Val (l, x')
             /\ x < x' <= len content
             /\ x' = (if x <? forward_span content x (len content)
                      then forward_span content x (len content) + 1
                      else x + 1)).
Proof.
  intros this url content.
  assert (Hs : forall (c : Text) (x : Z), forward_span c x (len c) < len c).
  { intros c x. apply Forward_below. apply len_nonneg. }
  assert (Hr : forall (c : Text) (x : Z), forward_read c x (len c) < len c).
  { intros c x. apply read_below. }
  split; [| split].
  - apply (Read_with_returns forward_span Hs).
  - apply (Read_with_returns forward_read Hr).
  - intros acc x Hx.
    destruct (step_returns forward_span Hs acc content x Hx)
      as (l & x' & Hstep & Hx').
    exists l, x'. split; [exact Hstep |]. split; [exact Hx' |].
    apply (step_cursor forward_span acc content x (len content) l x' Hstep).
Qed.

Lemma C8_tokenizer_witness :
  exists l x',
    TextList_Read_step forward_span [] scenario_A 9 (len scenario_A) = Val (l, x')
    /\ 9 < x' <= len scenario_A.
Proof.
  pose proof (proj2 (proj2 (C8_tokenizer_terminates [] "u" scenario_A))) as H.
  destruct (H [] 9) as (l & x' & Hs & Hx & _).
  - split; [lia | vm_compute; reflexivity].
  - exists l, x'. split; assumption.
Defined.

(** ** Runs of a character class *)

Lemma to_nat_len (t : Text) : Z.to_nat (len t) = List.length t.
Proof. unfold len. apply Nat2Z.id. Qed.

Lemma window_whole (t : Text) : prior.window t 0 (len t) = t.
Proof.
  unfold prior.window. rewrite Z.sub_0_r, to_nat_len. cbn [Z.to_nat skipn].
  apply firstn_all.
Qed.

(** [class] is the index of the last byte of the run, and the sentinel on an
    empty run. *)
Lemma class_loop_run (clop : byte -> bool) :
  forall (rest : Text) (ofs spx : Z),
    prior.class_loop rest ofs clop spx
    = if Nat.eqb (run clop rest) 0 then spx
      else ofs + Z.of_nat (run clop rest) - 1.
Proof.
  induction rest as [| ch rest IH]; intros ofs spx.
  - reflexivity.
  - cbn [prior.class_loop run]. destruct (clop ch).
    + rewrite IH. cbn [Nat.eqb]. destruct (Nat.eqb (run clop rest) 0) eqn:E.
      * apply Nat.eqb_eq in E. rewrite E. lia.
      * lia.
    + reflexivity.
Qed.

Lemma run_le (clop : byte -> bool) (t : Text) :
  (run clop t <= List.length t)%nat.
Proof.
  induction t as [| ch t IH]; cbn [run List.length]; [lia |].
  destruct (clop ch); lia.
Qed.

Lemma run_all (clop : byte -> bool) (t : Text) :
  run clop t = List.length t <-> forallb clop t = true.
Proof.
  induction t as [| ch t IH]; cbn [run List.length forallb].
  - split; reflexivity.
  - destruct (clop ch); cbn [andb].
    + rewrite <- IH. lia.
    + split; [lia | discriminate].
Qed.

Lemma run_prefix (clop : byte -> bool) (name : Text) (ch : byte) (rest : Text) :
  forallb clop name = true -> clop ch = false ->
  run clop (name ++ ch :: rest) = List.length name.
Proof.
  intros Hn Hc. induction name as [| c name IH]; cbn [app run List.length].
  - rewrite Hc. reflexivity.
  - cbn [forallb] in Hn. apply andb_prop in Hn. destruct Hn as [H1 H2].
    rewrite H1, (IH H2). reflexivity.
Qed.

Lemma Class_whole (clop : byte -> bool) (t : Text) :
  span.Class t 0 (len t) clop
  = if Nat.eqb (run clop t) 0 then -1 else Z.of_nat (run clop t) - 1.
Proof.
  unfold span.Class, prior.class. rewrite window_whole, class_loop_run.
  destruct (Nat.eqb (run clop t) 0); lia.
Qed.

(** ** Text.KindOf on spans without the bracket pair *)

Lemma KindOf_short (this : Text) : len this < 2 -> Text_KindOf this = KindUndefined.
Proof.
  intros H. unfold Text_KindOf.
  destruct (0 <? len this) eqn:E0; [| reflexivity].
  destruct (0 <? len this - 1) eqn:E1; [apply Z.ltb_lt in E1; lia | reflexivity].
Qed.

Lemma KindOf_unbracketed (this : Text) :
  2 <= len this ->
  is_byte this 0 "<" && is_byte this (len this - 1) ">" = false ->
  Text_KindOf this = if forallb span.WS this then KindUndefined else KindText.
Proof.
  intros H2 Hb. unfold Text_KindOf.
  destruct (0 <? len this) eqn:E0; [| apply Z.ltb_ge in E0; lia].
  destruct (0 <? len this - 1) eqn:E1; [| apply Z.ltb_ge in E1; lia].
  rewrite Hb, Class_whole.
  pose proof (run_le span.WS this) as Hle.
  pose proof (run_all span.WS this) as Hall.
  destruct (forallb span.WS this).
  - assert (Hr : run span.WS this = List.length this) by (apply Hall; reflexivity).
    rewrite Hr.
    destruct (Nat.eqb (List.length this) 0) eqn:En.
    + apply Nat.eqb_eq in En. unfold len in H2. lia.
    + replace (Z.of_nat (List.length this) - 1 =? len this - 1) with true;
        [reflexivity |].
      symmetry. apply Z.eqb_eq. reflexivity.
  - assert (Hr : run span.WS this <> List.length this).
    { intros Hr. apply Hall in Hr. discriminate. }
    destruct (Nat.eqb (run span.WS this) 0).
    + replace (-1 =? len this - 1) with false; [reflexivity |].
      symmetry. apply Z.eqb_neq. lia.
    + replace (Z.of_nat (run span.WS this) - 1 =? len this - 1) with false;
        [reflexivity |].
      symmetry. apply Z.eqb_neq. unfold len. lia.
Qed.

(** C6, as the code has it. A span whose first and last bytes are not the
    bracket pair classifies as Undefined when it is shorter than two bytes
    or all whitespace, and as Text otherwise; and the tokenizer does not
    append a span that classifies as Undefined. *)
Theorem C6_kind_of_unbracketed_span :
  forall this : Text,
    is_byte this 0 "<" && is_byte this (len this - 1) ">" = false ->
    Text_KindOf this
    = (if (len this <? 2) || forallb span.WS this then KindUndefined
       else KindText)
    /\ (forall (forward : Text -> Z -> Z -> Z) (acc : TextList) (content : Text)
               (x z : Z),
           x < forward content x z ->
           slice content x (forward content x z + 1) = Val this ->
           TextList_Read_step forward acc content x z
           = Val (if (len this <? 2) || forallb span.WS this then acc
                  else acc ++ [this],
                  forward content x z + 1)).
Proof.
  intros this Hb.
  assert (Hk : Text_KindOf this
               = (if (len this <? 2) || forallb span.WS this then KindUndefined
                  else KindText)).
  { destruct (len this <? 2) eqn:E.
    - apply Z.ltb_lt in E. cbn [orb]. apply KindOf_short. exact E.
    - apply Z.ltb_ge in E. cbn [orb]. apply KindOf_unbracketed; assumption. }
  split; [exact Hk |].
  intros forward acc content x z Hlt Hs. unfold TextList_Read_step.
  apply Z.ltb_lt in Hlt. rewrite Hlt, Hs. cbn [bind]. rewrite Hk.
  destruct ((len this <? 2) || forallb span.WS this); reflexivity.
Qed.

Lemma C6_kind_witness :
  Text_KindOf (bytes "a b") = KindText
  /\ Text_KindOf (bytes "   ") = KindUndefined.
Proof.
  split.
  - exact (proj1 (C6_kind_of_unbracketed_span (bytes "a b") eq_refl)).
  - exact (proj1 (C6_kind_of_unbracketed_span (bytes "   ") eq_refl)).
Defined.

(** C6 fails as stated: the span [a] is not empty, holds a byte that is not
    whitespace and has no bracket pair, and classifies as Undefined. *)
Lemma C6_single_byte_counterexample :
  Text_KindOf (bytes "a") = KindUndefined
  /\ KindUndefined <> KindText
  /\ forallb span.WS (bytes "a") = false
  /\ is_byte (bytes "a") 0 "<" && is_byte (bytes "a") (len (bytes "a") - 1) ">"
     = false.
Proof.
  repeat split; try reflexivity. discriminate.
Qed.

(** ** Attribute.Read *)

Lemma XI_not_dquote (b : byte) : span.XI b = true -> byte_eqb dquote b = false.
Proof.
  intros H. destruct (byte_eqb dquote b) eqn:E; [| reflexivity].
  unfold byte_eqb in E. apply Ascii.eqb_eq in E. subst b.
  vm_compute in H. discriminate.
Qed.

Lemma byte_at_app_right (a b : Text) : byte_at (a ++ b) (len a) = nth_error b 0.
Proof.
  unfold byte_at. pose proof (len_nonneg a) as Hl.
  destruct (len a <? 0) eqn:E; [apply Z.ltb_lt in E; lia |].
  rewrite to_nat_len, nth_error_app2 by lia. rewrite Nat.sub_diag. reflexivity.
Qed.

Lemma len_app (a b : Text) : len (a ++ b) = len a + len b.
Proof. unfold len. rewrite length_app. lia. Qed.

Lemma len_cons (c : byte) (t : Text) : len (c :: t) = 1 + len t.
Proof. unfold len. cbn [List.length]. lia. Qed.

Lemma slice_prefix (a b : Text) : slice (a ++ b) 0 (len a) = Val a.
Proof.
  unfold slice. pose proof (len_nonneg a) as Ha. pose proof (len_nonneg b) as Hb.
  rewrite len_app.
  destruct (0 <? 0) eqn:E0; [discriminate |].
  destruct (len a <? 0) eqn:E1; [apply Z.ltb_lt in E1; lia |].
  destruct (len a + len b <? len a) eqn:E2; [apply Z.ltb_lt in E2; lia |].
  cbn [orb Z.to_nat skipn]. rewrite Z.sub_0_r, to_nat_len.
  rewrite firstn_app, Nat.sub_diag, firstn_all. cbn [firstn].
  rewrite app_nil_r. reflexivity.
Qed.

Lemma index_app_right (a : Text) (c : byte) (b : Text) (k : Z) :
  k = len a -> index (a ++ c :: b) k = Val c.
Proof.
  intros ->. unfold index. pose proof (len_nonneg a) as Ha.
  pose proof (len_nonneg b) as Hb. rewrite len_app, len_cons.
  destruct (len a <? 0) eqn:E0; [apply Z.ltb_lt in E0; lia |].
  destruct (len a + (1 + len b) <=? len a) eqn:E1; [apply Z.leb_le in E1; lia |].
  cbn [orb]. rewrite to_nat_len, nth_error_app2 by lia.
  rewrite Nat.sub_diag. reflexivity.
Qed.

(** The attribute span [name=b...]: the name is stored when the identifier
    run has two bytes or more, and of the remainder only the first byte
    reaches the value. *)
Lemma Attribute_Read_name_value (this : Attribute) (url : string)
      (name : Text) (b : byte) (rest : Text) :
  forallb span.XI name = true ->
  2 <= len name ->
  Attribute_Read this url (name ++ "="%char :: b :: rest)
  = Val (mkAttribute (name ++ "="%char :: b :: rest) name (string_of_byte b),
         None).
Proof.
  intros Hxi H2. set (content := name ++ "="%char :: b :: rest).
  unfold Attribute_Read.
  pose proof (len_nonneg name) as Hn. pose proof (len_nonneg rest) as Hr.
  assert (Hlen : len content = len name + (1 + (1 + len rest))).
  { subst content. rewrite len_app, !len_cons. reflexivity. }
  destruct (0 <? len content) eqn:E0; [| apply Z.ltb_ge in E0; lia].
  assert (Hq : is_byte content 0 dquote = false).
  { subst content. destruct name as [| c name]; [unfold len in H2; cbn in H2; lia |].
    cbn [forallb] in Hxi. apply andb_prop in Hxi. destruct Hxi as [Hc _].
    unfold is_byte, byte_at. cbn. apply XI_not_dquote. exact Hc. }
  rewrite Hq. rewrite Class_whole.
  assert (Hrun : run span.XI content = List.length name).
  { subst content. apply run_prefix; [exact Hxi | reflexivity]. }
  rewrite Hrun.
  destruct (Nat.eqb (List.length name) 0) eqn:En;
    [apply Nat.eqb_eq in En; unfold len in H2; lia |].
  fold (len name).
  destruct (0 <? len name - 1) eqn:E1; [| apply Z.ltb_ge in E1; lia].
  replace (len name - 1 + 1) with (len name) by lia.
  destruct (len name <? len content) eqn:E2; [| apply Z.ltb_ge in E2; lia].
  assert (He : is_byte content (len name) "=" = true).
  { unfold is_byte. subst content. rewrite byte_at_app_right. reflexivity. }
  rewrite He. subst content. rewrite slice_prefix. cbn [bind].
  replace (name ++ "="%char :: b :: rest)
    with ((name ++ ["="%char]) ++ b :: rest)
    by (rewrite <- app_assoc; reflexivity).
  rewrite (index_app_right (name ++ ["="%char]) b rest (len name + 1)).
  - reflexivity.
  - rewrite len_app. reflexivity.
Qed.

(** A span that starts and ends with the double quote is stored whole as
    the value. *)
Lemma Attribute_Read_quoted (this : Attribute) (url : string) (inner : Text) :
  Attribute_Read this url (dquote :: inner ++ [dquote])
  = Val (mkAttribute (dquote :: inner ++ [dquote]) (a_name this)
                     (dquote :: inner ++ [dquote]), None).
Proof.
  set (content := dquote :: inner ++ [dquote]). unfold Attribute_Read.
  assert (Hlen : len content = 1 + (len inner + 1)).
  { subst content. rewrite len_cons, len_app. reflexivity. }
  pose proof (len_nonneg inner) as Hi.
  destruct (0 <? len content) eqn:E0; [| apply Z.ltb_ge in E0; lia].
  assert (H0 : is_byte content 0 dquote = true) by reflexivity.
  assert (H1 : is_byte content (len content - 1) dquote = true).
  { unfold is_byte. subst content.
    replace (dquote :: inner ++ [dquote]) with ((dquote :: inner) ++ [dquote])
      by reflexivity.
    replace (len ((dquote :: inner) ++ [dquote]) - 1) with (len (dquote :: inner))
      by (rewrite len_app; unfold len; cbn [List.length]; lia).
    rewrite byte_at_app_right. reflexivity. }
  rewrite H0, H1. reflexivity.
Qed.

(** C5, as the code has it. For an attribute span [name=value] whose
    identifier run before [=] has two bytes or more and whose value is not
    empty, [Attribute.Read] returns a nil error and stores the identifier
    run as the name; quotes are not stripped, and a span that starts and
    ends with the double quote is stored whole, quotes included, as the
    value. *)
Theorem C5_attribute_name_and_quotes :
  forall (this : Attribute) (url : string) (name value inner : Text),
    forallb span.XI name = true ->
    2 <= len name ->
    value <> [] ->
    (exists at_ : Attribute,
        Attribute_Read this url (name ++ "="%char :: value) = Val (at_, None)
        /\ a_name at_ = name
        /\ a_content at_ = name ++ "="%char :: value)
    /\ Attribute_Read this url (dquote :: inner ++ [dquote])
       = Val (mkAttribute (dquote :: inner ++ [dquote]) (a_name this)
                          (dquote :: inner ++ [dquote]), None).
Proof.
  intros this url name value inner Hxi H2 Hv. split.
  - destruct value as [| b rest]; [contradiction |].
    eexists. split.
    + apply Attribute_Read_name_value; assumption.
    + split; reflexivity.
  - apply Attribute_Read_quoted.
Qed.

Lemma C5_attribute_witness :
  exists at_ : Attribute,
    Attribute_Read Attribute_zero "u" (bytes "id=main") = Val (at_, None)
    /\ a_name at_ = bytes "id".
Proof.
  destruct (C5_attribute_name_and_quotes Attribute_zero "u" (bytes "id")
              (bytes "main") [])
    as [(at_ & Hr & Hn & _) _].
  - reflexivity.
  - vm_compute. discriminate.
  - discriminate.
  - exists at_. split; assumption.
Defined.

(** C5 fails as stated: of the value [12] of [ab=12] only the byte [1] is
    stored; of the quoted value of [ab="12"] only the opening quote is
    stored; and the quotes of the span ["12"] stay in the stored value. *)
Lemma C5_attribute_value_counterexample :
  Attribute_Read Attribute_zero "u" (bytes "ab=12")
  = Val (mkAttribute (bytes "ab=12") (bytes "ab") (bytes "1"), None)
  /\ Attribute_Read Attribute_zero "u"
                    (bytes "ab=" ++ [dquote] ++ bytes "12" ++ [dquote])
     = Val (mkAttribute (bytes "ab=" ++ [dquote] ++ bytes "12" ++ [dquote])
                        (bytes "ab") [dquote], None)
  /\ Attribute_Read Attribute_zero "u" ([dquote] ++ bytes "12" ++ [dquote])
     = Val (mkAttribute ([dquote] ++ bytes "12" ++ [dquote]) []
                        ([dquote] ++ bytes "12" ++ [dquote]), None)
  /\ bytes "1" <> bytes "12"
  /\ [dquote] <> bytes "12"
  /\ [dquote] ++ bytes "12" ++ [dquote] <> bytes "12".
Proof.
  repeat split; try (vm_compute; reflexivity); discriminate.
Qed.

(** ** Element.Read keeps the content and extends the children *)

Lemma keeps_refl (this : Element) : keeps this this.
Proof. repeat split. Qed.

Lemma keeps_trans (a b c : Element) : keeps a b -> keeps b c -> keeps a c.
Proof.
  unfold keeps. intros (H1 & H2 & H3) (H4 & H5 & H6).
  repeat split; congruence.
Qed.

Lemma Element_Read_at_keeps (this : Element) (url : string) (x y : Z) (r : flow) :
  Element_Read_at this url x y = Val r -> flow_keeps this r.
Proof.
  unfold Element_Read_at. intros H.
  destruct (slice (e_content this) x (y + 1)) as [atx | |]; cbn [bind] in H;
    try discriminate.
  destruct (Attribute_Read Attribute_zero url atx) as [[at_ [er |]] | |];
    cbn [bind] in H; try discriminate; apply Val_inj in H; subst r;
    repeat split.
Qed.

Lemma Element_Read_attribute_keeps (this : Element) (url : string) (x z : Z)
      (r : flow) :
  Element_Read_attribute this url x z = Val r -> flow_keeps this r.
Proof.
  unfold Element_Read_attribute. intros H.
  repeat match type of H with
         | (if ?c then _ else _) = _ => destruct c
         | bind ?m _ = _ => destruct m; cbn [bind] in H; try discriminate
         | Element_Read_at _ _ _ _ = _ => apply Element_Read_at_keeps in H; exact H
         | Val _ = Val _ => apply Val_inj in H; subst r; apply keeps_refl
         end.
Qed.

Lemma Element_Read_attributes_keeps (url : string) (z : Z) :
  forall (fuel : nat) (this : Element) (x : Z) (r : flow),
    Element_Read_attributes fuel this url x z = Val r -> flow_keeps this r.
Proof.
  induction fuel as [| fuel IH]; intros this x r H;
    cbn [Element_Read_attributes] in H.
  - destruct (x <? z); [discriminate |].
    apply Val_inj in H. subst r. apply keeps_refl.
  - destruct (x <? z).
    + destruct (Element_Read_attribute this url x z) as [r1 | |] eqn:E;
        cbn [bind] in H; try discriminate.
      apply Element_Read_attribute_keeps in E.
      destruct r1 as [this1 x1 | this1 x1 | this1 er].
      * apply IH in H. destruct r; cbn [flow_keeps] in *;
          eapply keeps_trans; eassumption.
      * apply Val_inj in H. subst r. exact E.
      * apply Val_inj in H. subst r. exact E.
    + apply Val_inj in H. subst r. apply keeps_refl.
Qed.

Lemma Element_Read_head_keeps (this : Element) (url : string) (kind : Kind)
      (r : flow) :
  Element_Read_head this url kind = Val r -> flow_keeps this r.
Proof.
  unfold Element_Read_head. intros H.
  destruct (Text_identifier (e_content this) (name_offset kind)) as [name | |];
    cbn [bind] in H; try discriminate.
  assert (K : keeps this (Element_with_name this name)) by (repeat split).
  destruct (has_attributes kind).
  - apply Element_Read_attributes_keeps in H.
    destruct r; cbn [flow_keeps] in *; eapply keeps_trans; eassumption.
  - apply Val_inj in H. subst r. exact K.
Qed.

Section Siblings.

Variable Read : string -> Text -> go (Element * option error).
Variable url : string.

(** The loop over the tokens keeps the parent and the content of [this]
    and appends Elements to its children. *)
Lemma siblings_extend :
  forall (list : TextList) (stack : Z) (body : Text) (this : Element)
         (s : siblings) (er : option error),
    Element_Read_siblings Read url list stack body this = Val (s, er) ->
    e_parent (s_this s) = e_parent this
    /\ e_content (s_this s) = e_content this
    /\ exists new : Datatypes.list Element,
        e_children (s_this s) = e_children this ++ map NodeElement new.
Proof.
  induction list as [| text list IH]; intros stack body this s er H;
    cbn [Element_Read_siblings] in H.
  - apply Val_inj in H. injection H as <- _. cbn [s_this].
    repeat split. exists []. cbn [map]. rewrite app_nil_r. reflexivity.
  - assert (Happ : forall el st bd,
               Element_Read_siblings Read url list st bd
                 (Element_append this (NodeElement el)) = Val (s, er) ->
               e_parent (s_this s) = e_parent this
               /\ e_content (s_this s) = e_content this
               /\ exists new : Datatypes.list Element,
                   e_children (s_this s) = e_children this ++ map NodeElement new).
    { intros el st bd Hr. apply IH in Hr. destruct Hr as (P & C & new & N).
      cbn [Element_append e_parent e_content e_children] in P, C, N.
      repeat split; try assumption.
      exists (el :: new). rewrite N, <- app_assoc. reflexivity. }
    assert (Hend : forall st bd er',
               Val (mkSiblings this st bd, er') = Val (s, er) ->
               e_parent (s_this s) = e_parent this
               /\ e_content (s_this s) = e_content this
               /\ exists new : Datatypes.list Element,
                   e_children (s_this s) = e_children this ++ map NodeElement new).
    { intros st bd er' Hr. apply Val_inj in Hr. injection Hr as <- _.
      cbn [s_this].
      repeat split. exists []. cbn [map]. rewrite app_nil_r. reflexivity. }
    destruct (Kind_eqb (Text_KindOf text) KindOpen); [apply (IH _ _ _ _ _ H) |].
    destruct (Kind_eqb (Text_KindOf text) KindSolitary).
    { destruct (0 =? stack); [| apply (IH _ _ _ _ _ H)].
      destruct (Read url text) as [[el [e |]] | |]; cbn [bind] in H;
        try discriminate.
      - eapply Hend. exact H.
      - eapply Happ. exact H. }
    destruct (Kind_eqb (Text_KindOf text) KindClose).
    { destruct (0 =? stack - 1); [| apply (IH _ _ _ _ _ H)].
      destruct (Read url (span.Cat body text)) as [[el [e |]] | |];
        cbn [bind] in H; try discriminate.
      - eapply Hend. exact H.
      - eapply Happ. exact H. }
    destruct (Kind_eqb (Text_KindOf text) KindText
              || Kind_eqb (Text_KindOf text) KindData);
      apply (IH _ _ _ _ _ H).
Qed.

(** When the loop runs to the end, [stack] has moved by the depth counter of
    the tokens. *)
Lemma siblings_stack :
  forall (list : TextList) (stack : Z) (body : Text) (this : Element)
         (s : siblings),
    Element_Read_siblings Read url list stack body this = Val (s, None) ->
    s_stack s = stack + depth_counter list.
Proof.
  induction list as [| text list IH]; intros stack body this s H;
    cbn [Element_Read_siblings depth_counter] in *.
  - apply Val_inj in H. injection H as <-. cbn [s_stack]. lia.
  - destruct (Kind_eqb (Text_KindOf text) KindOpen) eqn:EO.
    { apply IH in H. lia. }
    destruct (Kind_eqb (Text_KindOf text) KindSolitary) eqn:ES.
    { assert (EC : Kind_eqb (Text_KindOf text) KindClose = false).
      { unfold Kind_eqb in *. apply Z.eqb_eq in ES. rewrite ES. reflexivity. }
      rewrite EC. destruct (0 =? stack).
      - destruct (Read url text) as [[el [e |]] | |]; cbn [bind] in H;
          try discriminate.
        apply IH in H. lia.
      - apply IH in H. lia. }
    destruct (Kind_eqb (Text_KindOf text) KindClose) eqn:EC.
    { destruct (0 =? stack - 1).
      - destruct (Read url (span.Cat body text)) as [[el [e |]] | |];
          cbn [bind] in H; try discriminate.
        apply IH in H. lia.
      - apply IH in H. lia. }
    destruct (Kind_eqb (Text_KindOf text) KindText
              || Kind_eqb (Text_KindOf text) KindData);
      apply IH in H; lia.
Qed.

Hypothesis Read_content : reads_content Read.


End Siblings.

Lemma Element_Read_fuel_keeps (fuel : nat) (this : Element) (url : string)
      (content : Text) (e : Element) (er : option error) :
  Element_Read_fuel fuel this url content = Val (e, er) ->
  e_parent e = e_parent this
  /\ e_content e = content
  /\ exists new : list Element,
      e_children e = e_children this ++ map NodeElement new.
Proof.
  destruct fuel as [| fuel]; cbn [Element_Read_fuel]; [discriminate |].
  intros H.
  destruct (Element_Read_head (Element_with_content this content) url
              (Element_KindOf (Element_with_content this content)))
    as [r | |] eqn:Eh; cbn [bind] in H; try discriminate.
  apply Element_Read_head_keeps in Eh.
  assert (Hnone : forall this1 : Element,
             keeps (Element_with_content this content) this1 ->
             e_parent this1 = e_parent this
             /\ e_content this1 = content
             /\ exists new : list Element,
                 e_children this1 = e_children this ++ map NodeElement new).
  { intros this1 (P & C & N). cbn [Element_with_content e_parent e_content
                                    e_children] in P, C, N.
    repeat split; try assumption. exists []. cbn [map].
    rewrite app_nil_r. exact N. }
  assert (Hcont : forall (this1 : Element) (x : Z),
             keeps (Element_with_content this content) this1 ->
             Element_Read_content (Element_Read_fuel fuel Element_zero) this1 url
               (Element_KindOf (Element_with_content this content)) content x
             = Val (e, er) ->
             e_parent e = e_parent this
             /\ e_content e = content
             /\ exists new : list Element,
                 e_children e = e_children this ++ map NodeElement new).
  { intros this1 x K Hc. unfold Element_Read_content in Hc.
    destruct (Kind_eqb KindOpen
                (Element_KindOf (Element_with_content this content))).
    - destruct (Element_Read_body content x (len content)) as [[text |] | |];
        cbn [bind] in Hc; try discriminate.
      + destruct (TextList_Read [] url text) as [[list [e0 |]] | |];
          cbn [bind] in Hc; try discriminate.
        * apply Val_inj in Hc. injection Hc as <- _. apply Hnone. exact K.
        * destruct (Element_Read_siblings (Element_Read_fuel fuel Element_zero)
                      url list 0 [] this1) as [[s o] | |] eqn:Es;
            cbn [bind fst snd] in Hc; try discriminate.
          apply Val_inj in Hc. injection Hc as <- _.
          apply siblings_extend in Es. destruct Es as (P & C & new & N).
          destruct (Hnone this1 K) as (P1 & C1 & new1 & N1).
          repeat split; try congruence.
          exists (new1 ++ new). rewrite N, N1, map_app, app_assoc. reflexivity.
      + apply Val_inj in Hc. injection Hc as <- _. apply Hnone. exact K.
    - apply Val_inj in Hc. injection Hc as <- _. apply Hnone. exact K. }
  destruct r as [this1 x | this1 x | this1 er1]; cbn [flow_keeps] in Eh.
  - eapply Hcont; eassumption.
  - eapply Hcont; eassumption.
  - apply Val_inj in H. injection H as <- _. apply Hnone. exact Eh.
Qed.

Lemma Element_Read_fuel_reads_content (fuel : nat) (this : Element) :
  reads_content (Element_Read_fuel fuel this).
Proof.
  intros u c el er H. apply Element_Read_fuel_keeps in H.
  destruct H as (_ & C & _). exact C.
Qed.

Lemma KindOf_Open_not_empty (this : Element) (content : Text) :
  Text_KindOf content = KindOpen ->
  Element_KindOf (Element_with_content this content) = KindOpen.
Proof.
  intros H. unfold Element_KindOf. cbn [Element_with_content e_content].
  destruct (len content =? 0) eqn:E; [| exact H].
  apply Z.eqb_eq in E. destruct content; [discriminate H |].
  unfold len in E. cbn [List.length] in E. lia.
Qed.

(** ** The children of an Open element *)




(** ** Bytes of slices and of windows *)

Lemma index_byte_at (t : Text) (i : Z) (b : byte) :
  index t i = Val b -> byte_at t i = Some b /\ 0 <= i < len t.
Proof.
  unfold index, byte_at. intros H.
  destruct (i <? 0) eqn:E0; cbn [orb] in H; [discriminate |].
  destruct (len t <=? i) eqn:E1; [discriminate |].
  apply Z.ltb_ge in E0. apply Z.leb_gt in E1.
  destruct (nth_error t (Z.to_nat i)); [| discriminate].
  apply Val_inj in H. subst. split; [reflexivity | lia].
Qed.

Lemma byte_at_Some (t : Text) (i : Z) (b : byte) :
  byte_at t i = Some b -> 0 <= i < len t.
Proof.
  unfold byte_at. intros H. destruct (i <? 0) eqn:E; [discriminate |].
  apply Z.ltb_ge in E.
  assert (nth_error t (Z.to_nat i) <> None) by congruence.
  apply nth_error_Some in H0. unfold len. lia.
Qed.

Lemma slice_Val (t : Text) (lo hi : Z) (r : Text) :
  slice t lo hi = Val r ->
  0 <= lo <= hi /\ hi <= len t
  /\ r = firstn (Z.to_nat (hi - lo)) (skipn (Z.to_nat lo) t).
Proof.
  unfold slice. intros H.
  destruct (lo <? 0) eqn:E0; cbn [orb] in H; [discriminate |].
  destruct (hi <? lo) eqn:E1; cbn [orb] in H; [discriminate |].
  destruct (len t <? hi) eqn:E2; [discriminate |].
  apply Z.ltb_ge in E0, E1, E2. apply Val_inj in H. subst r.
  repeat split; try lia.
Qed.

Lemma slice_len (t : Text) (lo hi : Z) (r : Text) :
  slice t lo hi = Val r -> len r = hi - lo.
Proof.
  intros H. apply slice_Val in H. destruct H as (H1 & H2 & ->).
  unfold len in *. rewrite length_firstn, length_skipn. lia.
Qed.

Lemma slice_byte_at (t : Text) (lo hi : Z) (r : Text) (k : Z) :
  slice t lo hi = Val r -> 0 <= k < hi - lo ->
  byte_at r k = byte_at t (lo + k).
Proof.
  intros H Hk. apply slice_Val in H. destruct H as (H1 & H2 & ->).
  unfold byte_at.
  destruct (k <? 0) eqn:E0; [apply Z.ltb_lt in E0; lia |].
  destruct (lo + k <? 0) eqn:E1; [apply Z.ltb_lt in E1; lia |].
  rewrite nth_error_firstn, nth_error_skipn.
  destruct (Nat.ltb (Z.to_nat k) (Z.to_nat (hi - lo))) eqn:E2.
  - f_equal. lia.
  - apply Nat.ltb_ge in E2. lia.
Qed.

Lemma byte_at_0 (t : Text) (b : byte) :
  byte_at t 0 = Some b -> exists rest, t = b :: rest.
Proof.
  unfold byte_at. cbn. destruct t as [| c rest]; [discriminate |].
  intros H. injection H as ->. exists rest. reflexivity.
Qed.

Lemma byte_eqb_true (a b : byte) : byte_eqb a b = true -> a = b.
Proof. unfold byte_eqb. apply Ascii.eqb_eq. Qed.

(** ** Attribute.Read on the spans that Element.Read cuts *)

(** A span between two double quotes is read without error. *)
Lemma Attribute_Read_between_quotes (this : Attribute) (url : string)
      (content : Text) :
  is_byte content 0 dquote = true ->
  is_byte content (len content - 1) dquote = true ->
  exists at_, Attribute_Read this url content = Val (at_, None).
Proof.
  intros H0 H1. unfold Attribute_Read.
  assert (Hl : 0 < len content).
  { unfold is_byte in H0. destruct (byte_at content 0) as [b |] eqn:E;
      [| discriminate].
    apply byte_at_Some in E. lia. }
  apply Z.ltb_lt in Hl. rewrite Hl, H0, H1. cbn [andb].
  eexists. reflexivity.
Qed.

(** A span whose first byte is neither the double quote nor an identifier
    byte is read without error. *)
Lemma Attribute_Read_no_identifier (this : Attribute) (url : string)
      (c : byte) (rest : Text) :
  byte_eqb dquote c = false -> span.XI c = false ->
  exists at_, Attribute_Read this url (c :: rest) = Val (at_, None).
Proof.
  intros Hq Hx. unfold Attribute_Read.
  pose proof (len_nonneg rest) as Hr.
  assert (Hl : (0 <? len (c :: rest)) = true).
  { apply Z.ltb_lt. rewrite len_cons. lia. }
  rewrite Hl.
  assert (H0 : is_byte (c :: rest) 0 dquote = false) by exact Hq.
  rewrite H0, Class_whole. cbn [run]. rewrite Hx. cbn [Nat.eqb].
  cbn [Z.ltb Z.compare]. eexists. reflexivity.
Qed.

(** A span of identifier bytes is read without error. *)
Lemma Attribute_Read_identifier (this : Attribute) (url : string)
      (content : Text) :
  content <> [] -> forallb span.XI content = true ->
  exists at_, Attribute_Read this url content = Val (at_, None).
Proof.
  intros Hne Hxi. unfold Attribute_Read.
  destruct content as [| c rest]; [contradiction |].
  pose proof (len_nonneg rest) as Hr.
  assert (Hl : (0 <? len (c :: rest)) = true).
  { apply Z.ltb_lt. rewrite len_cons. lia. }
  rewrite Hl.
  assert (H0 : is_byte (c :: rest) 0 dquote = false).
  { cbn [forallb] in Hxi. apply andb_prop in Hxi. destruct Hxi as [Hc _].
    apply XI_not_dquote. exact Hc. }
  rewrite H0, Class_whole.
  apply run_all in Hxi. rewrite Hxi. cbn [List.length Nat.eqb].
  fold (len (c :: rest)).
  replace (Z.of_nat (S (List.length rest))) with (len (c :: rest))
    by reflexivity.
  destruct (0 <? len (c :: rest) - 1).
  - replace (len (c :: rest) - 1 + 1 <? len (c :: rest)) with false.
    + eexists. reflexivity.
    + symmetry. apply Z.ltb_ge. lia.
  - eexists. reflexivity.
Qed.

(** ** What the span operators find *)

Lemma find_Some_byte (ch : byte) :
  forall (rest : Text) (ofs i : Z),
    prior.find rest ofs ch = Some i ->
    exists c, nth_error rest (Z.to_nat (i - ofs)) = Some c
              /\ byte_eqb ch c = true.
Proof.
  induction rest as [| c rest IH]; intros ofs i H; cbn [prior.find] in H.
  - discriminate.
  - destruct (byte_eqb ch c) eqn:E.
    + injection H as <-. exists c. rewrite Z.sub_diag. split; [reflexivity | exact E].
    + pose proof (find_bounds ch rest (ofs + 1) i H) as Hb.
      apply IH in H. destruct H as (c' & Hn & Hc). exists c'.
      split; [| exact Hc].
      replace (Z.to_nat (i - ofs)) with (S (Z.to_nat (i - (ofs + 1)))) by lia.
      exact Hn.
Qed.

Lemma window_nth (src : Text) (ofs z : Z) (k : nat) (c : byte) :
  nth_error (prior.window src ofs z) k = Some c ->
  nth_error src (Z.to_nat ofs + k) = Some c.
Proof.
  unfold prior.window. rewrite nth_error_firstn.
  destruct (Nat.ltb k (Z.to_nat (z - ofs))); [| discriminate].
  rewrite nth_error_skipn. intros H. exact H.
Qed.

(** On an [open] byte [span.Forward], when positive, is at [ofs] or at a
    later [close] byte. *)
Lemma Forward_open (src : Text) (ofs z : Z) (open close b : byte) :
  byte_at src ofs = Some b -> byte_eqb open b = true ->
  0 < span.Forward src ofs z open close ->
  ofs <= span.Forward src ofs z open close
  /\ (span.Forward src ofs z open close = ofs
      \/ is_byte src (span.Forward src ofs z open close) close = true).
Proof.
  intros Hb Ho. unfold span.Forward.
  destruct ((0 <=? ofs) && (ofs <? z - 1)) eqn:G; [| lia].
  apply andb_prop in G. destruct G as [G0 G1]. apply Z.leb_le in G0.
  rewrite Hb, Ho.
  destruct (prior.find (prior.window src (ofs + 1) z) (ofs + 1) close)
    as [i |] eqn:E.
  - intros _. pose proof (find_bounds _ _ _ _ E) as Hi.
    split; [lia |]. right.
    apply find_Some_byte in E. destruct E as (c & Hn & Hc).
    apply window_nth in Hn. unfold is_byte, byte_at.
    destruct (i <? 0) eqn:E0; [apply Z.ltb_lt in E0; lia |].
    replace (Z.to_nat i) with (Z.to_nat (ofs + 1) + Z.to_nat (i - (ofs + 1)))%nat
      by lia.
    rewrite Hn. exact Hc.
  - intros _. split; [lia | left; reflexivity].
Qed.

Lemma run_nth (clop : byte -> bool) :
  forall (t : Text) (k : nat),
    (k < run clop t)%nat ->
    exists c, nth_error t k = Some c /\ clop c = true.
Proof.
  induction t as [| ch t IH]; intros k Hk; cbn [run] in Hk.
  - lia.
  - destruct (clop ch) eqn:E; [| lia].
    destruct k as [| k].
    + exists ch. split; [reflexivity | exact E].
    + apply IH. lia.
Qed.

Lemma run_firstn (clop : byte -> bool) (t : Text) :
  forallb clop (firstn (run clop t) t) = true.
Proof.
  induction t as [| ch t IH]; cbn [run]; [reflexivity |].
  destruct (clop ch) eqn:E; [| reflexivity].
  cbn [firstn forallb]. rewrite E, IH. reflexivity.
Qed.

(** A positive [span.Class] is the index of the last byte of a run that is
    not empty. *)
Lemma Class_positive (src : Text) (ofs z : Z) (clop : byte -> bool) :
  0 < span.Class src ofs z clop ->
  (1 <= run clop (prior.window src ofs z))%nat
  /\ span.Class src ofs z clop
     = ofs + Z.of_nat (run clop (prior.window src ofs z)) - 1.
Proof.
  unfold span.Class, prior.class. rewrite class_loop_run.
  destruct (Nat.eqb (run clop (prior.window src ofs z)) 0) eqn:E.
  - lia.
  - apply Nat.eqb_neq in E. lia.
Qed.

Lemma Class_last_in_class (src : Text) (ofs z : Z) (clop : byte -> bool)
      (c : byte) :
  0 <= ofs -> 0 < span.Class src ofs z clop ->
  index src (span.Class src ofs z clop) = Val c -> clop c = true.
Proof.
  intros H0 Hp Hi. destruct (Class_positive src ofs z clop Hp) as [Hr Hy].
  rewrite Hy in Hi. apply index_byte_at in Hi. destruct Hi as [Hb _].
  destruct (run_nth clop (prior.window src ofs z)
                    (run clop (prior.window src ofs z) - 1)) as (c' & Hn & Hc);
    [lia |].
  apply window_nth in Hn. unfold byte_at in Hb.
  destruct (ofs + Z.of_nat (run clop (prior.window src ofs z)) - 1 <? 0) eqn:E;
    [apply Z.ltb_lt in E; lia |].
  replace (Z.to_nat (ofs + Z.of_nat (run clop (prior.window src ofs z)) - 1))
    with (Z.to_nat ofs + (run clop (prior.window src ofs z) - 1))%nat in Hb
    by lia.
  congruence.
Qed.

Lemma Class_slice_in_class (src : Text) (ofs z : Z) (clop : byte -> bool)
      (atx : Text) :
  0 <= ofs -> 0 < span.Class src ofs z clop ->
  slice src ofs (span.Class src ofs z clop + 1) = Val atx ->
  atx <> [] /\ forallb clop atx = true.
Proof.
  intros H0 Hp Hs. destruct (Class_positive src ofs z clop Hp) as [Hr Hy].
  pose proof (slice_len _ _ _ _ Hs) as Hl.
  apply slice_Val in Hs. destruct Hs as (_ & _ & Hs). rewrite Hy in Hs, Hl.
  replace (Z.to_nat (ofs + Z.of_nat (run clop (prior.window src ofs z)) - 1
                     + 1 - ofs))
    with (run clop (prior.window src ofs z)) in Hs by lia.
  split.
  - intros ->. unfold len in Hl. cbn [List.length] in Hl. lia.
  - pose proof (run_firstn clop (prior.window src ofs z)) as Hf.
    pose proof (run_le clop (prior.window src ofs z)) as Hle.
    unfold prior.window in Hf at 2. rewrite firstn_firstn in Hf.
    unfold prior.window in Hle at 2. rewrite length_firstn in Hle.
    rewrite Nat.min_l in Hf by lia. rewrite Hs. exact Hf.
Qed.

(** ** The attribute loop moves forward and returns no error *)

Lemma Attribute_Read_empty (this : Attribute) (url : string) :
  Attribute_Read this url []
  = Val (mkAttribute [] (a_name this) (a_value this), Some AttributeEmpty).
Proof. reflexivity. Qed.

Lemma Element_Read_at_next (this : Element) (url : string) (x y : Z) (r : flow) :
  (forall atx, slice (e_content this) x (y + 1) = Val atx ->
               exists at_, Attribute_Read Attribute_zero url atx = Val (at_, None)) ->
  Element_Read_at this url x y = Val r ->
  exists this', r = Next this' (y + 1)
                /\ x < y + 1 <= len (e_content this).
Proof.
  intros Hat H. unfold Element_Read_at in H.
  destruct (slice (e_content this) x (y + 1)) as [atx | |] eqn:Es;
    cbn [bind] in H; try discriminate.
  destruct (Hat atx eq_refl) as [at_ Ha]. rewrite Ha in H. cbn [bind] in H.
  apply Val_inj in H. subst r. eexists. split; [reflexivity |].
  pose proof (slice_len _ _ _ _ Es) as Hl. apply slice_Val in Es.
  destruct Es as (H1 & H2 & _).
  destruct atx as [| c atx].
  - rewrite Attribute_Read_empty in Ha. discriminate.
  - pose proof (len_nonneg atx). rewrite len_cons in Hl. lia.
Qed.

Lemma XI_not_equals (c : byte) : span.XI c = true -> byte_eqb "=" c = false.
Proof.
  intros H. destruct (byte_eqb "=" c) eqn:E; [| reflexivity].
  apply byte_eqb_true in E. subst c. vm_compute in H. discriminate.
Qed.

(** The span from a quote at [x] to [span.Forward] is read without error:
    it lies between two double quotes, or starts with a single quote. *)
Lemma quoted_span_is_read (content : Text) (url : string) (x z : Z)
      (q cx : byte) (atx : Text) :
  q = dquote \/ q = squote ->
  index content x = Val cx -> byte_eqb q cx = true ->
  0 < span.Forward content x z q q ->
  slice content x (span.Forward content x z q q + 1) = Val atx ->
  exists at_, Attribute_Read Attribute_zero url atx = Val (at_, None).
Proof.
  intros Hq Hi Hc Hp Hs. apply index_byte_at in Hi. destruct Hi as [Hb Hx].
  destruct (Forward_open content x z q q cx Hb Hc Hp) as [Hle Hend].
  pose proof (slice_len _ _ _ _ Hs) as Hl.
  assert (H0 : byte_at atx 0 = Some cx).
  { rewrite (slice_byte_at _ _ _ _ 0 Hs) by lia. rewrite Z.add_0_r. exact Hb. }
  apply byte_eqb_true in Hc. subst cx.
  destruct Hq as [-> | ->].
  - apply Attribute_Read_between_quotes.
    + unfold is_byte. rewrite H0. reflexivity.
    + unfold is_byte. rewrite Hl.
      rewrite (slice_byte_at _ _ _ _ _ Hs) by lia.
      replace (x + (span.Forward content x z dquote dquote + 1 - x - 1))
        with (span.Forward content x z dquote dquote) by lia.
      destruct Hend as [-> | He].
      * rewrite Hb. reflexivity.
      * exact He.
  - apply byte_at_0 in H0. destruct H0 as [rest ->].
    apply Attribute_Read_no_identifier; reflexivity.
Qed.

Lemma Element_Read_attribute_advances (this : Element) (url : string)
      (x : Z) (r : flow) :
  0 <= x ->
  Element_Read_attribute this url x (len (e_content this)) = Val r ->
  flow_advances x (len (e_content this)) r.
Proof.
  intros H0 H. unfold Element_Read_attribute in H.
  set (content := e_content this) in *. set (z := len content) in *.
  destruct (0 <? span.Class content x z span.WS) eqn:Ew;
    [| apply Val_inj in H; subst r; exact I].
  apply Z.ltb_lt in Ew.
  destruct (Class_positive content x z span.WS Ew) as [Hrw Hw].
  set (x1 := span.Class content x z span.WS + 1) in *.
  assert (Hx1 : x < x1) by (subst x1; lia).
  destruct (index content x1) as [cx | |] eqn:Ecx; cbn [bind] in H;
    try discriminate.
  assert (Quote : forall q,
             q = dquote \/ q = squote -> byte_eqb q cx = true ->
             (if 0 <? span.Forward content x1 z q q
              then Element_Read_at this url x1 (span.Forward content x1 z q q)
              else Val (Break this x1)) = Val r ->
             flow_advances x z r).
  { intros q Hq Hc Hr.
    destruct (0 <? span.Forward content x1 z q q) eqn:Ey;
      [| apply Val_inj in Hr; subst r; exact I].
    apply Z.ltb_lt in Ey.
    apply Element_Read_at_next in Hr.
    - destruct Hr as (this' & -> & Hb). cbn [flow_advances]. fold content z in Hb.
      lia.
    - intros atx Hs. fold content in Hs.
      eapply quoted_span_is_read; eassumption. }
  destruct (byte_eqb dquote cx) eqn:Edq.
  { apply (Quote dquote); [left; reflexivity | exact Edq | exact H]. }
  destruct (byte_eqb squote cx) eqn:Esq.
  { apply (Quote squote); [right; reflexivity | exact Esq | exact H]. }
  destruct (0 <? span.Class content x1 z span.XI) eqn:Ey;
    [| apply Val_inj in H; subst r; exact I].
  apply Z.ltb_lt in Ey.
  destruct (index content (span.Class content x1 z span.XI)) as [cy | |] eqn:Ecy;
    cbn [bind] in H; try discriminate.
  assert (Hxi : span.XI cy = true).
  { apply (Class_last_in_class content x1 z span.XI cy); [lia | exact Ey | exact Ecy]. }
  rewrite (XI_not_equals cy Hxi) in H.
  apply Element_Read_at_next in H.
  - destruct H as (this' & -> & Hb). cbn [flow_advances]. fold content z in Hb.
    lia.
  - intros atx Hs. fold content in Hs.
    destruct (Class_slice_in_class content x1 z span.XI atx) as [Hne Hall];
      [lia | exact Ey | exact Hs |].
    apply Attribute_Read_identifier; assumption.
Qed.

Lemma index_not_fuel (t : Text) (i : Z) : index t i <> Fuel.
Proof.
  unfold index. destruct ((i <? 0) || (len t <=? i)); [discriminate |].
  destruct (nth_error t (Z.to_nat i)); discriminate.
Qed.

Lemma Attribute_Read_not_fuel (this : Attribute) (url : string) (content : Text) :
  Attribute_Read this url content <> Fuel.
Proof.
  unfold Attribute_Read.
  repeat match goal with
         | |- context [if ?c then _ else _] => destruct c
         end; try discriminate.
  pose proof (slice_not_fuel content 0 (span.Class content 0 (len content) span.XI + 1)).
  pose proof (index_not_fuel content
                (span.Class content 0 (len content) span.XI + 1 + 1)).
  destruct (slice content 0 (span.Class content 0 (len content) span.XI + 1));
    cbn [bind]; try discriminate; try contradiction.
  destruct (index content (span.Class content 0 (len content) span.XI + 1 + 1));
    cbn [bind]; try discriminate; try contradiction.
Qed.

Lemma Element_Read_at_not_fuel (this : Element) (url : string) (x y : Z) :
  Element_Read_at this url x y <> Fuel.
Proof.
  unfold Element_Read_at.
  pose proof (slice_not_fuel (e_content this) x (y + 1)).
  destruct (slice (e_content this) x (y + 1)) as [atx | |]; cbn [bind];
    try discriminate; try contradiction.
  pose proof (Attribute_Read_not_fuel Attribute_zero url atx).
  destruct (Attribute_Read Attribute_zero url atx) as [[at_ [er |]] | |];
    cbn [bind]; try discriminate; try contradiction.
Qed.

Lemma Element_Read_attribute_not_fuel (this : Element) (url : string) (x z : Z) :
  Element_Read_attribute this url x z <> Fuel.
Proof.
  unfold Element_Read_attribute.
  repeat match goal with
         | |- (if ?c then _ else _) <> _ => destruct c
         | |- bind (index ?t ?i) _ <> _ =>
             let H := fresh in
             pose proof (index_not_fuel t i) as H;
             destruct (index t i); cbn [bind];
             [| discriminate | contradiction]
         | |- Element_Read_at _ _ _ _ <> _ => apply Element_Read_at_not_fuel
         | |- Val _ <> _ => discriminate
         end.
Qed.

(** The attribute loop ends in [Break] when it is given one unit of fuel
    for each byte from [x] to the end of the content. *)
Lemma Element_Read_attributes_breaks (url : string) :
  forall (fuel : nat) (this : Element) (x : Z),
    0 <= x -> len (e_content this) - x <= Z.of_nat fuel ->
    match Element_Read_attributes fuel this url x (len (e_content this)) with
    | Val r => flow_breaks r
    | Panic => True
    | Fuel => False
    end.
Proof.
  induction fuel as [| fuel IH]; intros this x H0 Hf;
    cbn [Element_Read_attributes].
  - destruct (x <? len (e_content this)) eqn:E;
      [apply Z.ltb_lt in E; lia | exact I].
  - destruct (x <? len (e_content this)) eqn:E; [| exact I].
    destruct (Element_Read_attribute this url x (len (e_content this)))
      as [r | |] eqn:Er; cbn [bind].
    + pose proof (Element_Read_attribute_keeps _ _ _ _ _ Er) as K.
      apply Element_Read_attribute_advances in Er; [| exact H0].
      destruct r as [this1 x1 | this1 x1 | this1 er];
        cbn [flow_advances flow_keeps] in *.
      * destruct K as (_ & C & _). specialize (IH this1 x1).
        rewrite C in IH. apply IH; lia.
      * exact I.
      * contradiction.
    + exact I.
    + exact (Element_Read_attribute_not_fuel _ _ _ _ Er).
Qed.

Lemma Text_identifier_not_fuel (this : Text) (ofs : Z) :
  Text_identifier this ofs <> Fuel.
Proof.
  unfold Text_identifier.
  destruct ((ofs <=? span.Class this ofs (len this) span.XI)
            && (span.Class this ofs (len this) span.XI <=? len this));
    [apply slice_not_fuel | discriminate].
Qed.

Lemma name_offset_nonneg (kind : Kind) : 0 <= name_offset kind.
Proof.
  unfold name_offset.
  repeat match goal with
         | |- context [if ?c then _ else _] => destruct c
         end; lia.
Qed.

(** The first part of [Element.Read] ends in [Break]: it returns no
    error. *)
Lemma Element_Read_head_breaks (this : Element) (url : string) (kind : Kind) :
  match Element_Read_head this url kind with
  | Val r => flow_breaks r
  | Panic => True
  | Fuel => False
  end.
Proof.
  unfold Element_Read_head.
  pose proof (Text_identifier_not_fuel (e_content this) (name_offset kind)) as Hn.
  destruct (Text_identifier (e_content this) (name_offset kind)) as [name | |];
    cbn [bind]; [| exact I | contradiction].
  destruct (has_attributes kind); [| exact I].
  pose proof (name_offset_nonneg kind) as H0.
  pose proof (len_nonneg name) as H1.
  pose proof (len_nonneg (e_content this)) as H2.
  apply (Element_Read_attributes_breaks url
           (Z.to_nat (len (e_content this))) (Element_with_name this name)
           (name_offset kind + len name)); cbn [Element_with_name e_content]; lia.
Qed.

(** ** Element.Read returns no error *)

Lemma TextList_Read_nil_error (this : TextList) (url : string) (content : Text)
      (l : TextList) (er : option error) :
  TextList_Read this url content = Val (l, er) -> er = None.
Proof.
  unfold TextList_Read, TextList_Read_with. intros H.
  destruct (TextList_Read_loop forward_span (Z.to_nat (len content)) this
              content 0 (len content)); cbn [bind] in H; try discriminate.
  apply Val_inj in H. congruence.
Qed.

Lemma siblings_nil_error
      (Read : string -> Text -> go (Element * option error)) (url : string) :
  (forall u c el er, Read u c = Val (el, er) -> er = None) ->
  forall (list : TextList) (stack : Z) (body : Text) (this : Element)
         (s : siblings) (er : option error),
    Element_Read_siblings Read url list stack body this = Val (s, er) ->
    er = None.
Proof.
  intros HR. induction list as [| text list IH]; intros stack body this s er H;
    cbn [Element_Read_siblings] in H.
  - apply Val_inj in H. congruence.
  - destruct (Kind_eqb (Text_KindOf text) KindOpen); [apply (IH _ _ _ _ _ H) |].
    destruct (Kind_eqb (Text_KindOf text) KindSolitary).
    { destruct (0 =? stack); [| apply (IH _ _ _ _ _ H)].
      destruct (Read url text) as [[el [e |]] | |] eqn:ER; cbn [bind] in H;
        try discriminate.
      - apply HR in ER. discriminate.
      - apply (IH _ _ _ _ _ H). }
    destruct (Kind_eqb (Text_KindOf text) KindClose).
    { destruct (0 =? stack - 1); [| apply (IH _ _ _ _ _ H)].
      destruct (Read url (span.Cat body text)) as [[el [e |]] | |] eqn:ER;
        cbn [bind] in H; try discriminate.
      - apply HR in ER. discriminate.
      - apply (IH _ _ _ _ _ H). }
    destruct (Kind_eqb (Text_KindOf text) KindText
              || Kind_eqb (Text_KindOf text) KindData);
      apply (IH _ _ _ _ _ H).
Qed.

(** Whenever [Element.Read] returns, its error is nil: the spans that it
    hands to [Attribute.Read] are read without error, the tokenizer returns
    no error, and the loop over the body returns the errors of the children
    only. *)
Lemma Element_Read_nil_error :
  forall (fuel : nat) (this : Element) (url : string) (content : Text)
         (e : Element) (er : option error),
    Element_Read_fuel fuel this url content = Val (e, er) -> er = None.
Proof.
  induction fuel as [| fuel IH]; intros this url content e er H;
    cbn [Element_Read_fuel] in H; [discriminate |].
  pose proof (Element_Read_head_breaks (Element_with_content this content) url
                (Element_KindOf (Element_with_content this content))) as Hb.
  destruct (Element_Read_head (Element_with_content this content) url
              (Element_KindOf (Element_with_content this content)))
    as [r | |]; cbn [bind] in H; try discriminate.
  destruct r as [this1 x | this1 x | this1 er1]; cbn [flow_breaks] in Hb;
    try contradiction.
  unfold Element_Read_content in H.
  destruct (Kind_eqb KindOpen (Element_KindOf (Element_with_content this content)));
    [| apply Val_inj in H; congruence].
  destruct (Element_Read_body content x (len content)) as [[text |] | |];
    cbn [bind] in H; try discriminate; [| apply Val_inj in H; congruence].
  destruct (TextList_Read [] url text) as [[tokens [e0 |]] | |] eqn:Et;
    cbn [bind] in H; try discriminate.
  - apply TextList_Read_nil_error in Et. discriminate.
  - destruct (Element_Read_siblings (Element_Read_fuel fuel Element_zero) url
                tokens 0 [] this1) as [[s o] | |] eqn:Es;
      cbn [bind fst snd] in H; try discriminate.
    apply Val_inj in H. injection H as _ <-.
    apply (siblings_nil_error (Element_Read_fuel fuel Element_zero) url
             (IH Element_zero) _ _ _ _ _ _ Es).
Qed.

(** ** Unbalanced bodies *)

(** C2, as the code has it. For an Open element whose body's token stream
    ends with the nesting depth counter not zero, [Element.Read] does not
    fail: whenever it returns, its error is nil and the element is the one
    that the loop over the tokens holds at the end of the stream, where
    [stack] is the depth counter, not zero. *)
Theorem C2_unbalanced_body_is_not_an_error :
  forall (fuel : nat) (this : Element) (url : string) (content : Text)
         (this1 : Element) (x : Z) (text : Text) (tokens : TextList)
         (e : Element) (er : option error),
    Text_KindOf content = KindOpen ->
    Element_Read_head (Element_with_content this content) url KindOpen
    = Val (Break this1 x) ->
    Element_Read_body content x (len content) = Val (Some text) ->
    TextList_Read [] url text = Val (tokens, None) ->
    depth_counter tokens <> 0 ->
    Element_Read_fuel (S fuel) this url content = Val (e, er) ->
    er = None
    /\ exists s : siblings,
        Element_Read_siblings (Element_Read_fuel fuel Element_zero) url tokens
                              0 [] this1 = Val (s, None)
        /\ s_stack s = depth_counter tokens
        /\ e = s_this s.
Proof.
  intros fuel this url content this1 x text tokens e er Hk Hh Hb Ht Hd H.
  pose proof (Element_Read_nil_error _ _ _ _ _ _ H) as Her. subst er.
  split; [reflexivity |].
  cbn [Element_Read_fuel] in H.
  rewrite (KindOf_Open_not_empty this content Hk) in H.
  rewrite Hh in H. cbn [bind] in H. unfold Element_Read_content in H.
  cbn [Kind_eqb KindOpen Z.eqb Pos.eqb] in H.
  rewrite Hb in H. cbn [bind] in H. rewrite Ht in H. cbn [bind] in H.
  destruct (Element_Read_siblings (Element_Read_fuel fuel Element_zero) url
              tokens 0 [] this1) as [[s o] | |] eqn:Es;
    cbn [bind fst snd] in H; try discriminate.
  apply Val_inj in H. injection H as <- ->.
  exists s. split; [reflexivity |]. split; [| reflexivity].
  apply siblings_stack in Es. lia.
Qed.

Lemma C2_unbalanced_witness :
  exists e : Element,
    Element_Read Element_zero "u" unbalanced_body = Val (e, None)
    /\ e_children e = [].
Proof.
  destruct (C2_unbalanced_body_is_not_an_error
              (List.length unbalanced_body) Element_zero "u" unbalanced_body
              (mkElement None unbalanced_body (bytes "aa")
                         [mkAttribute (bytes "x") [] (bytes "x")] [])
              5 (bytes "><bb>") [bytes "<bb>"]
              (mkElement None unbalanced_body (bytes "aa")
                         [mkAttribute (bytes "x") [] (bytes "x")] [])
              None)
    as (_ & s & Hs & Hd & He); try (vm_compute; reflexivity).
  - vm_compute. discriminate.
  - eexists. split; vm_compute; reflexivity.
Defined.

(** C2 fails as stated: on [<a><b></a>] [Document.Read] returns a nil error
    and a document, and on the Open span [<aa x=1><bb></aa>], whose body
    holds the one token [<bb>], [Element.Read] returns a nil error and the
    element. *)
Lemma C2_unbalanced_counterexample :
  (exists d : Document,
      Document_Read Document_zero "u" scenario_C = Val (d, None))
  /\ (exists e : Element,
         Element_Read Element_zero "u" unbalanced_body = Val (e, None)
         /\ Text_KindOf unbalanced_body = KindOpen
         /\ Element_Read_body unbalanced_body 5 (len unbalanced_body)
            = Val (Some (bytes "><bb>"))
         /\ TextList_Read [] "u" (bytes "><bb>") = Val ([bytes "<bb>"], None)
         /\ depth_counter [bytes "<bb>"] = 1).
Proof.
  split.
  - eexists. vm_compute. reflexivity.
  - eexists. repeat split; vm_compute; reflexivity.
Qed.

(** ** The fuel of the model suffices *)

Lemma len_concat_app (l : TextList) (t : Text) :
  len (List.concat (l ++ [t])) = len (List.concat l) + len t.
Proof.
  rewrite concat_app. cbn [List.concat]. rewrite app_nil_r. apply len_app.
Qed.

Section TokenLengths.

Variable forward : Text -> Z -> Z -> Z.
Variable content : Text.

(** A step emits at most the bytes that the cursor passes. *)
Lemma step_tokens_length (this : TextList) (x : Z) (l : TextList) (x' : Z) :
  x < len content ->
  TextList_Read_step forward this content x (len content) = Val (l, x') ->
  len (List.concat l) <= len (List.concat this) + (x' - x)
  /\ x < x' <= len content.
Proof.
  unfold TextList_Read_step. intros Hx H.
  destruct (x <? forward content x (len content)) eqn:E.
  - apply Z.ltb_lt in E.
    destruct (slice content x (forward content x (len content) + 1))
      as [text | |] eqn:Es; cbn [bind] in H; try discriminate.
    pose proof (slice_len _ _ _ _ Es) as Hl. apply slice_Val in Es.
    destruct Es as (H1 & H2 & _).
    apply Val_inj in H. injection H as <- <-.
    match goal with |- context [if ?c then _ else _] => destruct c end.
    + rewrite len_concat_app. lia.
    + pose proof (len_nonneg text). lia.
  - apply Val_inj in H. injection H as <- <-. lia.
Qed.

Lemma loop_tokens_length :
  forall (fuel : nat) (this : TextList) (x : Z) (l : TextList),
    x <= len content ->
    TextList_Read_loop forward fuel this content x (len content) = Val l ->
    len (List.concat l) <= len (List.concat this) + (len content - x).
Proof.
  induction fuel as [| fuel IH]; intros this x l Hx H;
    cbn [TextList_Read_loop] in H.
  - destruct (x <? len content); [discriminate |].
    apply Val_inj in H. subst l. lia.
  - destruct (x <? len content) eqn:E.
    + apply Z.ltb_lt in E.
      destruct (TextList_Read_step forward this content x (len content))
        as [[l1 x1] | |] eqn:Es; cbn [bind fst snd] in H; try discriminate.
      apply step_tokens_length in Es; [| exact E]. destruct Es as [Hl Hx1].
      apply IH in H; lia.
    + apply Val_inj in H. subst l. lia.
Qed.

End TokenLengths.

(** The tokens of a text are together no longer than the text. *)
Lemma TextList_Read_tokens_length (url : string) (text : Text) (l : TextList)
      (er : option error) :
  TextList_Read [] url text = Val (l, er) -> len (List.concat l) <= len text.
Proof.
  unfold TextList_Read, TextList_Read_with. intros H.
  destruct (TextList_Read_loop forward_span (Z.to_nat (len text)) [] text 0
              (len text)) as [l1 | |] eqn:El; cbn [bind] in H; try discriminate.
  apply Val_inj in H. injection H as <- _.
  pose proof (len_nonneg text).
  apply loop_tokens_length in El; [| lia]. cbn [List.concat] in El.
  unfold len at 2 in El. cbn [List.length] in El. lia.
Qed.

Lemma siblings_has_fuel
      (Read : string -> Text -> go (Element * option error)) (url : string)
      (L : Z) :
  (forall u c, len c <= L -> Read u c <> Fuel) ->
  forall (list : TextList) (stack : Z) (body : Text) (this : Element),
    len body + len (List.concat list) <= L ->
    Element_Read_siblings Read url list stack body this <> Fuel.
Proof.
  intros HR. induction list as [| text list IH]; intros stack body this HL;
    cbn [Element_Read_siblings]; [discriminate |].
  cbn [List.concat] in HL. rewrite len_app in HL.
  pose proof (len_nonneg text) as Ht. pose proof (len_nonneg body) as Hb.
  pose proof (len_nonneg (List.concat list)) as Hc.
  assert (Hcat : len (span.Cat body text) = len body + len text)
    by apply len_app.
  destruct (Kind_eqb (Text_KindOf text) KindOpen); [apply IH; lia |].
  destruct (Kind_eqb (Text_KindOf text) KindSolitary).
  { destruct (0 =? stack); [| apply IH; lia].
    pose proof (HR url text ltac:(lia)) as Hr.
    destruct (Read url text) as [[el [e |]] | |]; cbn [bind];
      try discriminate; [apply IH; lia | contradiction]. }
  destruct (Kind_eqb (Text_KindOf text) KindClose).
  { destruct (0 =? stack - 1); [| apply IH; lia].
    pose proof (HR url (span.Cat body text) ltac:(lia)) as Hr.
    destruct (Read url (span.Cat body text)) as [[el [e |]] | |]; cbn [bind];
      try discriminate; [| contradiction].
    apply IH. unfold len at 1. cbn [List.length]. lia. }
  destruct (Kind_eqb (Text_KindOf text) KindText
            || Kind_eqb (Text_KindOf text) KindData); apply IH; lia.
Qed.

Lemma Element_Read_body_shorter (content : Text) (x : Z) (text : Text) :
  Element_Read_body content x (len content) = Val (Some text) ->
  len text < len content.
Proof.
  unfold Element_Read_body. intros H.
  destruct ((x <? span.First content x (len content) ">")
            && (span.First content x (len content) ">" <? len content));
    [| discriminate].
  destruct ((x <? span.Last content (len content - 1) (len content) "<")
            && (span.Last content (len content - 1) (len content) "<"
                <? len content)) eqn:G; [| discriminate].
  apply andb_prop in G. destruct G as [_ G]. apply Z.ltb_lt in G.
  destruct (slice content (span.First content x (len content) ">")
                  (span.Last content (len content - 1) (len content) "<"))
    as [t | |] eqn:Es; cbn [bind] in H; try discriminate.
  apply Val_inj in H. injection H as ->.
  pose proof (slice_len _ _ _ _ Es). apply slice_Val in Es. lia.
Qed.

Lemma Element_Read_body_not_fuel (content : Text) (x z : Z) :
  Element_Read_body content x z <> Fuel.
Proof.
  unfold Element_Read_body.
  destruct ((x <? span.First content x z ">")
            && (span.First content x z ">" <? z)); [| discriminate].
  destruct ((x <? span.Last content (z - 1) z "<")
            && (span.Last content (z - 1) z "<" <? z)); [| discriminate].
  pose proof (slice_not_fuel content (span.First content x z ">")
                (span.Last content (z - 1) z "<")).
  destruct (slice content (span.First content x z ">")
                  (span.Last content (z - 1) z "<")); cbn [bind];
    try discriminate; contradiction.
Qed.

(** With more fuel than the content has bytes, [Element.Read] does not run
    out of fuel: the body of an element is shorter than the element, and
    the tokens of a body are together no longer than the body. *)
Lemma Element_Read_has_fuel :
  forall (fuel : nat) (this : Element) (url : string) (content : Text),
    len content < Z.of_nat fuel ->
    Element_Read_fuel fuel this url content <> Fuel.
Proof.
  induction fuel as [| fuel IH]; intros this url content Hf;
    [pose proof (len_nonneg content); lia |].
  cbn [Element_Read_fuel].
  pose proof (Element_Read_head_breaks (Element_with_content this content) url
                (Element_KindOf (Element_with_content this content))) as Hb.
  destruct (Element_Read_head (Element_with_content this content) url
              (Element_KindOf (Element_with_content this content)))
    as [r | |]; cbn [bind]; [| discriminate | contradiction].
  destruct r as [this1 x | this1 x | this1 er1]; cbn [flow_breaks] in Hb;
    try contradiction.
  unfold Element_Read_content.
  destruct (Kind_eqb KindOpen (Element_KindOf (Element_with_content this content)));
    [| discriminate].
  pose proof (Element_Read_body_not_fuel content x (len content)) as Hnb.
  destruct (Element_Read_body content x (len content)) as [[text |] | |] eqn:Eb;
    cbn [bind]; try discriminate; [| contradiction].
  apply Element_Read_body_shorter in Eb.
  destruct (Read_with_returns forward_span
              (fun c x => Forward_below c x (len c) "<" ">" (len_nonneg c))
              [] url text) as [tokens Ht].
  fold (TextList_Read [] url text) in Ht. rewrite Ht. cbn [bind].
  pose proof (TextList_Read_tokens_length _ _ _ _ Ht) as Hl.
  pose proof (siblings_has_fuel (Element_Read_fuel fuel Element_zero) url
                (len text)) as Hs.
  specialize (Hs (fun u c Hc => IH Element_zero u c ltac:(lia)) tokens 0 []
                 this1).
  destruct (Element_Read_siblings (Element_Read_fuel fuel Element_zero) url
              tokens 0 [] this1) as [[s o] | |]; cbn [bind];
    try discriminate.
  exfalso. apply Hs; [| reflexivity].
  unfold len at 1. cbn [List.length]. lia.
Qed.

Lemma Element_Read_not_fuel (this : Element) (url : string) (content : Text) :
  Element_Read this url content <> Fuel.
Proof.
  unfold Element_Read. apply Element_Read_has_fuel. unfold len. lia.
Qed.

Lemma Document_Read_source_not_fuel
      (Read : string -> Text -> go (Element * option error)) (url : string) :
  (forall u c, Read u c <> Fuel) ->
  forall (source : TextList) (body : Text) (this : Document),
    Document_Read_source Read url source body this <> Fuel.
Proof.
  intros HR. induction source as [| text source IH]; intros body this;
    cbn [Document_Read_source]; [discriminate |].
  destruct (IsCode (Text_KindOf text)).
  - destruct (IsBody (Text_KindOf text)); [apply IH |].
    pose proof (HR url text) as Hr.
    destruct (Read url text) as [[el [e |]] | |]; cbn [bind];
      try discriminate; [apply IH | contradiction].
  - destruct (IsText (Text_KindOf text)); [| apply IH].
    destruct (0 =? len body); apply IH.
Qed.

(** [Document.Read] does not run out of fuel: the model of the parse is
    total, it returns or panics. *)
Lemma Document_Read_not_fuel (this : Document) (url : string) (content : Text) :
  Document_Read this url content <> Fuel.
Proof.
  unfold Document_Read.
  destruct (Read_with_returns forward_span
              (fun c x => Forward_below c x (len c) "<" ">" (len_nonneg c))
              [] url content) as [source Hs].
  fold (TextList_Read [] url content) in Hs. rewrite Hs. cbn [bind].
  pose proof (Document_Read_source_not_fuel (Element_Read Element_zero) url
                (Element_Read_not_fuel Element_zero) source []
                (mkDocument url content (d_children this))) as Hd.
  destruct (Document_Read_source (Element_Read Element_zero) url source []
              (mkDocument url content (d_children this)))
    as [[[d b] [e |]] | |]; cbn [bind]; try discriminate; [| contradiction].
  pose proof (Element_Read_not_fuel Element_zero url b) as He.
  destruct (Element_Read Element_zero url b) as [[el [e |]] | |]; cbn [bind];
    try discriminate. contradiction.
Qed.

(** * Further properties of the code *)

(** ** Kinds of spans *)

Lemma Text_KindOf_range (this : Text) : In (Text_KindOf this) token_kinds.
Proof.
  unfold Text_KindOf, token_kinds.
  repeat match goal with
         | |- context [if ?c then _ else _] => destruct c
         end; cbn [In]; tauto.
Qed.

(** X1. [Text.KindOf] returns one of eight kinds, and the tests of
    [Document.Read] split them: a kind that is not Undefined is code or
    text and never both; the body kinds are Open, Solitary and Close; the
    code kinds that are not body kinds are Declaration and Instruction; the
    text kinds are Text and Data. *)
Theorem X1_kinds_of_spans_are_code_or_text :
  forall this : Text,
    In (Text_KindOf this) token_kinds
    /\ (Text_KindOf this = KindUndefined
        \/ IsCode (Text_KindOf this) = true
        \/ IsText (Text_KindOf this) = true)
    /\ IsCode (Text_KindOf this) && IsText (Text_KindOf this) = false
    /\ (IsBody (Text_KindOf this) = true
        <-> Text_KindOf this = KindOpen \/ Text_KindOf this = KindSolitary
            \/ Text_KindOf this = KindClose)
    /\ (IsCode (Text_KindOf this) && negb (IsBody (Text_KindOf this)) = true
        <-> Text_KindOf this = KindDeclaration
            \/ Text_KindOf this = KindInstruction)
    /\ (IsHead (Text_KindOf this) = true
        <-> Text_KindOf this = KindDeclaration
            \/ Text_KindOf this = KindInstruction)
    /\ (IsText (Text_KindOf this) = true
        <-> Text_KindOf this = KindText \/ Text_KindOf this = KindData).
Proof.
  intros this. pose proof (Text_KindOf_range this) as H.
  split; [exact H |].
  unfold token_kinds in H. cbn [In] in H.
  destruct H as [H | [H | [H | [H | [H | [H | [H | [H | []]]]]]]]];
    rewrite <- H; repeat split; intros; try reflexivity; try discriminate;
    try (left; reflexivity); try (right; left; reflexivity);
    try (right; right; reflexivity); try (right; reflexivity);
    try (repeat match goal with
                | A : _ \/ _ |- _ => destruct A
                end; discriminate).
Qed.

(** A kind of code needs the bracket pair and four bytes. *)
Lemma KindOf_bracketed (this : Text) :
  Text_KindOf this <> KindUndefined -> Text_KindOf this <> KindText ->
  is_byte this 0 "<" = true /\ is_byte this (len this - 1) ">" = true
  /\ 4 <= len this.
Proof.
  unfold Text_KindOf. intros Hu Ht.
  destruct (0 <? len this); [| contradiction].
  destruct (0 <? len this - 1); [| contradiction].
  destruct (is_byte this 0 "<") eqn:E0; cbn [andb] in *.
  - destruct (is_byte this (len this - 1) ">") eqn:E1.
    + destruct (0 + 1 <? len this - 1 - 1) eqn:E2; [| contradiction].
      apply Z.ltb_lt in E2. repeat split. lia.
    + destruct (span.Class this 0 (len this) span.WS =? len this - 1);
        contradiction.
  - destruct (span.Class this 0 (len this) span.WS =? len this - 1);
      contradiction.
Qed.

(** X2. A span classifies as Declaration, Instruction, Open, Solitary,
    Close or Data only if it starts with [<], ends with [>] and has four
    bytes or more; so a tag of fewer than four bytes, as [<a>], classifies
    as Undefined, and the tokenizer does not emit it. *)
Theorem X2_code_kinds_need_brackets_and_four_bytes :
  forall this : Text,
    (IsCode (Text_KindOf this) = true \/ Text_KindOf this = KindData ->
     is_byte this 0 "<" = true /\ is_byte this (len this - 1) ">" = true
     /\ 4 <= len this)
    /\ (is_byte this 0 "<" = true -> is_byte this (len this - 1) ">" = true ->
        len this < 4 -> Text_KindOf this = KindUndefined).
Proof.
  intros this. split.
  - intros H. apply KindOf_bracketed.
    + intros E. rewrite E in H. destruct H; discriminate.
    + intros E. rewrite E in H. destruct H; discriminate.
  - intros H0 H1 Hl.
    pose proof (Text_KindOf_range this) as Hr.
    destruct (Z.eq_dec (Text_KindOf this) KindUndefined) as [E | E];
      [exact E |].
    destruct (Z.eq_dec (Text_KindOf this) KindText) as [Et | Et].
    + exfalso. revert Et. unfold Text_KindOf.
      destruct (0 <? len this); [| discriminate].
      destruct (0 <? len this - 1); [| discriminate].
      rewrite H0, H1. cbn [andb].
      repeat match goal with
             | |- context [if ?c then _ else _] => destruct c
             end; discriminate.
    + pose proof (KindOf_bracketed this E Et). lia.
Qed.

Lemma X2_short_tag_witness :
  Text_KindOf (bytes "<a>") = KindUndefined
  /\ 4 <= len (bytes "<br/>").
Proof.
  split.
  - apply (proj2 (X2_code_kinds_need_brackets_and_four_bytes (bytes "<a>")));
      [reflexivity | reflexivity | vm_compute; reflexivity].
  - apply (proj1 (X2_code_kinds_need_brackets_and_four_bytes (bytes "<br/>"))).
    left. reflexivity.
Defined.

(** ** Text.String *)

Lemma line_prefix_length (n : nat) :
  forall t : Text, (List.length (line_prefix n t) <= n)%nat
                   /\ (List.length (line_prefix n t) <= List.length t)%nat.
Proof.
  induction n as [| n IH]; intros t.
  - destruct t; cbn; lia.
  - destruct t as [| ch t]; cbn [line_prefix]; [cbn; lia |].
    destruct (byte_eqb newline ch); [cbn; lia |].
    destruct (IH t). cbn [List.length]. lia.
Qed.

Lemma line_prefix_firstn (n : nat) :
  forall t : Text,
    firstn (List.length (line_prefix n t)) t = line_prefix n t.
Proof.
  induction n as [| n IH]; intros t.
  - destruct t; reflexivity.
  - destruct t as [| ch t]; cbn [line_prefix]; [reflexivity |].
    destruct (byte_eqb newline ch); [reflexivity |].
    cbn [List.length firstn]. rewrite IH. reflexivity.
Qed.

Lemma line_prefix_no_newline (n : nat) :
  forall t : Text, forallb (fun ch => negb (byte_eqb newline ch))
                           (line_prefix n t) = true.
Proof.
  induction n as [| n IH]; intros t.
  - destruct t; reflexivity.
  - destruct t as [| ch t]; cbn [line_prefix]; [reflexivity |].
    destruct (byte_eqb newline ch) eqn:E; [reflexivity |].
    cbn [forallb]. rewrite E, IH. reflexivity.
Qed.

(** The prefix stops at the end of the text, before a line feed, or at
    [n] bytes. *)
Lemma line_prefix_stops (n : nat) :
  forall t : Text,
    line_prefix n t = t
    \/ List.length (line_prefix n t) = n
    \/ nth_error t (List.length (line_prefix n t)) = Some newline.
Proof.
  induction n as [| n IH]; intros t.
  - right. left. destruct t; reflexivity.
  - destruct t as [| ch t]; cbn [line_prefix]; [left; reflexivity |].
    destruct (byte_eqb newline ch) eqn:E.
    + right. right. apply byte_eqb_true in E. subst ch. reflexivity.
    + destruct (IH t) as [H | [H | H]].
      * left. rewrite H. reflexivity.
      * right. left. cbn [List.length]. rewrite H. reflexivity.
      * right. right. exact H.
Qed.

Lemma String_clamp_line_prefix :
  forall (rest : Text) (x : Z),
    0 <= x <= 20 ->
    String_clamp rest x (x + len rest)
    = x + len (line_prefix (Z.to_nat (20 - x)) rest).
Proof.
  induction rest as [| ch rest IH]; intros x Hx; cbn [String_clamp].
  - destruct (Z.to_nat (20 - x)); reflexivity.
  - destruct (byte_eqb newline ch) eqn:E.
    + destruct (Z.to_nat (20 - x)); cbn [line_prefix]; [| rewrite E];
        unfold len; cbn [List.length]; lia.
    + destruct (20 =? x) eqn:E20.
      * apply Z.eqb_eq in E20. subst x. cbn. reflexivity.
      * apply Z.eqb_neq in E20.
        replace (Z.to_nat (20 - x)) with (S (Z.to_nat (20 - (x + 1)))) by lia.
        cbn [line_prefix]. rewrite E. rewrite len_cons.
        replace (x + (1 + len rest)) with (x + 1 + len rest) by lia.
        rewrite IH by lia. rewrite len_cons. lia.
Qed.

Lemma Text_String_line_prefix (this : Text) :
  Text_String this = Val (line_prefix 20 this).
Proof.
  unfold Text_String.
  destruct (0 <? len this) eqn:E0.
  - pose proof (String_clamp_line_prefix this 0 ltac:(lia)) as Hc.
    cbn [Z.add] in Hc. rewrite Z.sub_0_r in Hc.
    change (Z.to_nat 20) with 20%nat in Hc. rewrite Hc.
    destruct (line_prefix_length 20 this) as [H20 Hl].
    destruct (20 <? len (line_prefix 20 this)) eqn:E1;
      [apply Z.ltb_lt in E1; unfold len in E1; lia |].
    destruct (len (line_prefix 20 this) <? len this) eqn:E2.
    + unfold slice. pose proof (len_nonneg (line_prefix 20 this)).
      destruct (len (line_prefix 20 this) <? 0) eqn:E3;
        [apply Z.ltb_lt in E3; lia |].
      destruct (len this <? len (line_prefix 20 this)) eqn:E4;
        [apply Z.ltb_lt in E4; unfold len in E4; lia |].
      cbn [Z.ltb Z.compare orb Z.to_nat skipn]. rewrite Z.sub_0_r, to_nat_len.
      rewrite line_prefix_firstn. reflexivity.
    + apply Z.ltb_ge in E2. f_equal.
      rewrite <- (line_prefix_firstn 20 this).
      assert (List.length (line_prefix 20 this) = List.length this)
        by (unfold len in E2; lia).
      rewrite H. symmetry. apply firstn_all.
  - apply Z.ltb_ge in E0. destruct this as [| ch this]; [reflexivity |].
    rewrite len_cons in E0. pose proof (len_nonneg this). lia.
Qed.

(** X3. [Text.String] never panics; it returns a prefix of the text of at
    most 20 bytes that holds no line feed, and the longest such: the
    prefix is the whole text, or has 20 bytes, or is followed by a line
    feed. *)
Theorem X3_text_string_is_the_clamped_first_line :
  forall this : Text,
    exists r rest : Text,
      Text_String this = Val r
      /\ this = r ++ rest
      /\ len r <= 20
      /\ forallb (fun ch => negb (byte_eqb newline ch)) r = true
      /\ (rest = [] \/ len r = 20 \/ exists rest', rest = newline :: rest').
Proof.
  intros this. exists (line_prefix 20 this).
  exists (skipn (List.length (line_prefix 20 this)) this).
  split; [apply Text_String_line_prefix |].
  assert (Hsplit : this = line_prefix 20 this
                          ++ skipn (List.length (line_prefix 20 this)) this).
  { pose proof (firstn_skipn (List.length (line_prefix 20 this)) this) as F.
    rewrite line_prefix_firstn in F. symmetry. exact F. }
  split; [exact Hsplit |].
  split; [destruct (line_prefix_length 20 this); unfold len; lia |].
  split; [apply line_prefix_no_newline |].
  destruct (line_prefix_stops 20 this) as [H | [H | H]].
  - left. rewrite H at 1. apply skipn_all.
  - right. left. unfold len. rewrite H. reflexivity.
  - right. right.
    rewrite <- (Nat.add_0_r (List.length (line_prefix 20 this))) in H.
    rewrite <- nth_error_skipn in H.
    destruct (skipn (List.length (line_prefix 20 this)) this) as [| c rest'];
      [discriminate |].
    injection H as ->. exists rest'. reflexivity.
Qed.

(** X4. [TextList.String], written as a second copy of the loop, is
    [Text.String] of the concatenated content, and [Document.String] is
    [Text.String] of the buffer; applied to its own result [Text.String]
    changes nothing. *)
Theorem X4_string_of_list_and_idempotence :
  forall (l : TextList) (d : Document) (this : Text),
    TextList_String l = Text_String (TextList_Content l)
    /\ Document_String d = Text_String (d_content d)
    /\ (r <- Text_String this ;; Text_String r) = Text_String this.
Proof.
  intros l d this. split; [| split].
  - unfold TextList_String, Text_String.
    destruct (0 <? len (TextList_Content l)) eqn:E; [reflexivity |].
    apply Z.ltb_ge in E. destruct (TextList_Content l) as [| c t];
      [reflexivity |].
    rewrite len_cons in E. pose proof (len_nonneg t). lia.
  - reflexivity.
  - rewrite Text_String_line_prefix. cbn [bind].
    rewrite Text_String_line_prefix. f_equal.
    generalize 20%nat as n. intros n. revert this.
    induction n as [| n IH]; intros t.
    + destruct t; reflexivity.
    + destruct t as [| ch t]; cbn [line_prefix]; [reflexivity |].
      destruct (byte_eqb newline ch) eqn:E; [reflexivity |].
      cbn [line_prefix]. rewrite E, IH. reflexivity.
Qed.

(** ** The outcomes of Attribute.Read *)

Lemma run_split (clop : byte -> bool) :
  forall t : Text,
    (run clop t < List.length t)%nat ->
    exists (c : byte) (rest : Text),
      t = firstn (run clop t) t ++ c :: rest /\ clop c = false.
Proof.
  induction t as [| ch t IH]; cbn [run List.length]; intros H; [lia |].
  destruct (clop ch) eqn:E.
  - destruct IH as (c & rest & Ht & Hc); [lia |].
    exists c, rest. cbn [firstn app]. rewrite <- Ht. split; [reflexivity | exact Hc].
  - exists ch, t. split; [reflexivity | exact E].
Qed.

(** [Attribute.Read] in terms of the identifier run at the start of the
    content. *)
Lemma Attribute_Read_by_run (this : Attribute) (url : string) (content : Text) :
  Attribute_Read this url content
  = if 0 <? len content then
      if is_byte content 0 dquote then
        if is_byte content (len content - 1) dquote
        then Val (mkAttribute content (a_name this) content, None)
        else Val (mkAttribute content (a_name this) (a_value this),
                  Some (AttributeQuoteMissing content))
      else
        let r := Z.of_nat (run span.XI content) in
        if 1 <? r then
          if r <? len content then
            if is_byte content r "=" then
              name <- slice content 0 r ;;
              b <- index content (r + 1) ;;
              Val (mkAttribute content name (string_of_byte b), None)
            else Val (mkAttribute content (a_name this) (a_value this),
                      Some (AttributeSyntax content))
          else Val (mkAttribute content content (a_value this), None)
        else Val (mkAttribute content (a_name this) content, None)
    else Val (mkAttribute content (a_name this) (a_value this),
              Some AttributeEmpty).
Proof.
  unfold Attribute_Read. cbn [a_name a_value].
  destruct (0 <? len content); [| reflexivity].
  destruct (is_byte content 0 dquote) eqn:E0.
  - cbn [andb]. reflexivity.
  - rewrite Class_whole. cbv zeta.
    destruct (Nat.eqb (run span.XI content) 0) eqn:Er.
    + apply Nat.eqb_eq in Er. rewrite Er. reflexivity.
    + apply Nat.eqb_neq in Er.
      replace (0 <? Z.of_nat (run span.XI content) - 1)
        with (1 <? Z.of_nat (run span.XI content))
        by (destruct (1 <? Z.of_nat (run span.XI content)) eqn:A;
            [apply Z.ltb_lt in A; symmetry; apply Z.ltb_lt; lia
            | apply Z.ltb_ge in A; symmetry; apply Z.ltb_ge; lia]).
      replace (Z.of_nat (run span.XI content) - 1 + 1)
        with (Z.of_nat (run span.XI content)) by lia.
      reflexivity.
Qed.

Lemma slice_firstn (t : Text) (n : nat) :
  (n <= List.length t)%nat -> slice t 0 (Z.of_nat n) = Val (firstn n t).
Proof.
  intros H. unfold slice, len.
  destruct (Z.of_nat n <? 0) eqn:E1; [apply Z.ltb_lt in E1; lia |].
  destruct (Z.of_nat (List.length t) <? Z.of_nat n) eqn:E2;
    [apply Z.ltb_lt in E2; lia |].
  cbn [Z.ltb Z.compare orb Z.to_nat skipn]. rewrite Z.sub_0_r, Nat2Z.id.
  reflexivity.
Qed.

(** X5. [Attribute.Read] returns an error in three cases and no other: the
    content is empty ("Attribute empty."); it starts with the double quote
    and does not end with it ("Attribute quote missing"); or it starts
    with an identifier run of two bytes or more that is followed by a byte
    other than [=] ("Attribute syntax").  With the error comes the
    attribute with the content set and the name and value of the receiver
    untouched. *)
Theorem X5_attribute_read_errors :
  forall (this : Attribute) (url : string) (content : Text)
         (at_ : Attribute) (er : error),
    Attribute_Read this url content = Val (at_, Some er)
    <-> at_ = mkAttribute content (a_name this) (a_value this)
        /\ ((content = [] /\ er = AttributeEmpty)
            \/ (is_byte content 0 dquote = true
                /\ is_byte content (len content - 1) dquote = false
                /\ er = AttributeQuoteMissing content)
            \/ (content <> []
                /\ is_byte content 0 dquote = false
                /\ (2 <= run span.XI content < List.length content)%nat
                /\ is_byte content (Z.of_nat (run span.XI content)) "=" = false
                /\ er = AttributeSyntax content)).
Proof.
  intros this url content at_ er. rewrite Attribute_Read_by_run. cbv zeta.
  split.
  - intros H.
    destruct (0 <? len content) eqn:E0.
    + apply Z.ltb_lt in E0.
      assert (Hne : content <> [])
        by (intros ->; unfold len in E0; cbn in E0; lia).
      destruct (is_byte content 0 dquote) eqn:Eq.
      * destruct (is_byte content (len content - 1) dquote) eqn:El;
          apply Val_inj in H; [discriminate |].
        injection H as <- <-. split; [reflexivity |].
        right. left. repeat split; assumption.
      * destruct (1 <? Z.of_nat (run span.XI content)) eqn:E1;
          [| apply Val_inj in H; discriminate].
        apply Z.ltb_lt in E1.
        destruct (Z.of_nat (run span.XI content) <? len content) eqn:E2;
          [| apply Val_inj in H; discriminate].
        apply Z.ltb_lt in E2. unfold len in E2.
        destruct (is_byte content (Z.of_nat (run span.XI content)) "=") eqn:Ee.
        -- destruct (slice content 0 (Z.of_nat (run span.XI content)));
             cbn [bind] in H; try discriminate.
           destruct (index content (Z.of_nat (run span.XI content) + 1));
             cbn [bind] in H; try discriminate.
        -- apply Val_inj in H. injection H as <- <-. split; [reflexivity |].
           right. right. repeat split; try assumption; lia.
    + apply Z.ltb_ge in E0. apply Val_inj in H. injection H as <- <-.
      split; [reflexivity |]. left. split; [| reflexivity].
      destruct content as [| c t]; [reflexivity |].
      rewrite len_cons in E0. pose proof (len_nonneg t). lia.
  - intros [-> [[-> ->] | [(H0 & H1 & ->) | (Hne & H0 & Hr & He & ->)]]].
    + reflexivity.
    + assert (E0 : (0 <? len content) = true).
      { unfold is_byte in H0. destruct (byte_at content 0) eqn:E; [| discriminate].
        apply byte_at_Some in E. apply Z.ltb_lt. lia. }
      rewrite E0, H0, H1. reflexivity.
    + assert (E0 : (0 <? len content) = true).
      { apply Z.ltb_lt. destruct content as [| c t]; [contradiction |].
        rewrite len_cons. pose proof (len_nonneg t). lia. }
      rewrite E0, H0.
      assert (E1 : (1 <? Z.of_nat (run span.XI content)) = true)
        by (apply Z.ltb_lt; lia).
      assert (E2 : (Z.of_nat (run span.XI content) <? len content) = true)
        by (apply Z.ltb_lt; unfold len; lia).
      rewrite E1, E2, He. reflexivity.
Qed.

Lemma X5_attribute_errors_witness :
  Attribute_Read Attribute_zero "u" (bytes "ab cd")
  = Val (mkAttribute (bytes "ab cd") [] [], Some (AttributeSyntax (bytes "ab cd")))
  /\ Attribute_Read Attribute_zero "u" ([dquote] ++ bytes "ab")
     = Val (mkAttribute ([dquote] ++ bytes "ab") [] [],
            Some (AttributeQuoteMissing ([dquote] ++ bytes "ab"))).
Proof.
  split.
  - apply (proj2 (X5_attribute_read_errors Attribute_zero "u" (bytes "ab cd")
                    (mkAttribute (bytes "ab cd") [] [])
                    (AttributeSyntax (bytes "ab cd")))).
    split; [reflexivity |]. right. right.
    repeat split; try reflexivity; try discriminate; cbn; lia.
  - apply (proj2 (X5_attribute_read_errors Attribute_zero "u"
                    ([dquote] ++ bytes "ab")
                    (mkAttribute ([dquote] ++ bytes "ab") [] [])
                    (AttributeQuoteMissing ([dquote] ++ bytes "ab")))).
    split; [reflexivity |]. right. left. repeat split; reflexivity.
Defined.

(** X6. [Attribute.Read] panics exactly on a content [name=] with nothing
    after the [=], where [name] is an identifier run of two bytes or more:
    the index expression [this.content[y+1]] is out of range. *)
Theorem X6_attribute_read_panics_on_missing_value :
  forall (this : Attribute) (url : string) (content : Text),
    Attribute_Read this url content = Panic
    <-> exists name : Text,
        content = name ++ ["="%char]
        /\ forallb span.XI name = true
        /\ 2 <= len name.
Proof.
  intros this url content. rewrite Attribute_Read_by_run. cbv zeta. split.
  - intros H.
    destruct (0 <? len content); [| discriminate].
    destruct (is_byte content 0 dquote);
      [destruct (is_byte content (len content - 1) dquote); discriminate |].
    destruct (1 <? Z.of_nat (run span.XI content)) eqn:E1; [| discriminate].
    apply Z.ltb_lt in E1.
    destruct (Z.of_nat (run span.XI content) <? len content) eqn:E2;
      [| discriminate].
    apply Z.ltb_lt in E2. unfold len in E2.
    destruct (is_byte content (Z.of_nat (run span.XI content)) "=") eqn:Ee;
      [| discriminate].
    rewrite slice_firstn in H by lia. cbn [bind] in H.
    destruct (run_split span.XI content ltac:(lia)) as (c & rest & Hc & Hx).
    assert (Hc' : c = "="%char).
    { unfold is_byte in Ee. rewrite Hc in Ee at 1.
      assert (Hl : Z.of_nat (run span.XI content)
                   = len (firstn (run span.XI content) content)).
      { unfold len. rewrite length_firstn. lia. }
      rewrite Hl, byte_at_app_right in Ee. cbn [nth_error] in Ee.
      apply byte_eqb_true in Ee. congruence. }
    subst c. exists (firstn (run span.XI content) content).
    split; [| split].
    + destruct rest as [| b rest]; [exact Hc |].
      exfalso. rewrite Hc in H at 1.
      replace (firstn (run span.XI content) content ++ "="%char :: b :: rest)
        with ((firstn (run span.XI content) content ++ ["="%char]) ++ b :: rest)
        in H by (rewrite <- app_assoc; reflexivity).
      rewrite (index_app_right _ b rest) in H; [discriminate |].
      rewrite len_app. unfold len. rewrite length_firstn. cbn [List.length].
      lia.
    + apply run_firstn.
    + unfold len. rewrite length_firstn. lia.
  - intros (name & -> & Hxi & H2).
    pose proof (len_nonneg name) as Hn.
    assert (Hlen : len (name ++ ["="%char]) = len name + 1)
      by (rewrite len_app; reflexivity).
    assert (Hrun : run span.XI (name ++ ["="%char]) = List.length name)
      by (apply run_prefix; [exact Hxi | reflexivity]).
    rewrite Hrun, Hlen. fold (len name).
    destruct (0 <? len name + 1) eqn:E0; [| apply Z.ltb_ge in E0; lia].
    assert (Hq : is_byte (name ++ ["="%char]) 0 dquote = false).
    { destruct name as [| c name]; [unfold len in H2; cbn in H2; lia |].
      cbn [forallb] in Hxi. apply andb_prop in Hxi. destruct Hxi as [Hc _].
      apply XI_not_dquote. exact Hc. }
    rewrite Hq.
    destruct (1 <? len name) eqn:E1; [| apply Z.ltb_ge in E1; lia].
    destruct (len name <? len name + 1) eqn:E2; [| apply Z.ltb_ge in E2; lia].
    assert (He : is_byte (name ++ ["="%char]) (len name) "=" = true).
    { unfold is_byte. rewrite byte_at_app_right. reflexivity. }
    rewrite He, slice_prefix. cbn [bind].
    unfold index. rewrite Hlen.
    assert (E3 : (len name + 1 <=? len name + 1) = true) by (apply Z.leb_le; lia).
    rewrite E3, orb_true_r. reflexivity.
Qed.

(** X7. An attribute that [Attribute.Read] returns with a nil error holds
    the content read, which is not empty, and a name or a value that is
    not empty, so its [String] is not empty.  The receiver is the zero
    Attribute, as in [Element.Read]. *)
Theorem X7_attribute_read_leaves_name_or_value :
  forall (url : string) (content : Text) (at_ : Attribute),
    Attribute_Read Attribute_zero url content = Val (at_, None) ->
    a_content at_ = content
    /\ content <> []
    /\ (a_name at_ <> [] \/ a_value at_ <> [])
    /\ Attribute_String at_ <> [].
Proof.
  intros url content at_ H. rewrite Attribute_Read_by_run in H. cbv zeta in H.
  assert (Hs : forall a : Attribute,
             a_name a <> [] \/ a_value a <> [] -> Attribute_String a <> []).
  { intros [c n v] [Hn | Hv]; unfold Attribute_String; cbn [a_name a_value] in *.
    - destruct n; [contradiction | discriminate].
    - destruct n; [| discriminate]. destruct v; [contradiction | discriminate]. }
  destruct (0 <? len content) eqn:E0; [| apply Val_inj in H; discriminate].
  apply Z.ltb_lt in E0.
  assert (Hne : content <> [])
    by (intros ->; unfold len in E0; cbn in E0; lia).
  assert (Done : forall n v,
             at_ = mkAttribute content n v -> n <> [] \/ v <> [] ->
             a_content at_ = content /\ content <> []
             /\ (a_name at_ <> [] \/ a_value at_ <> [])
             /\ Attribute_String at_ <> []).
  { intros n v -> Hnv. repeat split; try assumption. apply Hs. exact Hnv. }
  destruct (is_byte content 0 dquote).
  - destruct (is_byte content (len content - 1) dquote);
      apply Val_inj in H; [| discriminate].
    injection H as <-. eapply Done; [reflexivity | right; exact Hne].
  - destruct (1 <? Z.of_nat (run span.XI content)) eqn:E1.
    + apply Z.ltb_lt in E1.
      destruct (Z.of_nat (run span.XI content) <? len content) eqn:E2.
      * apply Z.ltb_lt in E2. unfold len in E2.
        destruct (is_byte content (Z.of_nat (run span.XI content)) "=");
          [| apply Val_inj in H; discriminate].
        rewrite slice_firstn in H by lia. cbn [bind] in H.
        destruct (index content (Z.of_nat (run span.XI content) + 1)) as [b | |];
          cbn [bind] in H; try discriminate.
        apply Val_inj in H. injection H as <-.
        eapply Done; [reflexivity |]. right. unfold string_of_byte.
        destruct (byte_val b <? 128); discriminate.
      * apply Val_inj in H. injection H as <-.
        eapply Done; [reflexivity | left; exact Hne].
    + apply Val_inj in H. injection H as <-.
      eapply Done; [reflexivity | right; exact Hne].
Qed.

Lemma X7_attribute_witness :
  Attribute_String (mkAttribute (bytes "id") (bytes "id") []) <> [] /\ True.
Proof.
  split; [| exact I].
  apply (X7_attribute_read_leaves_name_or_value "u" (bytes "id")
           (mkAttribute (bytes "id") (bytes "id") [])).
  reflexivity.
Defined.

(** X8. What [Attribute.Read] stores for a span without [=]: an
    identifier of two bytes or more is stored as the name; a span whose
    first byte is neither the double quote nor an identifier byte (as a
    value between single quotes), or whose identifier run is a single
    byte, is stored whole as the value.  The other field is the
    receiver's. *)
Theorem X8_attribute_read_bare_spans :
  forall (this : Attribute) (url : string) (content : Text),
    (forallb span.XI content = true -> 2 <= len content ->
     Attribute_Read this url content
     = Val (mkAttribute content content (a_value this), None))
    /\ (content <> [] -> is_byte content 0 dquote = false ->
        (run span.XI content <= 1)%nat ->
        Attribute_Read this url content
        = Val (mkAttribute content (a_name this) content, None)).
Proof.
  intros this url content. rewrite Attribute_Read_by_run. cbv zeta. split.
  - intros Hxi H2.
    assert (E0 : (0 <? len content) = true) by (apply Z.ltb_lt; lia).
    rewrite E0.
    assert (Hq : is_byte content 0 dquote = false).
    { destruct content as [| c t]; [unfold len in H2; cbn in H2; lia |].
      cbn [forallb] in Hxi. apply andb_prop in Hxi. destruct Hxi as [Hc _].
      apply XI_not_dquote. exact Hc. }
    rewrite Hq. apply run_all in Hxi. rewrite Hxi. fold (len content).
    assert (E1 : (1 <? len content) = true) by (apply Z.ltb_lt; lia).
    rewrite E1, Z.ltb_irrefl. reflexivity.
  - intros Hne Hq Hr.
    assert (E0 : (0 <? len content) = true).
    { apply Z.ltb_lt. destruct content as [| c t]; [contradiction |].
      rewrite len_cons. pose proof (len_nonneg t). lia. }
    rewrite E0, Hq.
    assert (E1 : (1 <? Z.of_nat (run span.XI content)) = false)
      by (apply Z.ltb_ge; lia).
    rewrite E1. reflexivity.
Qed.

Lemma X8_bare_spans_witness :
  Attribute_Read Attribute_zero "u" (bytes "checked")
  = Val (mkAttribute (bytes "checked") (bytes "checked") [], None)
  /\ Attribute_Read Attribute_zero "u" (bytes "'a b'")
     = Val (mkAttribute (bytes "'a b'") [] (bytes "'a b'"), None).
Proof.
  split.
  - apply (proj1 (X8_attribute_read_bare_spans Attribute_zero "u"
                    (bytes "checked"))); [reflexivity | vm_compute; discriminate].
  - apply (proj2 (X8_attribute_read_bare_spans Attribute_zero "u"
                    (bytes "'a b'"))); [discriminate | reflexivity | cbn; lia].
Defined.

(** ** Text.identifier *)

Lemma window_to_end (t : Text) (ofs : Z) :
  prior.window t ofs (len t) = skipn (Z.to_nat ofs) t.
Proof.
  unfold prior.window. apply firstn_all2. rewrite length_skipn.
  unfold len. lia.
Qed.

(** X9. [Text.identifier] at an offset that is not negative never panics:
    it returns the longest run of identifier bytes that starts at the
    offset, and the whole text when there is no identifier byte at the
    offset (or the offset is at or past the end). *)
Theorem X9_identifier_is_the_run_or_the_whole_text :
  forall (this : Text) (ofs : Z),
    0 <= ofs ->
    Text_identifier this ofs
    = Val (match run span.XI (skipn (Z.to_nat ofs) this) with
           | O => this
           | S n => firstn (S n) (skipn (Z.to_nat ofs) this)
           end)
    /\ forallb span.XI (firstn (run span.XI (skipn (Z.to_nat ofs) this))
                               (skipn (Z.to_nat ofs) this)) = true.
Proof.
  intros this ofs H0. split; [| apply run_firstn].
  unfold Text_identifier, span.Class, prior.class.
  rewrite class_loop_run, window_to_end.
  pose proof (run_le span.XI (skipn (Z.to_nat ofs) this)) as Hle.
  rewrite length_skipn in Hle.
  destruct (run span.XI (skipn (Z.to_nat ofs) this)) as [| n] eqn:Er.
  - cbn [Nat.eqb].
    replace (ofs <=? -1) with false by (symmetry; apply Z.leb_gt; lia).
    reflexivity.
  - cbn [Nat.eqb].
    replace (ofs <=? ofs + Z.of_nat (S n) - 1) with true
      by (symmetry; apply Z.leb_le; lia).
    replace (ofs + Z.of_nat (S n) - 1 <=? len this) with true
      by (symmetry; apply Z.leb_le; unfold len; lia).
    cbn [andb]. unfold slice.
    replace (ofs <? 0) with false by (symmetry; apply Z.ltb_ge; lia).
    replace (ofs + Z.of_nat (S n) - 1 + 1 <? ofs) with false
      by (symmetry; apply Z.ltb_ge; lia).
    replace (len this <? ofs + Z.of_nat (S n) - 1 + 1) with false
      by (symmetry; apply Z.ltb_ge; unfold len; lia).
    cbn [orb].
    replace (Z.to_nat (ofs + Z.of_nat (S n) - 1 + 1 - ofs)) with (S n) by lia.
    reflexivity.
Qed.

Lemma X9_identifier_witness :
  Text_identifier (bytes "<svg:g id>") 1 = Val (bytes "svg:g")
  /\ Text_identifier (bytes "<!-- -->") 0 = Val (bytes "<!-- -->").
Proof.
  split.
  - apply (proj1 (X9_identifier_is_the_run_or_the_whole_text
                    (bytes "<svg:g id>") 1 ltac:(lia))).
  - apply (proj1 (X9_identifier_is_the_run_or_the_whole_text
                    (bytes "<!-- -->") 0 ltac:(lia))).
Defined.

(** ** What Element.Read changes of its receiver *)

Lemma adds_attributes_refl (this : Element) : adds_attributes this this.
Proof.
  repeat split. exists []. rewrite app_nil_r. reflexivity.
Qed.

Lemma adds_attributes_trans (a b c : Element) :
  adds_attributes a b -> adds_attributes b c -> adds_attributes a c.
Proof.
  intros (P1 & C1 & N1 & H1 & n1 & A1) (P2 & C2 & N2 & H2 & n2 & A2).
  repeat split; try congruence.
  exists (n1 ++ n2). rewrite A2, A1, app_assoc. reflexivity.
Qed.

Lemma Element_Read_at_adds (this : Element) (url : string) (x y : Z) (r : flow) :
  Element_Read_at this url x y = Val r -> adds_attributes this (flow_element r).
Proof.
  unfold Element_Read_at. intros H.
  destruct (slice (e_content this) x (y + 1)) as [atx | |]; cbn [bind] in H;
    try discriminate.
  destruct (Attribute_Read Attribute_zero url atx) as [[at_ [er |]] | |];
    cbn [bind] in H; try discriminate; apply Val_inj in H; subst r;
    cbn [flow_element].
  - apply adds_attributes_refl.
  - repeat split. exists [at_]. reflexivity.
Qed.

Lemma Element_Read_attribute_adds (this : Element) (url : string) (x z : Z)
      (r : flow) :
  Element_Read_attribute this url x z = Val r ->
  adds_attributes this (flow_element r).
Proof.
  unfold Element_Read_attribute. intros H.
  repeat match type of H with
         | (if ?c then _ else _) = _ => destruct c
         | bind ?m _ = _ => destruct m; cbn [bind] in H; try discriminate
         | Element_Read_at _ _ _ _ = _ => apply Element_Read_at_adds in H; exact H
         | Val _ = Val _ =>
             apply Val_inj in H; subst r; apply adds_attributes_refl
         end.
Qed.

Lemma Element_Read_attributes_adds (url : string) (z : Z) :
  forall (fuel : nat) (this : Element) (x : Z) (r : flow),
    Element_Read_attributes fuel this url x z = Val r ->
    adds_attributes this (flow_element r).
Proof.
  induction fuel as [| fuel IH]; intros this x r H;
    cbn [Element_Read_attributes] in H.
  - destruct (x <? z); [discriminate |].
    apply Val_inj in H. subst r. apply adds_attributes_refl.
  - destruct (x <? z).
    + destruct (Element_Read_attribute this url x z) as [r1 | |] eqn:E;
        cbn [bind] in H; try discriminate.
      apply Element_Read_attribute_adds in E.
      destruct r1 as [this1 x1 | this1 x1 | this1 er]; cbn [flow_element] in E.
      * apply IH in H. eapply adds_attributes_trans; eassumption.
      * apply Val_inj in H. subst r. exact E.
      * apply Val_inj in H. subst r. exact E.
    + apply Val_inj in H. subst r. apply adds_attributes_refl.
Qed.

(** The first part of [Element.Read] sets the name and appends
    attributes, and only for the kinds that carry attributes. *)
Lemma Element_Read_head_adds (this : Element) (url : string) (kind : Kind)
      (r : flow) :
  Element_Read_head this url kind = Val r ->
  exists name : Text,
    Text_identifier (e_content this) (name_offset kind) = Val name
    /\ adds_attributes (Element_with_name this name) (flow_element r)
    /\ (has_attributes kind = false ->
        r = Break (Element_with_name this name) (name_offset kind)).
Proof.
  unfold Element_Read_head. intros H.
  destruct (Text_identifier (e_content this) (name_offset kind)) as [name | |];
    cbn [bind] in H; try discriminate.
  exists name. split; [reflexivity |].
  destruct (has_attributes kind).
  - split; [| discriminate].
    apply Element_Read_attributes_adds in H. exact H.
  - apply Val_inj in H. subst r. split; [apply adds_attributes_refl |].
    reflexivity.
Qed.

(** The loop over the tokens changes the children only. *)
Lemma siblings_name_attributes
      (Read : string -> Text -> go (Element * option error)) (url : string) :
  forall (tokens : TextList) (stack : Z) (body : Text) (this : Element)
         (s : siblings) (er : option error),
    Element_Read_siblings Read url tokens stack body this = Val (s, er) ->
    e_name (s_this s) = e_name this
    /\ e_attributes (s_this s) = e_attributes this.
Proof.
  induction tokens as [| text tokens IH]; intros stack body this s er H;
    cbn [Element_Read_siblings] in H.
  - apply Val_inj in H. injection H as <- _. split; reflexivity.
  - destruct (Kind_eqb (Text_KindOf text) KindOpen); [apply (IH _ _ _ _ _ H) |].
    destruct (Kind_eqb (Text_KindOf text) KindSolitary).
    { destruct (0 =? stack); [| apply (IH _ _ _ _ _ H)].
      destruct (Read url text) as [[el [e |]] | |]; cbn [bind] in H;
        try discriminate.
      - apply Val_inj in H. injection H as <- _. split; reflexivity.
      - apply IH in H. exact H. }
    destruct (Kind_eqb (Text_KindOf text) KindClose).
    { destruct (0 =? stack - 1); [| apply (IH _ _ _ _ _ H)].
      destruct (Read url (span.Cat body text)) as [[el [e |]] | |];
        cbn [bind] in H; try discriminate.
      - apply Val_inj in H. injection H as <- _. split; reflexivity.
      - apply IH in H. exact H. }
    destruct (Kind_eqb (Text_KindOf text) KindText
              || Kind_eqb (Text_KindOf text) KindData);
      apply (IH _ _ _ _ _ H).
Qed.

(** [Element.Read] in one statement: what the result keeps of the receiver
    and of the content, by kind. *)
Lemma Element_Read_changes (fuel : nat) (this : Element) (url : string)
      (content : Text) (e : Element) (er : option error) :
  Element_Read_fuel fuel this url content = Val (e, er) ->
  e_parent e = e_parent this
  /\ e_content e = content
  /\ Text_identifier content
       (name_offset (Element_KindOf (Element_with_content this content)))
     = Val (e_name e)
  /\ (exists new : list Attribute,
         e_attributes e = e_attributes this ++ new
         /\ (has_attributes (Element_KindOf (Element_with_content this content))
             = false -> new = []))
  /\ (exists new : list Element,
         e_children e = e_children this ++ map NodeElement new
         /\ (Element_KindOf (Element_with_content this content) <> KindOpen ->
             new = [])).
Proof.
  intros H. pose proof (Element_Read_fuel_keeps _ _ _ _ _ _ H) as (P & C & _).
  split; [exact P |]. split; [exact C |].
  destruct fuel as [| fuel]; cbn [Element_Read_fuel] in H; [discriminate |].
  set (kind := Element_KindOf (Element_with_content this content)) in *.
  destruct (Element_Read_head (Element_with_content this content) url kind)
    as [r | |] eqn:Eh; cbn [bind] in H; try discriminate.
  apply Element_Read_head_adds in Eh.
  destruct Eh as (name & Hn & (_ & _ & N1 & H1 & new1 & A1) & Hk).
  cbn [Element_with_content Element_with_name e_content e_name e_attributes
       e_children] in Hn, N1, H1, A1.
  assert (Hattr : has_attributes kind = false -> new1 = []).
  { intros Ha. specialize (Hk Ha). subst r. cbn [flow_element] in A1.
    cbn [Element_with_name Element_with_content e_attributes] in A1.
    rewrite <- (app_nil_r (e_attributes this)) in A1 at 1.
    apply app_inv_head in A1. symmetry. exact A1. }
  assert (Hstop : e = flow_element r ->
             Text_identifier content (name_offset kind) = Val (e_name e)
             /\ (exists new : list Attribute,
                    e_attributes e = e_attributes this ++ new
                    /\ (has_attributes kind = false -> new = []))
             /\ (exists new : list Element,
                    e_children e = e_children this ++ map NodeElement new
                    /\ (kind <> KindOpen -> new = []))).
  { intros ->. rewrite N1. split; [exact Hn |]. split.
    - exists new1. split; assumption.
    - exists []. cbn [map]. rewrite app_nil_r. split; [exact H1 | reflexivity]. }
  destruct r as [this1 x | this1 x | this1 er1]; cbn [flow_element] in *;
    [| | apply Val_inj in H; injection H as <- _; apply Hstop; reflexivity].
  - unfold Element_Read_content in H.
    destruct (Kind_eqb KindOpen kind) eqn:Ek;
      [| apply Val_inj in H; injection H as <- _; apply Hstop; reflexivity].
    destruct (Element_Read_body content x (len content)) as [[text |] | |];
      cbn [bind] in H; try discriminate;
      [| apply Val_inj in H; injection H as <- _; apply Hstop; reflexivity].
    destruct (TextList_Read [] url text) as [[tokens [e0 |]] | |];
      cbn [bind] in H; try discriminate;
      [apply Val_inj in H; injection H as <- _; apply Hstop; reflexivity |].
    destruct (Element_Read_siblings (Element_Read_fuel fuel Element_zero) url
                tokens 0 [] this1) as [[s o] | |] eqn:Es;
      cbn [bind fst snd] in H; try discriminate.
    apply Val_inj in H. injection H as <- _.
    pose proof (siblings_name_attributes _ _ _ _ _ _ _ _ Es) as [Ns As].
    apply siblings_extend in Es. destruct Es as (_ & _ & new & Hc).
    rewrite Ns, N1, As. split; [exact Hn |]. split.
    + exists new1. split; assumption.
    + exists new. rewrite Hc, H1. split; [reflexivity |].
      intros Hno. exfalso. apply Hno. unfold Kind_eqb in Ek.
      apply Z.eqb_eq in Ek. symmetry. exact Ek.
  - unfold Element_Read_content in H.
    destruct (Kind_eqb KindOpen kind) eqn:Ek;
      [| apply Val_inj in H; injection H as <- _; apply Hstop; reflexivity].
    destruct (Element_Read_body content x (len content)) as [[text |] | |];
      cbn [bind] in H; try discriminate;
      [| apply Val_inj in H; injection H as <- _; apply Hstop; reflexivity].
    destruct (TextList_Read [] url text) as [[tokens [e0 |]] | |];
      cbn [bind] in H; try discriminate;
      [apply Val_inj in H; injection H as <- _; apply Hstop; reflexivity |].
    destruct (Element_Read_siblings (Element_Read_fuel fuel Element_zero) url
                tokens 0 [] this1) as [[s o] | |] eqn:Es;
      cbn [bind fst snd] in H; try discriminate.
    apply Val_inj in H. injection H as <- _.
    pose proof (siblings_name_attributes _ _ _ _ _ _ _ _ Es) as [Ns As].
    apply siblings_extend in Es. destruct Es as (_ & _ & new & Hc).
    rewrite Ns, N1, As. split; [exact Hn |]. split.
    + exists new1. split; assumption.
    + exists new. rewrite Hc, H1. split; [reflexivity |].
      intros Hno. exfalso. apply Hno. unfold Kind_eqb in Ek.
      apply Z.eqb_eq in Ek. symmetry. exact Ek.
Qed.

(** X10. Whatever [Element.Read] returns, with or without an error, keeps
    the parent of the receiver and holds the content read; the attributes
    and the children of the receiver stay in front, and every child
    appended is an Element (never a Text node). *)
Theorem X10_element_read_keeps_and_appends :
  forall (fuel : nat) (this : Element) (url : string) (content : Text)
         (e : Element) (er : option error),
    Element_Read_fuel fuel this url content = Val (e, er) ->
    e_parent e = e_parent this
    /\ e_content e = content
    /\ (exists new : list Attribute, e_attributes e = e_attributes this ++ new)
    /\ (exists new : list Element,
           e_children e = e_children this ++ map NodeElement new).
Proof.
  intros fuel this url content e er H.
  apply Element_Read_changes in H.
  destruct H as (P & C & _ & (na & A & _) & (nc & Hc & _)).
  repeat split; try assumption; [exists na | exists nc]; assumption.
Qed.

Lemma X10_element_read_witness :
  e_content nested_element = nested_body
  /\ exists new : list Element,
      e_children nested_element = [] ++ map NodeElement new.
Proof.
  destruct (X10_element_read_keeps_and_appends
              (S (List.length nested_body)) Element_zero "u" nested_body
              nested_element None) as (_ & C & _ & N).
  - vm_compute. reflexivity.
  - split; [exact C | exact N].
Defined.

(** X11. The name that [Element.Read] stores is [Text.identifier] of the
    content at the offset of the kind: 1 for Open and Solitary, 2 for
    Declaration, Instruction and Close, 0 for any other kind. *)
Theorem X11_element_name_is_the_identifier :
  forall (fuel : nat) (this : Element) (url : string) (content : Text)
         (e : Element) (er : option error),
    Element_Read_fuel fuel this url content = Val (e, er) ->
    Text_identifier content (name_offset (Text_KindOf content))
    = Val (e_name e)
    /\ In (name_offset (Text_KindOf content)) [0; 1; 2]
    /\ (Text_KindOf content = KindOpen \/ Text_KindOf content = KindSolitary ->
        name_offset (Text_KindOf content) = 1)
    /\ (Text_KindOf content = KindDeclaration
        \/ Text_KindOf content = KindInstruction
        \/ Text_KindOf content = KindClose ->
        name_offset (Text_KindOf content) = 2).
Proof.
  intros fuel this url content e er H.
  apply Element_Read_changes in H. destruct H as (_ & _ & N & _).
  assert (Hk : Element_KindOf (Element_with_content this content)
               = Text_KindOf content).
  { unfold Element_KindOf. cbn [Element_with_content e_content].
    destruct (len content =? 0) eqn:E; [| reflexivity].
    apply Z.eqb_eq in E. destruct content; [reflexivity |].
    rewrite len_cons in E. pose proof (len_nonneg content). lia. }
  rewrite Hk in N. split; [exact N |]. split.
  - unfold name_offset.
    repeat match goal with
           | |- context [if ?c then _ else _] => destruct c
           end; cbn [In]; tauto.
  - split.
    + intros [-> | ->]; reflexivity.
    + intros [-> | [-> | ->]]; reflexivity.
Qed.

Lemma X11_element_name_witness :
  Text_identifier (bytes "</svg>") 2 = Val (bytes "svg").
Proof.
  destruct (X11_element_name_is_the_identifier
              1 Element_zero "u" (bytes "</svg>")
              (mkElement None (bytes "</svg>") (bytes "svg") [] []) None)
    as (N & _).
  - vm_compute. reflexivity.
  - exact N.
Defined.

(** X12. Only an Open span gets children, and only a Declaration,
    Instruction, Open or Solitary span gets attributes: on any other kind
    (Close, Text, Data, Undefined) [Element.Read] returns a nil error and
    the receiver with the content and the name set and nothing else
    changed, and on a Solitary span the children are those of the
    receiver. *)
Theorem X12_children_and_attributes_by_kind :
  forall (fuel : nat) (this : Element) (url : string) (content : Text)
         (e : Element) (er : option error),
    Element_Read_fuel fuel this url content = Val (e, er) ->
    (Text_KindOf content <> KindOpen -> e_children e = e_children this)
    /\ (has_attributes (Text_KindOf content) = false ->
        e_attributes e = e_attributes this /\ e_children e = e_children this
        /\ er = None).
Proof.
  intros fuel this url content e er H.
  pose proof (Element_Read_nil_error _ _ _ _ _ _ H) as Her.
  apply Element_Read_changes in H.
  destruct H as (_ & _ & _ & (na & A & Ha) & (nc & C & Hc)).
  assert (Hk : Element_KindOf (Element_with_content this content)
               = Text_KindOf content).
  { unfold Element_KindOf. cbn [Element_with_content e_content].
    destruct (len content =? 0) eqn:E; [| reflexivity].
    apply Z.eqb_eq in E. destruct content; [reflexivity |].
    rewrite len_cons in E. pose proof (len_nonneg content). lia. }
  rewrite Hk in Ha, Hc. split.
  - intros Hno. rewrite C, (Hc Hno). cbn [map]. apply app_nil_r.
  - intros Hat. split; [| split].
    + rewrite A, (Ha Hat). apply app_nil_r.
    + rewrite C, Hc; [cbn [map]; apply app_nil_r |].
      intros E. rewrite E in Hat. discriminate.
    + exact Her.
Qed.

Lemma X12_by_kind_witness :
  e_children (mkElement None (bytes "<br/>") (bytes "br") [] []) = []
  /\ e_attributes (mkElement None (bytes "</svg>") (bytes "svg") [] []) = [].
Proof.
  split.
  - apply (proj1 (X12_children_and_attributes_by_kind
                    1 Element_zero "u" (bytes "<br/>")
                    (mkElement None (bytes "<br/>") (bytes "br") [] []) None
                    ltac:(vm_compute; reflexivity))).
    vm_compute. discriminate.
  - apply (proj2 (X12_children_and_attributes_by_kind
                    1 Element_zero "u" (bytes "</svg>")
                    (mkElement None (bytes "</svg>") (bytes "svg") [] []) None
                    ltac:(vm_compute; reflexivity))).
    vm_compute. reflexivity.
Defined.

(** ** An Open tag without attributes *)

Lemma window_cons (src : Text) (ofs z : Z) (b : byte) :
  byte_at src ofs = Some b -> ofs < z ->
  prior.window src ofs z = b :: prior.window src (ofs + 1) z.
Proof.
  intros Hb Hz. unfold prior.window.
  pose proof (byte_at_Some _ _ _ Hb) as Hr.
  unfold byte_at in Hb. destruct (ofs <? 0) eqn:E0; [discriminate |].
  replace (Z.to_nat (ofs + 1)) with (S (Z.to_nat ofs)) by lia.
  replace (Z.to_nat (z - ofs)) with (S (Z.to_nat (z - (ofs + 1)))) by lia.
  revert Hb. generalize (Z.to_nat ofs) as n.
  generalize (Z.to_nat (z - (ofs + 1))) as m. clear.
  intros m n. revert src. induction n as [| n IH]; intros src Hb.
  - destruct src; [discriminate |]. injection Hb as ->. reflexivity.
  - destruct src; [discriminate |]. cbn [nth_error] in Hb.
    cbn [skipn]. apply IH. exact Hb.
Qed.

Lemma Class_off_class (src : Text) (ofs z : Z) (clop : byte -> bool) (b : byte) :
  byte_at src ofs = Some b -> ofs < z -> clop b = false ->
  span.Class src ofs z clop = -1.
Proof.
  intros Hb Hz Hc. unfold span.Class, prior.class.
  rewrite (window_cons _ _ _ _ Hb Hz). cbn [prior.class_loop].
  rewrite Hc. reflexivity.
Qed.

Lemma First_here (src : Text) (ofs z : Z) (ch b : byte) :
  byte_at src ofs = Some b -> ofs < z -> byte_eqb ch b = true ->
  span.First src ofs z ch = ofs.
Proof.
  intros Hb Hz Hc. unfold span.First, prior.scan.
  rewrite (window_cons _ _ _ _ Hb Hz). cbn [prior.find].
  rewrite Hc. reflexivity.
Qed.

(** X13. An Open span whose name is followed at once by [>], as
    [<p>one<b/>two</p>], gets no attribute and no child: the attribute
    loop stops on the [>], the search for the first [>] finds it at the
    offset [x] itself, and the guard [x < w] of the element content
    fails. *)
Theorem X13_open_tag_without_attributes_has_no_children :
  forall (fuel : nat) (this : Element) (url : string) (content name : Text),
    Text_KindOf content = KindOpen ->
    Text_identifier content 1 = Val name ->
    is_byte content (1 + len name) ">" = true ->
    Element_Read_fuel (S fuel) this url content
    = Val (mkElement (e_parent this) content name (e_attributes this)
                     (e_children this), None).
Proof.
  intros fuel this url content name Hk Hn Hgt.
  cbn [Element_Read_fuel].
  rewrite (KindOf_Open_not_empty this content Hk).
  unfold Element_Read_head.
  cbn [Element_with_content e_content e_parent e_name e_attributes e_children].
  change (name_offset KindOpen) with 1. rewrite Hn. cbn [bind].
  change (has_attributes KindOpen) with true. cbv iota.
  unfold is_byte in Hgt.
  destruct (byte_at content (1 + len name)) as [b |] eqn:Eb; [| discriminate].
  pose proof (byte_at_Some _ _ _ Eb) as Hr.
  destruct (Z.to_nat (len content)) as [| f] eqn:Ef; [lia |].
  cbn [Element_Read_attributes].
  replace (1 + len name <? len content) with true
    by (symmetry; apply Z.ltb_lt; lia).
  unfold Element_Read_attribute.
  cbn [Element_with_name Element_with_content e_content e_parent e_name
       e_attributes e_children].
  assert (Hws : span.WS b = false).
  { apply byte_eqb_true in Hgt. subst b. reflexivity. }
  rewrite (Class_off_class content (1 + len name) (len content) span.WS b Eb
             ltac:(lia) Hws).
  cbn [Z.ltb Z.compare bind].
  unfold Element_Read_content.
  cbn [Kind_eqb KindOpen Z.eqb Pos.eqb].
  unfold Element_Read_body.
  rewrite (First_here content (1 + len name) (len content) ">" b Eb
             ltac:(lia) Hgt).
  rewrite Z.ltb_irrefl. cbn [andb bind]. reflexivity.
Qed.

Lemma X13_plain_tag_witness :
  Element_Read Element_zero "u" plain_body
  = Val (mkElement None plain_body (bytes "p") [] [], None).
Proof.
  apply (X13_open_tag_without_attributes_has_no_children
           (List.length plain_body) Element_zero "u" plain_body (bytes "p"));
    reflexivity.
Defined.

(** ** The parent of the elements read *)

Lemma elements_element (e : Element) :
  elements (NodeElement e) = e :: flat_map elements (e_children e).
Proof. destruct e. reflexivity. Qed.

Lemma elements_document (d : Document) :
  elements (NodeDocument d) = flat_map elements (d_children d).
Proof. destruct d. reflexivity. Qed.

(** The loop over the tokens appends results of the reader only. *)
Lemma siblings_appends_results
      (Read : string -> Text -> go (Element * option error)) (url : string)
      (Q : Element -> Prop) :
  (forall u c el er, Read u c = Val (el, er) -> Q el) ->
  forall (tokens : TextList) (stack : Z) (body : Text) (this : Element)
         (s : siblings) (er : option error),
    Element_Read_siblings Read url tokens stack body this = Val (s, er) ->
    exists new : list Element,
      e_children (s_this s) = e_children this ++ map NodeElement new
      /\ Forall Q new.
Proof.
  intros HR. induction tokens as [| text tokens IH];
    intros stack body this s er H; cbn [Element_Read_siblings] in H.
  - apply Val_inj in H. injection H as <- _. exists [].
    cbn [map s_this]. rewrite app_nil_r. split; [reflexivity | constructor].
  - assert (Hend : forall st bd er',
               Val (mkSiblings this st bd, er') = Val (s, er) ->
               exists new : list Element,
                 e_children (s_this s) = e_children this ++ map NodeElement new
                 /\ Forall Q new).
    { intros st bd er' Hr. apply Val_inj in Hr. injection Hr as <- _.
      exists []. cbn [map s_this]. rewrite app_nil_r.
      split; [reflexivity | constructor]. }
    assert (Happ : forall el st bd,
               Q el ->
               Element_Read_siblings Read url tokens st bd
                 (Element_append this (NodeElement el)) = Val (s, er) ->
               exists new : list Element,
                 e_children (s_this s) = e_children this ++ map NodeElement new
                 /\ Forall Q new).
    { intros el st bd Hq Hr. apply IH in Hr. destruct Hr as (new & N & F).
      cbn [Element_append e_children] in N. exists (el :: new). split.
      - rewrite N, <- app_assoc. reflexivity.
      - constructor; assumption. }
    destruct (Kind_eqb (Text_KindOf text) KindOpen); [apply (IH _ _ _ _ _ H) |].
    destruct (Kind_eqb (Text_KindOf text) KindSolitary).
    { destruct (0 =? stack); [| apply (IH _ _ _ _ _ H)].
      destruct (Read url text) as [[el [e |]] | |] eqn:ER; cbn [bind] in H;
        try discriminate.
      - eapply Hend. exact H.
      - eapply Happ; [eapply HR; exact ER | exact H]. }
    destruct (Kind_eqb (Text_KindOf text) KindClose).
    { destruct (0 =? stack - 1); [| apply (IH _ _ _ _ _ H)].
      destruct (Read url (span.Cat body text)) as [[el [e |]] | |] eqn:ER;
        cbn [bind] in H; try discriminate.
      - eapply Hend. exact H.
      - eapply Happ; [eapply HR; exact ER | exact H]. }
    destruct (Kind_eqb (Text_KindOf text) KindText
              || Kind_eqb (Text_KindOf text) KindData);
      apply (IH _ _ _ _ _ H).
Qed.

Lemma Forall_flat_map_elements (P : Element -> Prop) (new : list Element) :
  Forall (fun el => Forall P (elements (NodeElement el))) new ->
  Forall P (flat_map elements (map NodeElement new)).
Proof.
  induction 1 as [| el new Hel _ IH]; cbn [map flat_map]; [constructor |].
  apply Forall_app. split; assumption.
Qed.

(** No Element of the tree that [Element.Read] builds on a receiver
    without parent has a parent. *)
Lemma Element_Read_parents_nil :
  forall (fuel : nat) (this : Element) (url : string) (content : Text)
         (e : Element) (er : option error),
    Element_Read_fuel fuel this url content = Val (e, er) ->
    Forall (fun el => e_parent el = None) (elements (NodeElement this)) ->
    Forall (fun el => e_parent el = None) (elements (NodeElement e)).
Proof.
  induction fuel as [| fuel IH]; intros this url content e er H Hthis;
    [discriminate |].
  rewrite elements_element in *. inversion Hthis as [| ? ? Hp Hch]. subst.
  pose proof (Element_Read_fuel_keeps _ _ _ _ _ _ H) as (P & _ & _).
  constructor; [congruence |].
  cbn [Element_Read_fuel] in H.
  destruct (Element_Read_head (Element_with_content this content) url
              (Element_KindOf (Element_with_content this content)))
    as [r | |] eqn:Eh; cbn [bind] in H; try discriminate.
  apply Element_Read_head_keeps in Eh.
  assert (Hsame : forall this1 : Element,
             keeps (Element_with_content this content) this1 ->
             Forall (fun el => e_parent el = None)
                    (flat_map elements (e_children this1))).
  { intros this1 (_ & _ & N). cbn [Element_with_content e_children] in N.
    rewrite N. exact Hch. }
  assert (Hcont : forall (this1 : Element) (x : Z),
             keeps (Element_with_content this content) this1 ->
             Element_Read_content (Element_Read_fuel fuel Element_zero) this1 url
               (Element_KindOf (Element_with_content this content)) content x
             = Val (e, er) ->
             Forall (fun el => e_parent el = None)
                    (flat_map elements (e_children e))).
  { intros this1 x K Hc. unfold Element_Read_content in Hc.
    destruct (Kind_eqb KindOpen
                (Element_KindOf (Element_with_content this content)));
      [| apply Val_inj in Hc; injection Hc as <- _; apply Hsame; exact K].
    destruct (Element_Read_body content x (len content)) as [[text |] | |];
      cbn [bind] in Hc; try discriminate;
      [| apply Val_inj in Hc; injection Hc as <- _; apply Hsame; exact K].
    destruct (TextList_Read [] url text) as [[tokens [e0 |]] | |];
      cbn [bind] in Hc; try discriminate;
      [apply Val_inj in Hc; injection Hc as <- _; apply Hsame; exact K |].
    destruct (Element_Read_siblings (Element_Read_fuel fuel Element_zero) url
                tokens 0 [] this1) as [[s o] | |] eqn:Es;
      cbn [bind fst snd] in Hc; try discriminate.
    apply Val_inj in Hc. injection Hc as <- _.
    apply (siblings_appends_results (Element_Read_fuel fuel Element_zero) url
             (fun el => Forall (fun el' => e_parent el' = None)
                               (elements (NodeElement el)))) in Es.
    - destruct Es as (new & N & F). rewrite N, flat_map_app.
      apply Forall_app. split; [apply Hsame; exact K |].
      apply Forall_flat_map_elements. exact F.
    - intros u c el er' Hr. apply (IH _ _ _ _ _ Hr).
      cbn. constructor; [reflexivity | constructor]. }
  destruct r as [this1 x | this1 x | this1 er1]; cbn [flow_keeps] in Eh.
  - eapply Hcont; eassumption.
  - eapply Hcont; eassumption.
  - apply Val_inj in H. injection H as <- _. apply Hsame. exact Eh.
Qed.

Lemma Document_Read_source_parents_nil
      (Read : string -> Text -> go (Element * option error)) (url : string) :
  (forall u c el er,
      Read u c = Val (el, er) ->
      Forall (fun el' => e_parent el' = None) (elements (NodeElement el))) ->
  forall (source : TextList) (body : Text) (this d : Document) (b : Text)
         (er : option error),
    Document_Read_source Read url source body this = Val (d, b, er) ->
    Forall (fun el => e_parent el = None) (elements (NodeDocument this)) ->
    Forall (fun el => e_parent el = None) (elements (NodeDocument d)).
Proof.
  intros HR. induction source as [| text source IH];
    intros body this d b er H Hthis; cbn [Document_Read_source] in H.
  - apply Val_inj in H. injection H as <- _ _. exact Hthis.
  - destruct (IsCode (Text_KindOf text)).
    + destruct (IsBody (Text_KindOf text)); [apply (IH _ _ _ _ _ H Hthis) |].
      destruct (Read url text) as [[el [e |]] | |] eqn:ER; cbn [bind] in H;
        try discriminate.
      * apply Val_inj in H. injection H as <- _ _. exact Hthis.
      * apply (IH _ _ _ _ _ H). rewrite elements_document in *.
        cbn [Document_append d_children]. rewrite flat_map_app.
        apply Forall_app. split; [exact Hthis |].
        cbn [flat_map]. rewrite app_nil_r. apply (HR _ _ _ _ ER).
    + destruct (IsText (Text_KindOf text)); [| apply (IH _ _ _ _ _ H Hthis)].
      destruct (0 =? len body); [| apply (IH _ _ _ _ _ H Hthis)].
      apply (IH _ _ _ _ _ H). rewrite elements_document in *.
      cbn [Document_append d_children]. rewrite flat_map_app.
      apply Forall_app. split; [exact Hthis |]. cbn. constructor.
Qed.

(** X14. The parser never sets a parent: no Element of the tree that
    [Document.Read] returns on a zero Document, at any depth of nesting,
    has a parent, so [Depth()] is 1 for every one of them. *)
Theorem X14_no_element_read_has_a_parent :
  forall (url : string) (content : Text) (d : Document) (er : option error),
    Document_Read Document_zero url content = Val (d, er) ->
    Forall (fun el => e_parent el = None /\ Element_Depth el = Val 1)
           (elements (NodeDocument d)).
Proof.
  intros url content d er H.
  assert (Hp : Forall (fun el => e_parent el = None)
                      (elements (NodeDocument d))).
  { assert (HR : forall u c el er',
               Element_Read Element_zero u c = Val (el, er') ->
               Forall (fun el' => e_parent el' = None)
                      (elements (NodeElement el))).
    { intros u c el er' Hr. unfold Element_Read in Hr.
      apply (Element_Read_parents_nil _ _ _ _ _ _ Hr).
      cbn. constructor; [reflexivity | constructor]. }
    unfold Document_Read in H. cbn [d_children Document_zero] in H.
    destruct (TextList_Read [] url content) as [[source o] | |] eqn:Et;
      cbn [bind] in H; try discriminate.
    pose proof (TextList_Read_nil_error _ _ _ _ _ Et). subst o.
    destruct (Document_Read_source (Element_Read Element_zero) url source []
                (mkDocument url content [])) as [[[d1 b] [e |]] | |] eqn:Es;
      cbn [bind] in H; try discriminate.
    - apply Val_inj in H. injection H as <- _.
      apply (Document_Read_source_parents_nil _ _ HR _ _ _ _ _ _ Es).
      cbn. constructor.
    - apply (Document_Read_source_parents_nil _ _ HR) in Es;
        [| cbn; constructor].
      destruct (Element_Read Element_zero url b) as [[el [e |]] | |] eqn:Er;
        cbn [bind] in H; try discriminate; apply Val_inj in H;
        injection H as <- _; [exact Es |].
      rewrite elements_document in *. cbn [Document_append d_children].
      rewrite flat_map_app. apply Forall_app. split; [exact Es |].
      cbn [flat_map]. rewrite app_nil_r. apply (HR _ _ _ _ Er). }
  apply (Forall_impl _ (P := fun el => e_parent el = None)); [| exact Hp].
  intros el Hel. split; [exact Hel |]. unfold Element_Depth. rewrite Hel.
  reflexivity.
Qed.

Lemma X14_no_parent_witness :
  Forall (fun el => e_parent el = None /\ Element_Depth el = Val 1)
         [scenario_A_a; scenario_A_b].
Proof.
  apply (X14_no_element_read_has_a_parent "u" scenario_A
           (mkDocument "u" scenario_A [NodeElement scenario_A_a]) None).
  vm_compute. reflexivity.
Defined.

(** ** Document.Read *)

Lemma Element_Read_top_nil_error (this : Element) (url : string) (content : Text)
      (e : Element) (er : option error) :
  Element_Read this url content = Val (e, er) -> er = None.
Proof. unfold Element_Read. apply Element_Read_nil_error. Qed.

(** The loop over the tokens of the document appends nodes and returns the
    error of the reader only. *)
Lemma Document_Read_source_appends
      (Read : string -> Text -> go (Element * option error)) (url : string) :
  (forall u c el er, Read u c = Val (el, er) -> er = None) ->
  forall (source : TextList) (body : Text) (this d : Document) (b : Text)
         (er : option error),
    Document_Read_source Read url source body this = Val (d, b, er) ->
    er = None
    /\ exists new : list Node, d_children d = d_children this ++ new.
Proof.
  intros HR. induction source as [| text source IH];
    intros body this d b er H; cbn [Document_Read_source] in H.
  - apply Val_inj in H. injection H as <- _ <-. split; [reflexivity |].
    exists []. rewrite app_nil_r. reflexivity.
  - destruct (IsCode (Text_KindOf text)).
    + destruct (IsBody (Text_KindOf text)); [apply (IH _ _ _ _ _ H) |].
      destruct (Read url text) as [[el [e |]] | |] eqn:ER; cbn [bind] in H;
        try discriminate.
      * apply HR in ER. discriminate.
      * apply IH in H. destruct H as (He & new & N). split; [exact He |].
        cbn [Document_append d_children] in N.
        exists (NodeElement el :: new). rewrite N, <- app_assoc. reflexivity.
    + destruct (IsText (Text_KindOf text)); [| apply (IH _ _ _ _ _ H)].
      destruct (0 =? len body); [| apply (IH _ _ _ _ _ H)].
      apply IH in H. destruct H as (He & new & N). split; [exact He |].
      cbn [Document_append d_children] in N.
      exists (NodeText text :: new). rewrite N, <- app_assoc. reflexivity.
Qed.

(** X15. Whenever [Document.Read] returns, its error is nil; the document
    holds the source string and the buffer; the children of the receiver
    stay in front; and the last child is an Element, the one read from the
    body collected, so a document read has at least one child, also on a
    buffer without any tag. *)
Theorem X15_document_read_always_ends_with_the_body_element :
  forall (this : Document) (url : string) (content : Text) (d : Document)
         (er : option error),
    Document_Read this url content = Val (d, er) ->
    er = None
    /\ d_source d = url
    /\ d_content d = content
    /\ exists (heads : list Node) (body : Element),
        d_children d = d_children this ++ heads ++ [NodeElement body].
Proof.
  intros this url content d er H. unfold Document_Read in H.
  destruct (TextList_Read [] url content) as [[source o] | |] eqn:Et;
    cbn [bind] in H; try discriminate.
  pose proof (TextList_Read_nil_error _ _ _ _ _ Et). subst o.
  destruct (Document_Read_source (Element_Read Element_zero) url source []
              (mkDocument url content (d_children this)))
    as [[[d1 b] o] | |] eqn:Es; cbn [bind] in H; try discriminate.
  pose proof (Document_Read_source_fields _ _ _ _ _ _ _ _ Es) as [F1 F2].
  apply (Document_Read_source_appends _ _
           (Element_Read_top_nil_error Element_zero)) in Es.
  destruct Es as (-> & heads & N). cbn [d_children d_source d_content] in *.
  destruct (Element_Read Element_zero url b) as [[el o] | |] eqn:Er;
    cbn [bind] in H; try discriminate.
  pose proof (Element_Read_top_nil_error _ _ _ _ _ Er). subst o.
  apply Val_inj in H. injection H as <- <-.
  cbn [Document_append d_source d_content d_children].
  repeat split; try assumption.
  exists heads, el. rewrite N, <- app_assoc. reflexivity.
Qed.

Lemma X15_document_read_witness :
  exists (heads : list Node) (body : Element),
    [NodeElement Element_zero] = [] ++ heads ++ [NodeElement body].
Proof.
  destruct (X15_document_read_always_ends_with_the_body_element
              Document_zero "u" []
              (mkDocument "u" [] [NodeElement Element_zero]) None)
    as (_ & _ & _ & H).
  - reflexivity.
  - exact H.
Defined.

Lemma KindOf_not_empty (text : Text) :
  Text_KindOf text <> KindUndefined -> text <> [].
Proof. intros H ->. apply H. reflexivity. Qed.

Lemma kinds_code_or_text (text : Text) :
  Text_KindOf text = KindUndefined
  \/ IsCode (Text_KindOf text) = true
  \/ IsText (Text_KindOf text) = true.
Proof.
  pose proof (Text_KindOf_range text) as H. unfold token_kinds in H.
  cbn [In] in H.
  destruct H as [H | [H | [H | [H | [H | [H | [H | [H | []]]]]]]]];
    rewrite <- H; try (left; reflexivity); try (right; left; reflexivity);
    right; right; reflexivity.
Qed.

(** The loop of [Document.Read] keeps every byte of its tokens when the
    head tokens come first. *)
Lemma Document_Read_source_round_trip
      (Read : string -> Text -> go (Element * option error)) (url : string) :
  reads_content Read ->
  forall (source : TextList) (body : Text) (this d : Document) (b : Text),
    Forall (fun t => Text_KindOf t <> KindUndefined) source ->
    (if 0 =? len body then prolog_first source
     else forallb (fun t => negb (is_head_token t)) source) = true ->
    Document_Read_source Read url source body this = Val (d, b, None) ->
    List.concat (map Node_Content (d_children d)) ++ b
    = List.concat (map Node_Content (d_children this)) ++ body
      ++ List.concat source.
Proof.
  intros HR. induction source as [| text source IH];
    intros body this d b Hk Hp H; cbn [Document_Read_source] in H.
  - apply Val_inj in H. injection H as <- <-. cbn [List.concat].
    rewrite app_nil_r. reflexivity.
  - inversion Hk as [| ? ? Hu Hk']. subst.
    assert (Hne : 0 < len text).
    { destruct text as [| c t]; [exfalso; apply Hu; reflexivity |].
      rewrite len_cons. pose proof (len_nonneg t). lia. }
    assert (Hcat : (0 =? len (span.Cat body text)) = false).
    { apply Z.eqb_neq. unfold span.Cat. rewrite len_app.
      pose proof (len_nonneg body). lia. }
    assert (Hnil : (0 =? len body) = true -> body = []).
    { intros E. apply Z.eqb_eq in E. destruct body as [| c t]; [reflexivity |].
      rewrite len_cons in E. pose proof (len_nonneg t). lia. }
    cbn [List.concat].
    pose proof (kinds_code_or_text text) as Hct.
    destruct (0 =? len body) eqn:E0.
    + cbn [prolog_first] in Hp.
      destruct (IsCode (Text_KindOf text)) eqn:Ec.
      * destruct (IsBody (Text_KindOf text)) eqn:Eb; cbn [andb] in Hp.
        { apply IH in H; [| exact Hk' | rewrite Hcat; exact Hp].
          rewrite H. unfold span.Cat. rewrite <- !app_assoc. reflexivity. }
        destruct (Read url text) as [[el [e |]] | |] eqn:ER; cbn [bind] in H;
          try discriminate.
        apply HR in ER.
        apply IH in H; [| exact Hk' | rewrite E0; exact Hp].
        rewrite H. cbn [Document_append d_children].
        rewrite map_app, concat_app. cbn [map List.concat Node_Content].
        rewrite ER, app_nil_r, (Hnil eq_refl).
        cbn [app]. rewrite <- !app_assoc. reflexivity.
      * cbn [andb] in Hp.
        destruct Hct as [Hz | [Hz | Hz]];
          [contradiction | discriminate |].
        rewrite Hz in H.
        apply IH in H; [| exact Hk' | rewrite E0; exact Hp].
        rewrite H. cbn [Document_append d_children].
        rewrite map_app, concat_app. cbn [map List.concat Node_Content].
        rewrite app_nil_r, (Hnil eq_refl).
        cbn [app]. rewrite <- !app_assoc. reflexivity.
    + cbn [forallb] in Hp. apply andb_prop in Hp. destruct Hp as [Hh Hp].
      unfold is_head_token in Hh.
      destruct (IsCode (Text_KindOf text)) eqn:Ec.
      * destruct (IsBody (Text_KindOf text)) eqn:Eb;
          [| cbn in Hh; discriminate].
        apply IH in H; [| exact Hk' | rewrite Hcat; exact Hp].
        rewrite H. unfold span.Cat. rewrite <- !app_assoc. reflexivity.
      * destruct Hct as [Hz | [Hz | Hz]];
          [contradiction | discriminate |].
        rewrite Hz in H.
        apply IH in H; [| exact Hk' | rewrite Hcat; exact Hp].
        rewrite H. unfold span.Cat. rewrite <- !app_assoc. reflexivity.
Qed.

(** ** The span operators of the earlier variant *)

Lemma nth_window (src : Text) (ofs z : Z) (k : nat) :
  0 <= ofs -> Z.of_nat k < z - ofs ->
  nth_error (prior.window src ofs z) k = byte_at src (ofs + Z.of_nat k).
Proof.
  intros H0 Hk. unfold prior.window, byte_at.
  rewrite nth_error_firstn, nth_error_skipn.
  replace (k <? Z.to_nat (z - ofs))%nat with true
    by (symmetry; apply Nat.ltb_lt; lia).
  replace (ofs + Z.of_nat k <? 0) with false
    by (symmetry; apply Z.ltb_ge; lia).
  f_equal. lia.
Qed.

Lemma window_length_exact (src : Text) (ofs z : Z) :
  0 <= ofs <= z -> z <= len src ->
  Z.of_nat (List.length (prior.window src ofs z)) = z - ofs.
Proof.
  intros H0 Hz. unfold prior.window, len in *.
  rewrite length_firstn, length_skipn. lia.
Qed.

Lemma firstn_window (src : Text) (ofs z : Z) (k : nat) :
  0 <= ofs -> Z.of_nat k <= z - ofs ->
  firstn k (prior.window src ofs z) = span_of src (ofs, ofs + Z.of_nat k).
Proof.
  intros H0 Hk. unfold prior.window, span_of. cbn [fst snd].
  rewrite firstn_firstn. f_equal. lia.
Qed.

Lemma find_spec (ch : byte) :
  forall (rest : Text) (ofs : Z),
    match prior.find rest ofs ch with
    | Some i => exists k : nat,
        i = ofs + Z.of_nat k /\ nth_error rest k = Some ch
        /\ free_of ch (firstn k rest) = true
    | None => free_of ch rest = true
    end.
Proof.
  induction rest as [| c rest IH]; intros ofs; cbn [prior.find].
  - reflexivity.
  - destruct (byte_eqb ch c) eqn:E.
    + apply byte_eqb_true in E. subst c. exists O.
      repeat split. lia.
    + specialize (IH (ofs + 1)).
      destruct (prior.find rest (ofs + 1) ch) as [i |].
      * destruct IH as (k & -> & Hn & Hf). exists (S k).
        cbn [nth_error firstn free_of forallb]. rewrite E. cbn [negb andb].
        repeat split; [lia | exact Hn | exact Hf].
      * cbn [free_of forallb]. rewrite E. exact IH.
Qed.

Lemma byte_at_is_byte (t : Text) (i : Z) (c : byte) :
  byte_at t i = Some c -> is_byte t i c = true.
Proof.
  intros H. unfold is_byte. rewrite H. unfold byte_eqb. apply Ascii.eqb_refl.
Qed.

Lemma scan_spec (this : Text) (ofs z : Z) (ch : byte) :
  0 <= ofs ->
  (is_byte this (prior.scan this ofs z ch) ch = true
   /\ ofs <= prior.scan this ofs z ch < z
   /\ free_of ch (span_of this (ofs, prior.scan this ofs z ch)) = true)
  \/ (prior.scan this ofs z ch = ofs
      /\ free_of ch (span_of this (ofs, z)) = true).
Proof.
  intros H0. unfold prior.scan.
  pose proof (find_spec ch (prior.window this ofs z) ofs) as H.
  destruct (prior.find (prior.window this ofs z) ofs ch) as [i |].
  - left. destruct H as (k & -> & Hn & Hf).
    assert (Hk : Z.of_nat k < z - ofs).
    { pose proof (window_length this ofs z).
      assert (k < List.length (prior.window this ofs z))%nat
        by (apply nth_error_Some; rewrite Hn; discriminate).
      lia. }
    rewrite nth_window in Hn by lia.
    rewrite firstn_window in Hf by lia.
    repeat split; [apply byte_at_is_byte; exact Hn | lia | lia | exact Hf].
  - right. split; [reflexivity | exact H].
Qed.

(** X16. [Text.class] on offsets inside the text ([0 <= ofs],
    [len <= len(this)]) never panics and returns -1 exactly when there is
    no byte at [ofs] below [len] or that byte is outside the class;
    otherwise it returns the index of the last byte of the longest run of
    class bytes that starts at [ofs]: every byte from [ofs] to the result
    is in the class, and the run ends at [len] or at a byte outside the
    class. *)
Theorem X16_class_is_the_end_of_the_run :
  forall (this : Text) (ofs z : Z) (clop : byte -> bool),
    0 <= ofs -> z <= len this ->
    (prior.class this ofs z clop = -1
     /\ (z <= ofs \/ exists b, byte_at this ofs = Some b /\ clop b = false))
    \/ (ofs <= prior.class this ofs z clop < z
        /\ forallb clop (span_of this (ofs, prior.class this ofs z clop + 1))
           = true
        /\ (prior.class this ofs z clop + 1 = z
            \/ exists b,
                byte_at this (prior.class this ofs z clop + 1) = Some b
                /\ clop b = false)).
Proof.
  intros this ofs z clop H0 Hz. unfold prior.class. rewrite class_loop_run.
  pose proof (run_le clop (prior.window this ofs z)) as Hle.
  pose proof (window_length this ofs z) as Hwl.
  destruct (Nat.eqb (run clop (prior.window this ofs z)) 0) eqn:E.
  - left. split; [reflexivity |]. apply Nat.eqb_eq in E.
    destruct (Z_le_gt_dec z ofs) as [Hzo | Hzo]; [left; exact Hzo | right].
    pose proof (window_length_exact this ofs z ltac:(lia) Hz) as Hl.
    destruct (prior.window this ofs z) as [| c rest] eqn:Ew;
      [cbn [List.length] in Hl; lia |].
    exists c. cbn [run] in E.
    assert (Hn : nth_error (prior.window this ofs z) 0 = Some c)
      by (rewrite Ew; reflexivity).
    rewrite nth_window in Hn by lia. rewrite Z.add_0_r in Hn.
    split; [exact Hn |]. destruct (clop c); [discriminate | reflexivity].
  - right. apply Nat.eqb_neq in E.
    assert (Hzo : ofs < z) by lia.
    pose proof (window_length_exact this ofs z ltac:(lia) Hz) as Hl.
    split; [lia |]. split.
    + replace (ofs + Z.of_nat (run clop (prior.window this ofs z)) - 1 + 1)
        with (ofs + Z.of_nat (run clop (prior.window this ofs z))) by lia.
      rewrite <- (firstn_window this ofs z) by lia. apply run_firstn.
    + destruct (Nat.eq_dec (run clop (prior.window this ofs z))
                           (List.length (prior.window this ofs z)))
        as [Hr | Hr]; [left; lia | right].
      destruct (run_split clop (prior.window this ofs z) ltac:(lia))
        as (c & rest & Hs & Hc).
      exists c. split; [| exact Hc].
      replace (ofs + Z.of_nat (run clop (prior.window this ofs z)) - 1 + 1)
        with (ofs + Z.of_nat (run clop (prior.window this ofs z))) by lia.
      rewrite <- (nth_window this ofs z) by lia.
      pose proof (f_equal
                    (fun l => nth_error l (run clop (prior.window this ofs z)))
                    Hs) as Hn.
      cbn beta in Hn. rewrite Hn.
      rewrite nth_error_app2; rewrite length_firstn; [| lia].
      replace (_ - _)%nat with O by lia. reflexivity.
Qed.

Lemma X16_class_witness :
  (prior.class (bytes "ab c") 0 4 prior.id = -1
   /\ (4 <= 0 \/ exists b, byte_at (bytes "ab c") 0 = Some b
                           /\ prior.id b = false))
  \/ (0 <= prior.class (bytes "ab c") 0 4 prior.id < 4
      /\ forallb prior.id
           (span_of (bytes "ab c")
                    (0, prior.class (bytes "ab c") 0 4 prior.id + 1)) = true
      /\ (prior.class (bytes "ab c") 0 4 prior.id + 1 = 4
          \/ exists b,
              byte_at (bytes "ab c")
                      (prior.class (bytes "ab c") 0 4 prior.id + 1) = Some b
              /\ prior.id b = false)).
Proof.
  apply (X16_class_is_the_end_of_the_run (bytes "ab c") 0 4 prior.id).
  - lia.
  - apply Z.leb_le. vm_compute. reflexivity.
Defined.

(** The bytes of a span that is free of [ch], read by index. *)
Lemma free_of_span_index (this : Text) (ofs e : Z) (ch : byte) :
  0 <= ofs -> e <= len this ->
  free_of ch (span_of this (ofs, e)) = true ->
  forall i : Z, ofs <= i < e ->
    exists b, index this i = Val b /\ byte_eqb ch b = false.
Proof.
  intros H0 He Hf i Hi.
  assert (Hn : nth_error (prior.window this ofs e) (Z.to_nat (i - ofs))
               = byte_at this i).
  { rewrite nth_window by lia. f_equal. lia. }
  unfold index, byte_at in *.
  replace (i <? 0) with false in * by (symmetry; apply Z.ltb_ge; lia).
  replace (len this <=? i) with false by (symmetry; apply Z.leb_gt; lia).
  cbn [orb].
  destruct (nth_error this (Z.to_nat i)) as [b |] eqn:E.
  - exists b. split; [reflexivity |].
    apply nth_error_In in Hn. unfold free_of in Hf.
    rewrite forallb_forall in Hf. specialize (Hf b Hn).
    destruct (byte_eqb ch b); [discriminate | reflexivity].
  - exfalso. apply nth_error_None in E. unfold len in He. lia.
Qed.

(** X17. [Text.scan] on offsets inside the text ([0 <= ofs],
    [len <= len(this)]) never indexes out of range; no byte from [ofs] up
    to the result is [ch]; and the result is the index of a byte [ch]
    below [len], or [ofs] itself when no byte from [ofs] to [len] is
    [ch]: so the result [ofs] does not tell a byte found at [ofs] from
    none found. *)
Theorem X17_scan_is_the_first_or_the_offset :
  forall (this : Text) (ofs z : Z) (ch : byte),
    0 <= ofs -> z <= len this ->
    (forall i : Z, ofs <= i < prior.scan this ofs z ch ->
       exists b, index this i = Val b /\ byte_eqb ch b = false)
    /\ ((index this (prior.scan this ofs z ch) = Val ch
         /\ ofs <= prior.scan this ofs z ch < z)
        \/ (prior.scan this ofs z ch = ofs
            /\ forall i : Z, ofs <= i < z ->
                 exists b, index this i = Val b /\ byte_eqb ch b = false)).
Proof.
  intros this ofs z ch H0 Hz.
  destruct (scan_spec this ofs z ch H0) as [(Hb & Hr & Hf) | [Hr Hf]].
  - split; [apply free_of_span_index; [lia | lia | exact Hf] |].
    left. split; [| exact Hr].
    unfold is_byte in Hb.
    destruct (byte_at this (prior.scan this ofs z ch)) as [b |] eqn:E;
      [| discriminate].
    apply byte_eqb_true in Hb. subst b.
    unfold index, byte_at in *.
    replace (prior.scan this ofs z ch <? 0) with false in *
      by (symmetry; apply Z.ltb_ge; lia).
    replace (len this <=? prior.scan this ofs z ch) with false
      by (symmetry; apply Z.leb_gt; lia).
    cbn [orb]. rewrite E. reflexivity.
  - split; [intros i Hi; lia |].
    right. split; [exact Hr |].
    apply free_of_span_index; [lia | lia | exact Hf].
Qed.

Lemma X17_scan_witness :
  (forall i : Z, 0 <= i < prior.scan (bytes "a<b>") 0 4 ">" ->
     exists b, index (bytes "a<b>") i = Val b /\ byte_eqb ">" b = false)
  /\ ((index (bytes "a<b>") (prior.scan (bytes "a<b>") 0 4 ">") = Val ">"%char
       /\ 0 <= prior.scan (bytes "a<b>") 0 4 ">" < 4)
      \/ (prior.scan (bytes "a<b>") 0 4 ">" = 0
          /\ forall i : Z, 0 <= i < 4 ->
               exists b, index (bytes "a<b>") i = Val b
                         /\ byte_eqb ">" b = false)).
Proof.
  apply (X17_scan_is_the_first_or_the_offset (bytes "a<b>") 0 4 ">").
  - lia.
  - apply Z.leb_le. vm_compute. reflexivity.
Defined.

(** ** The tokens of TextList.Read *)

Lemma in_order_weaken (z : Z) (offs : list (Z * Z)) (x x' : Z) :
  x <= x' -> in_order x' z offs = true -> in_order x z offs = true.
Proof.
  destruct offs as [| [b e] offs]; intros Hx H; [reflexivity |].
  cbn [in_order] in *.
  apply andb_prop in H. destruct H as [H H4].
  apply andb_prop in H. destruct H as [H H3].
  apply andb_prop in H. destruct H as [H1 H2].
  apply Z.leb_le in H1.
  rewrite H2, H3, H4. replace (x <=? b) with true; [reflexivity |].
  symmetry. apply Z.leb_le. lia.
Qed.

Lemma free_of_is_byte (ch : byte) (t : Text) (i : Z) :
  free_of ch t = true -> is_byte t i ch = false.
Proof.
  intros H. unfold is_byte, byte_at.
  destruct (i <? 0); [reflexivity |].
  destruct (nth_error t (Z.to_nat i)) as [b |] eqn:E; [| reflexivity].
  apply nth_error_In in E.
  unfold free_of in H. rewrite forallb_forall in H. specialize (H b E).
  destruct (byte_eqb ch b); [discriminate | reflexivity].
Qed.

(** A span that [Text.read] finds ([x < read(x)]) is a code span or a text
    span. *)
Lemma read_span (this : Text) (x : Z) :
  0 <= x -> x < prior.read this x ->
  code_span this (x, prior.read this x + 1)
  || text_span this (x, prior.read this x + 1) = true.
Proof.
  intros H0 Hlt. unfold prior.read in *.
  destruct (x <? len this); [| lia].
  destruct (x <? len this - 1); [| lia].
  destruct (byte_at this x) as [b |] eqn:Eb; [| lia].
  destruct (byte_eqb "<" b) eqn:E.
  - apply byte_eqb_true in E. subst b.
    destruct (scan_spec this x (len this) ">" H0) as [(Hb & Hr & Hf) | [Hr _]];
      [| lia].
    unfold code_span. cbn [fst snd].
    replace (prior.scan this x (len this) ">" + 1 - 1)
      with (prior.scan this x (len this) ">") by lia.
    rewrite (byte_at_is_byte _ _ _ Eb), Hb, Hf. reflexivity.
  - destruct (scan_spec this x (len this) "<" H0) as [(Hb & Hr & Hf) | [Hr _]];
      [| lia].
    unfold text_span. cbn [fst snd].
    replace (prior.scan this x (len this) "<" - 1 + 1)
      with (prior.scan this x (len this) "<") by lia.
    rewrite Hb, Hf. apply orb_true_r.
Qed.

Section TokenSpans.

Variable forward : Text -> Z -> Z -> Z.

(** One iteration appends nothing, or the span from the cursor to the new
    cursor; what it appends does not depend on the list. *)
Lemma step_span (this : TextList) (content : Text) (x z : Z)
      (l : TextList) (x' : Z) :
  0 <= x ->
  TextList_Read_step forward this content x z = Val (l, x') ->
  x < x'
  /\ exists offs : list (Z * Z),
      (offs = [] \/ (offs = [(x, x')] /\ x + 1 < x' <= len content
                     /\ x' = forward content x z + 1
                     /\ Text_KindOf (span_of content (x, x')) <> KindUndefined))
      /\ l = this ++ map (span_of content) offs
      /\ forall this' : TextList,
          TextList_Read_step forward this' content x z
          = Val (this' ++ map (span_of content) offs, x').
Proof.
  intros Hx H. pose proof (step_cursor forward _ _ _ _ _ _ H) as [Hlt _].
  split; [exact Hlt |].
  unfold TextList_Read_step in H.
  destruct (x <? forward content x z) eqn:E.
  - destruct (slice content x (forward content x z + 1)) as [text | |] eqn:Es;
      cbn [bind] in H; try discriminate.
    pose proof (slice_Val _ _ _ _ Es) as (Hb & He & Ht).
    assert (Hs : text = span_of content (x, forward content x z + 1))
      by exact Ht.
    destruct (negb (Kind_eqb KindUndefined (Text_KindOf text))) eqn:Ek;
      apply Val_inj in H; injection H as <- <-.
    + exists [(x, forward content x z + 1)]. cbn [map]. rewrite <- Hs.
      split; [| split; [reflexivity |]].
      * right. split; [reflexivity |]. apply Z.ltb_lt in E. split; [lia |].
        split; [reflexivity |].
        intros Hu. rewrite Hu in Ek. discriminate.
      * intros this'. unfold TextList_Read_step. rewrite E, Es.
        unfold bind. rewrite Ek. reflexivity.
    + exists []. cbn [map]. split; [left; reflexivity |].
      split; [rewrite app_nil_r; reflexivity |].
      intros this'. unfold TextList_Read_step. rewrite E, Es.
      unfold bind. rewrite Ek, app_nil_r. reflexivity.
  - apply Val_inj in H. injection H as <- <-.
    exists []. cbn [map]. split; [left; reflexivity |].
    split; [rewrite app_nil_r; reflexivity |].
    intros this'. unfold TextList_Read_step. rewrite E, app_nil_r.
    reflexivity.
Qed.

(** The loop appends spans of the content in order, each of a kind that
    is not Undefined and cut where the scanner says, and the same spans to
    any list. *)
Lemma loop_spans (content : Text) (z : Z) :
  forall (fuel : nat) (this : TextList) (x : Z) (l : TextList),
    0 <= x ->
    TextList_Read_loop forward fuel this content x z = Val l ->
    exists offs : list (Z * Z),
      in_order x (len content) offs = true
      /\ Forall (fun t => Text_KindOf t <> KindUndefined)
                (map (span_of content) offs)
      /\ l = this ++ map (span_of content) offs
      /\ (forall this' : TextList,
          TextList_Read_loop forward fuel this' content x z
          = Val (this' ++ map (span_of content) offs))
      /\ Forall (fun p => 0 <= fst p < forward content (fst p) z
                          /\ snd p = forward content (fst p) z + 1) offs.
Proof.
  induction fuel as [| fuel IH]; intros this x l Hx H;
    cbn [TextList_Read_loop] in H |- *.
  - destruct (x <? z); [discriminate |].
    apply Val_inj in H. subst l. exists []. cbn [map in_order].
    repeat split; [constructor | rewrite app_nil_r; reflexivity | |
                   constructor].
    intros this'. rewrite app_nil_r. reflexivity.
  - destruct (x <? z) eqn:E.
    + destruct (TextList_Read_step forward this content x z)
        as [[l1 x1] | |] eqn:Es; cbn [bind fst snd] in H; try discriminate.
      apply step_span in Es; [| exact Hx].
      destruct Es as (Hlt & offs1 & Hoffs & -> & Hany).
      apply IH in H; [| lia].
      destruct H as (offs & Ho & Hk & -> & Hloop & Hfw).
      exists (offs1 ++ offs). rewrite map_app.
      repeat split.
      * destruct Hoffs as [-> | (-> & Hb & _)]; cbn [app in_order].
        { apply (in_order_weaken _ _ x x1); [lia | exact Ho]. }
        rewrite Ho.
        replace (x <=? x) with true by (symmetry; apply Z.leb_le; lia).
        replace (x + 1 <? x1) with true by (symmetry; apply Z.ltb_lt; lia).
        replace (x1 <=? len content) with true
          by (symmetry; apply Z.leb_le; lia).
        reflexivity.
      * apply Forall_app. split; [| exact Hk].
        destruct Hoffs as [-> | (-> & _ & _ & Hd)]; cbn [map];
          [constructor | constructor; [exact Hd | constructor]].
      * rewrite app_assoc. reflexivity.
      * intros this'. rewrite Hany. cbn [bind fst snd].
        rewrite Hloop, app_assoc. reflexivity.
      * apply Forall_app. split; [| exact Hfw].
        destruct Hoffs as [-> | (-> & Hb & Hf & _)];
          [constructor | constructor; [cbn [fst snd]; lia | constructor]].
    + apply Val_inj in H. subst l. exists []. cbn [map in_order].
      repeat split; [constructor | rewrite app_nil_r; reflexivity | |
                     constructor].
      intros this'. rewrite app_nil_r. reflexivity.
Qed.

(** With a scanner that is [Text.read] the spans are code spans or text
    spans. *)
Hypothesis forward_is_read :
  forall (content : Text) (x : Z),
    0 <= x -> forward content x (len content) = prior.read content x.

Lemma Read_with_shapes (this : TextList) (url : string) (content : Text)
      (l : TextList) (er : option error) :
  TextList_Read_with forward this url content = Val (l, er) ->
  exists offs : list (Z * Z),
    in_order 0 (len content) offs = true
    /\ l = this ++ map (span_of content) offs
    /\ forallb (fun p => code_span content p || text_span content p) offs
       = true.
Proof.
  unfold TextList_Read_with. intros H.
  destruct (TextList_Read_loop forward (Z.to_nat (len content)) this
              content 0 (len content)) as [l1 | |] eqn:El;
    cbn [bind] in H; try discriminate.
  apply Val_inj in H. injection H as <- _.
  apply loop_spans in El; [| lia].
  destruct El as (offs & Ho & _ & -> & _ & Hfw).
  exists offs. repeat split; try assumption.
  apply forallb_forall. intros [b e] Hin.
  rewrite Forall_forall in Hfw. specialize (Hfw _ Hin). cbn [fst snd] in Hfw.
  destruct Hfw as [Hb ->]. rewrite forward_is_read in * by lia.
  apply read_span; lia.
Qed.

End TokenSpans.

Lemma TextList_Read_spans (this : TextList) (url : string) (content : Text)
      (l : TextList) (er : option error) :
  TextList_Read this url content = Val (l, er) ->
  exists offs : list (Z * Z),
    in_order 0 (len content) offs = true
    /\ Forall (fun t => Text_KindOf t <> KindUndefined)
              (map (span_of content) offs)
    /\ l = this ++ map (span_of content) offs
    /\ forall this' : TextList,
        TextList_Read this' url content
        = Val (this' ++ map (span_of content) offs, None).
Proof.
  unfold TextList_Read, TextList_Read_with. intros H.
  destruct (TextList_Read_loop forward_span (Z.to_nat (len content)) this
              content 0 (len content)) as [l1 | |] eqn:El;
    cbn [bind] in H; try discriminate.
  apply Val_inj in H. injection H as <- _.
  apply loop_spans in El; [| lia].
  destruct El as (offs & Ho & Hk & -> & Hloop & _).
  exists offs. repeat split; try assumption.
  intros this'. rewrite Hloop. reflexivity.
Qed.

(** X18. What [TextList.Read] returns is the receiver followed by spans
    [content[b:e]] of the buffer, taken in the order of the buffer without
    overlap, each of two bytes or more and of a kind that is not
    Undefined; the spans appended do not depend on the receiver. *)
Theorem X18_tokens_are_spans_of_the_buffer_in_order :
  forall (this : TextList) (url : string) (content : Text) (l : TextList)
         (er : option error),
    TextList_Read this url content = Val (l, er) ->
    exists offs : list (Z * Z),
      in_order 0 (len content) offs = true
      /\ Forall (fun t => Text_KindOf t <> KindUndefined)
                (map (span_of content) offs)
      /\ l = this ++ map (span_of content) offs
      /\ TextList_Read [] url content = Val (map (span_of content) offs, None).
Proof.
  intros this url content l er H.
  apply TextList_Read_spans in H. destruct H as (offs & Ho & Hk & -> & Hany).
  exists offs. repeat split; try assumption.
  rewrite Hany. reflexivity.
Qed.

Lemma X18_tokens_witness :
  exists offs : list (Z * Z),
    in_order 0 (len scenario_B) offs = true
    /\ Forall (fun t => Text_KindOf t <> KindUndefined)
              (map (span_of scenario_B) offs)
    /\ tokens_of scenario_B = [] ++ map (span_of scenario_B) offs
    /\ TextList_Read [] "u" scenario_B
       = Val (map (span_of scenario_B) offs, None).
Proof.
  apply (X18_tokens_are_spans_of_the_buffer_in_order
           [] "u" scenario_B (tokens_of scenario_B) None).
  vm_compute. reflexivity.
Defined.

Section NoTokens.

Variable forward : Text -> Z -> Z -> Z.

Hypothesis forward_is_read :
  forall (content : Text) (x : Z),
    0 <= x -> forward content x (len content) = prior.read content x.

Hypothesis forward_below :
  forall (content : Text) (x : Z), forward content x (len content) < len content.

Lemma Read_with_no_tokens (this : TextList) (url : string) (content : Text) :
  free_of "<" content = true ->
  TextList_Read_with forward this url content = Val (this, None).
Proof.
  intros Hf.
  destruct (Read_with_returns forward forward_below this url content)
    as [l Hl].
  rewrite Hl.
  apply (Read_with_shapes forward forward_is_read) in Hl.
  destruct Hl as ([| [b e] offs] & _ & -> & Hs).
  - cbn [map]. rewrite app_nil_r. reflexivity.
  - exfalso. cbn [forallb] in Hs. apply andb_prop in Hs. destruct Hs as [Hs _].
    unfold code_span, text_span in Hs. cbn [fst snd] in Hs.
    rewrite !(free_of_is_byte "<" content _ Hf) in Hs.
    rewrite andb_false_r in Hs. discriminate.
Qed.

End NoTokens.

Lemma forward_read_is_read (content : Text) (x : Z) :
  0 <= x -> forward_read content x (len content) = prior.read content x.
Proof. reflexivity. Qed.

Lemma forward_span_below (content : Text) (x : Z) :
  forward_span content x (len content) < len content.
Proof. apply Forward_below. apply len_nonneg. Qed.

Lemma forward_read_below (content : Text) (x : Z) :
  forward_read content x (len content) < len content.
Proof. apply read_below. Qed.

(** X19. Every token that the loop of [TextList.Read] appends, with the
    scanner [Text.read] or with [span.Forward], is a code span or a text
    span of the buffer: a code span starts with [<], ends with the first
    [>] after it; a text span holds no [<] and is followed by [<] in the
    buffer.  So text is a token only when a [<] follows it. *)
Theorem X19_tokens_are_code_spans_or_text_spans :
  forall (this : TextList) (url : string) (content : Text) (l : TextList)
         (er : option error),
    TextList_Read_with forward_read this url content = Val (l, er)
    \/ TextList_Read this url content = Val (l, er) ->
    exists offs : list (Z * Z),
      in_order 0 (len content) offs = true
      /\ l = this ++ map (span_of content) offs
      /\ forallb (fun p => code_span content p || text_span content p) offs
         = true.
Proof.
  intros this url content l er [H | H].
  - exact (Read_with_shapes forward_read forward_read_is_read
             this url content l er H).
  - exact (Read_with_shapes forward_span forward_span_is_read
             this url content l er H).
Qed.

Lemma X19_token_shapes_witness :
  exists offs : list (Z * Z),
    in_order 0 (len scenario_A) offs = true
    /\ tokens_of scenario_A = [] ++ map (span_of scenario_A) offs
    /\ forallb (fun p => code_span scenario_A p || text_span scenario_A p)
               offs = true.
Proof.
  apply (X19_tokens_are_code_spans_or_text_spans
           [] "u" scenario_A (tokens_of scenario_A) None).
  right. vm_compute. reflexivity.
Defined.

(** X20. A buffer without the byte [<] has no token: [TextList.Read]
    returns the receiver as it is, and [Document.Read] appends one child,
    the Element read from an empty body, so the text of the buffer is in
    no node below the document. *)
Theorem X20_buffer_without_tag_has_no_tokens :
  forall (this : TextList) (d : Document) (url : string) (content : Text),
    free_of "<" content = true ->
    TextList_Read_with forward_read this url content = Val (this, None)
    /\ TextList_Read this url content = Val (this, None)
    /\ Document_Read d url content
       = Val (mkDocument url content (d_children d ++ [NodeElement Element_zero]),
              None).
Proof.
  intros this d url content Hf.
  split; [| split].
  - exact (Read_with_no_tokens forward_read forward_read_is_read
             forward_read_below this url content Hf).
  - exact (Read_with_no_tokens forward_span forward_span_is_read
             forward_span_below this url content Hf).
  - unfold Document_Read.
    pose proof (Read_with_no_tokens forward_span forward_span_is_read
                  forward_span_below [] url content Hf) as Ht.
    fold (TextList_Read [] url content) in Ht. rewrite Ht.
    reflexivity.
Qed.

Lemma X20_plain_text_witness :
  TextList_Read_with forward_read [] "u" (bytes "plain text") = Val ([], None)
  /\ TextList_Read [] "u" (bytes "plain text") = Val ([], None)
  /\ Document_Read Document_zero "u" (bytes "plain text")
     = Val (mkDocument "u" (bytes "plain text") ([] ++ [NodeElement Element_zero]),
            None).
Proof.
  apply (X20_buffer_without_tag_has_no_tokens
           [] Document_zero "u" (bytes "plain text")).
  vm_compute. reflexivity.
Defined.

(** ** The content of the document read *)

Lemma TextList_Read_tokens_defined (url : string) (content : Text)
      (source : TextList) (er : option error) :
  TextList_Read [] url content = Val (source, er) ->
  Forall (fun t => Text_KindOf t <> KindUndefined) source.
Proof.
  intros H. apply TextList_Read_spans in H.
  destruct H as (offs & _ & Hk & -> & _). exact Hk.
Qed.

Lemma Element_Read_reads_content (this : Element) :
  reads_content (Element_Read this).
Proof.
  intros u c el er H. unfold Element_Read in H.
  exact (Element_Read_fuel_reads_content _ this u c el er H).
Qed.

(** X21. When every head token (Declaration, Instruction) of the buffer
    comes before its first Open, Solitary or Close token, the contents of
    the children that [Document.Read] appends, read in order, spell the
    tokens of the buffer in order: no token is lost, repeated or moved. *)
Theorem X21_document_children_spell_the_tokens :
  forall (this : Document) (url : string) (content : Text)
         (source : TextList) (d : Document) (er : option error),
    TextList_Read [] url content = Val (source, None) ->
    prolog_first source = true ->
    Document_Read this url content = Val (d, er) ->
    List.concat (map Node_Content (d_children d))
    = List.concat (map Node_Content (d_children this)) ++ List.concat source.
Proof.
  intros this url content source d er Ht Hp H. unfold Document_Read in H.
  pose proof (TextList_Read_tokens_defined _ _ _ _ Ht) as Hk.
  rewrite Ht in H. cbn [bind] in H.
  destruct (Document_Read_source (Element_Read Element_zero) url source []
              (mkDocument url content (d_children this)))
    as [[[d1 b] o] | |] eqn:Es; cbn [bind] in H; try discriminate.
  pose proof (Document_Read_source_appends _ _
                (Element_Read_top_nil_error Element_zero) _ _ _ _ _ _ Es)
    as [-> _].
  apply (Document_Read_source_round_trip _ _
           (Element_Read_reads_content Element_zero)) in Es;
    [| exact Hk | exact Hp].
  cbn [d_children app] in Es.
  destruct (Element_Read Element_zero url b) as [[el o] | |] eqn:Er;
    cbn [bind] in H; try discriminate.
  pose proof (Element_Read_top_nil_error _ _ _ _ _ Er). subst o.
  apply Element_Read_reads_content in Er.
  apply Val_inj in H. injection H as <- <-.
  cbn [Document_append d_children].
  rewrite map_app, concat_app. cbn [map List.concat Node_Content].
  rewrite Er, app_nil_r. exact Es.
Qed.

Lemma X21_document_children_witness :
  List.concat (map Node_Content (d_children (document_of scenario_B)))
  = [] ++ List.concat (tokens_of scenario_B).
Proof.
  apply (X21_document_children_spell_the_tokens
           Document_zero "u" scenario_B (tokens_of scenario_B)
           (document_of scenario_B) None);
    vm_compute; reflexivity.
Defined.

(** ** Kinds of nodes *)

Lemma Element_KindOf_content (e : Element) :
  Element_KindOf e = Text_KindOf (e_content e).
Proof.
  unfold Element_KindOf.
  destruct (len (e_content e) =? 0) eqn:E; cbn [negb]; [| reflexivity].
  apply Z.eqb_eq in E. symmetry. apply KindOf_short. lia.
Qed.

Lemma head_kinds (text : Text) :
  IsCode (Text_KindOf text) = true -> IsBody (Text_KindOf text) = false ->
  Kind_eqb KindDeclaration (Text_KindOf text)
  || Kind_eqb KindInstruction (Text_KindOf text) = true.
Proof.
  pose proof (Text_KindOf_range text) as H. unfold token_kinds in H.
  cbn [In] in H.
  destruct H as [H | [H | [H | [H | [H | [H | [H | [H | []]]]]]]]];
    rewrite <- H; vm_compute; intros; congruence.
Qed.

Lemma text_kinds (text : Text) :
  IsCode (Text_KindOf text) = false -> IsText (Text_KindOf text) = true ->
  Kind_eqb KindText (Text_KindOf text)
  || Kind_eqb KindData (Text_KindOf text) = true.
Proof.
  pose proof (Text_KindOf_range text) as H. unfold token_kinds in H.
  cbn [In] in H.
  destruct H as [H | [H | [H | [H | [H | [H | [H | [H | []]]]]]]]];
    rewrite <- H; vm_compute; intros; congruence.
Qed.

Lemma Document_Read_source_prolog
      (Read : string -> Text -> go (Element * option error)) (url : string) :
  reads_content Read ->
  forall (source : TextList) (body : Text) (this d : Document) (b : Text)
         (er : option error),
    Document_Read_source Read url source body this = Val (d, b, er) ->
    exists new : list Node,
      d_children d = d_children this ++ new
      /\ forallb prolog_node new = true.
Proof.
  intros HR. induction source as [| text source IH];
    intros body this d b er H; cbn [Document_Read_source] in H.
  - apply Val_inj in H. injection H as <- _ _.
    exists []. rewrite app_nil_r. split; reflexivity.
  - destruct (IsCode (Text_KindOf text)) eqn:Ec.
    + destruct (IsBody (Text_KindOf text)) eqn:Eb; [apply (IH _ _ _ _ _ H) |].
      destruct (Read url text) as [[el [e |]] | |] eqn:ER; cbn [bind] in H;
        try discriminate.
      * apply Val_inj in H. injection H as <- _ _.
        exists []. rewrite app_nil_r. split; reflexivity.
      * apply HR in ER. apply IH in H. destruct H as (new & N & P).
        cbn [Document_append d_children] in N.
        exists (NodeElement el :: new). rewrite N, <- app_assoc.
        split; [reflexivity |]. cbn [forallb prolog_node].
        rewrite Element_KindOf_content, ER, (head_kinds text Ec Eb), P.
        reflexivity.
    + destruct (IsText (Text_KindOf text)) eqn:Et; [| apply (IH _ _ _ _ _ H)].
      destruct (0 =? len body); [| apply (IH _ _ _ _ _ H)].
      apply IH in H. destruct H as (new & N & P).
      cbn [Document_append d_children] in N.
      exists (NodeText text :: new). rewrite N, <- app_assoc.
      split; [reflexivity |]. cbn [forallb prolog_node].
      rewrite (text_kinds text Ec Et), P. reflexivity.
Qed.

(** X22. [Element.KindOf] is [Text.KindOf] of the content (its test for an
    empty content changes nothing), and the children that [Document.Read]
    appends before the body Element are Elements of kind Declaration or
    Instruction and Texts of kind Text or Data, never an Open, Solitary
    or Close Element. *)
Theorem X22_kinds_of_the_children_before_the_body :
  forall (this : Document) (url : string) (content : Text) (d : Document)
         (er : option error),
    Document_Read this url content = Val (d, er) ->
    (forall e : Element, Element_KindOf e = Text_KindOf (e_content e))
    /\ exists (heads : list Node) (body : Element),
        d_children d = d_children this ++ heads ++ [NodeElement body]
        /\ forallb prolog_node heads = true.
Proof.
  intros this url content d er H. split; [exact Element_KindOf_content |].
  unfold Document_Read in H.
  destruct (TextList_Read [] url content) as [[source o] | |] eqn:Et;
    cbn [bind] in H; try discriminate.
  pose proof (TextList_Read_nil_error _ _ _ _ _ Et). subst o.
  destruct (Document_Read_source (Element_Read Element_zero) url source []
              (mkDocument url content (d_children this)))
    as [[[d1 b] o] | |] eqn:Es; cbn [bind] in H; try discriminate.
  pose proof (Document_Read_source_appends _ _
                (Element_Read_top_nil_error Element_zero) _ _ _ _ _ _ Es)
    as [-> _].
  apply (Document_Read_source_prolog _ _
           (Element_Read_reads_content Element_zero)) in Es.
  destruct Es as (heads & N & P). cbn [d_children] in N.
  destruct (Element_Read Element_zero url b) as [[el o] | |] eqn:Er;
    cbn [bind] in H; try discriminate.
  pose proof (Element_Read_top_nil_error _ _ _ _ _ Er). subst o.
  apply Val_inj in H. injection H as <- _.
  cbn [Document_append d_children].
  exists heads, el. rewrite N, <- app_assoc. split; [reflexivity | exact P].
Qed.

Lemma X22_kinds_witness :
  (forall e : Element, Element_KindOf e = Text_KindOf (e_content e))
  /\ exists (heads : list Node) (body : Element),
      d_children (document_of scenario_B) = [] ++ heads ++ [NodeElement body]
      /\ forallb prolog_node heads = true.
Proof.
  apply (X22_kinds_of_the_children_before_the_body
           Document_zero "u" scenario_B (document_of scenario_B) None).
  vm_compute. reflexivity.
Defined.

(** X23. [Kind.String] names every kind that [Text.KindOf] returns: the
    name is "<UNKN>" only for Undefined, two spans of different kinds
    have different names, and no token of [TextList.Read] is named
    "<UNKN>". *)
Theorem X23_kind_names_of_spans :
  forall a b : Text,
    (Kind_String (Text_KindOf a) = "<UNKN>"%string
     <-> Text_KindOf a = KindUndefined)
    /\ (Kind_String (Text_KindOf a) = Kind_String (Text_KindOf b)
        -> Text_KindOf a = Text_KindOf b)
    /\ (forall (url : string) (content : Text) (l : TextList)
               (er : option error),
           TextList_Read [] url content = Val (l, er) ->
           Forall (fun t => Kind_String (Text_KindOf t) <> "<UNKN>"%string) l).
Proof.
  intros a b.
  assert (Hu : forall t : Text,
             Kind_String (Text_KindOf t) = "<UNKN>"%string
             <-> Text_KindOf t = KindUndefined).
  { intros t. pose proof (Text_KindOf_range t) as H. unfold token_kinds in H.
    cbn [In] in H.
    destruct H as [H | [H | [H | [H | [H | [H | [H | [H | []]]]]]]]];
      rewrite <- H; vm_compute; split; intros; congruence. }
  split; [apply Hu |]. split.
  - pose proof (Text_KindOf_range a) as Ha.
    pose proof (Text_KindOf_range b) as Hb.
    unfold token_kinds in Ha, Hb. cbn [In] in Ha, Hb.
    destruct Ha as [H | [H | [H | [H | [H | [H | [H | [H | []]]]]]]]];
      rewrite <- H;
      destruct Hb as [G | [G | [G | [G | [G | [G | [G | [G | []]]]]]]]];
      rewrite <- G; vm_compute; intros; congruence.
  - intros url content l er H.
    apply TextList_Read_tokens_defined in H.
    apply Forall_impl with (2 := H). intros t Ht Hn. apply Ht, Hu, Hn.
Qed.

(** ** Element.String *)

Lemma Element_String_loop_later (attributes : list Attribute) :
  forall (ix : Z) (str : Text),
    0 < ix ->
    Element_String_loop ix attributes str
    = str ++ List.concat (map (fun at_ => " "%char :: a_name at_) attributes).
Proof.
  induction attributes as [| at_ attributes IH]; intros ix str Hix;
    cbn [Element_String_loop map List.concat].
  - rewrite app_nil_r. reflexivity.
  - replace (0 =? ix) with false by (symmetry; apply Z.eqb_neq; lia).
    cbn [negb]. rewrite IH by lia. rewrite <- !app_assoc. reflexivity.
Qed.

Lemma join_cons (a : Text) (l : list Text) :
  join [" "%char] (a :: l)
  = a ++ List.concat (map (fun t => " "%char :: t) l).
Proof.
  revert a. induction l as [| b l IH]; intros a.
  - cbn [join map List.concat]. rewrite app_nil_r. reflexivity.
  - change (join [" "%char] (a :: b :: l))
      with (a ++ [" "%char] ++ join [" "%char] (b :: l)).
    rewrite IH. reflexivity.
Qed.

(** X24. [Element.String] is the name, one space, and the names of the
    attributes with one space between them: an element without
    attributes gives its name and a space, the values of the attributes
    are not in it, and an attribute without a name (a quoted value) gives
    an empty word. *)
Theorem X24_element_string_is_the_name_and_the_attribute_names :
  forall this : Element,
    Element_String this
    = e_name this ++ [" "%char]
      ++ join [" "%char] (map a_name (e_attributes this)).
Proof.
  intros this. unfold Element_String.
  destruct (e_attributes this) as [| at_ attributes];
    cbn [Element_String_loop map].
  - cbn [join]. rewrite app_nil_r. reflexivity.
  - cbn [Z.eqb negb]. rewrite Element_String_loop_later by lia.
    rewrite join_cons, map_map, <- !app_assoc. reflexivity.
Qed.
